(** * The estimation-and-control loop of [control_node.py]

    A shallow embedding of class [control] of [src/control_node.py]: the
    saturation and truncation helpers, the two Kalman filters and the body of
    the [while True] loop of [control_process], one iteration ("tick") at a
    time.

    Numbers.  Python floats are read as exact real numbers ([R]): the loop's
    arithmetic, comparisons and the calls to [np.cos], [np.sin] and [np.exp]
    are the real ones.  Python integers are [Z].  Where rounding decides a
    property (the two-decimal truncation), module [B64] repeats the function
    over IEEE-754 binary64, the representation of a CPython float.

    Names.  A local variable of [control_process] that may be unbound or hold
    [None] is an [option]; reading it where Python needs a number raises
    [NameError]/[TypeError] in the model as in the source. *)

From Stdlib Require Import Reals Lra Lia ZArith List Bool Floats Sorted.
Import ListNotations.

Open Scope R_scope.

(* ------------------------------------------------------------------ *)
(** ** Python comparisons and truthiness over exact numbers *)

Definition Rltb (x y : R) : bool := if Rlt_dec x y then true else false.
Definition Rleb (x y : R) : bool := if Rle_dec x y then true else false.
Definition Rgeb (x y : R) : bool := Rleb y x.
Definition Reqb (x y : R) : bool := if Req_dec_T x y then true else false.

(** [bool(x)] of a number: zero is falsy. *)
Definition truthy_num (x : R) : bool := negb (Reqb x 0).

(** [bool(v)] of a variable holding [None] or a number. *)
Definition truthy (v : option R) : bool :=
  match v with
  | None => false
  | Some x => truthy_num x
  end.

(** [abs(b)] of a Python [bool] is the integer 0 or 1; [bool(n)] of an
    integer. *)
Definition abs_of_bool (b : bool) : Z := Z.abs (Z.b2z b).
Definition truthy_int (n : Z) : bool := negb (n =? 0)%Z.

(** [int(x)] of a finite float: the integer part, toward zero. *)
Definition py_int (x : R) : Z :=
  if Rle_dec 0 x then Int_part x else (- Int_part (- x))%Z.

(* ------------------------------------------------------------------ *)
(** ** Configuration ([control.__init__]) *)

Definition PERIOD : R := 1 / 100.
Definition ABS_MAX_VALUE_ROLL : R := 100.
Definition ABS_MAX_VALUE_PITCH : R := 150.
Definition ABS_MAX_VALUE_THROTTLE : R := 150.
Definition TAKEOFF_ALTITUDE : R := 1.

(** [TAKEOFF_LIST[t] = 1 - 1/np.exp(t)] for [t in range(n)]; the source has
    [n = 20]. *)
Definition takeoff_fraction (t : nat) : R := 1 - 1 / exp (INR t).
Definition takeoff_list (n : nat) : list R := map takeoff_fraction (seq 0 n).
Definition TAKEOFF_LIST_LEN : nat := 20.

Definition PX_GAIN : R := 100.
Definition IX_GAIN : R := 0.005.
Definition DX_GAIN : R := 22.
Definition PY_GAIN : R := 100.
Definition IY_GAIN : R := 0.005.
Definition DY_GAIN : R := 22.
Definition PZ_GAIN : R := 60.
Definition IZ_GAIN : R := 0.05.
Definition DZ_GAIN : R := 30.

(** [int(1015-60*(battery_voltage))], the voltage-compensated thrust. *)
Definition takeoff_thrust (battery_voltage : R) : Z :=
  py_int (1015 - 60 * battery_voltage).

(* ------------------------------------------------------------------ *)
(** ** [value_limit], the inline roll/pitch clamp and [truncate] *)

(** [control.value_limit(output, limit)]. *)
Definition value_limit (output limit : R) : R :=
  if Rgeb (Rabs output) limit
  then (if Rltb output 0 then - limit else limit)
  else output.

(** [next if abs(next) <= LIMIT else (-1 if next < 0 else 1)*LIMIT]. *)
Definition clamp_inline (next limit : R) : R :=
  if Rleb (Rabs next) limit
  then next
  else (if Rltb next 0 then -1 else 1) * limit.

(** [control.truncate(data, dp)]: [(int(data*(10**dp)))/(10**dp)]. *)
Definition truncate_dp (data : R) (dp : nat) : R :=
  IZR (py_int (data * IZR (10 ^ Z.of_nat dp))) / IZR (10 ^ Z.of_nat dp).

Definition truncate (data : R) : R := truncate_dp data 2.

(** [dt if abs(dt<3) else 0]: the source takes [abs] of the comparison's
    [bool], not of [dt]. *)
Definition dt_guard (dt : R) : R :=
  if truthy_int (abs_of_bool (Rltb dt 3)) then dt else 0.

(** [0.5*(dt**2) if abs(dt<3) else 0]. *)
Definition dt_guard_sq (dt : R) : R :=
  if truthy_int (abs_of_bool (Rltb dt 3)) then 0.5 * (dt * dt) else 0.

(** Degrees to radians as the source writes it: [a*np.pi*1/180]. *)
Definition rad (a : R) : R := a * PI * 1 / 180.

(* ------------------------------------------------------------------ *)
(** ** [truncate] over binary64 *)

Module B64.

(** [int(x)]: [None] stands for the [OverflowError]/[ValueError] that
    [int] raises on an infinity or a NaN. *)
Definition to_int (x : float) : option Z :=
  match Prim2SF x with
  | S754_zero _ => Some 0%Z
  | S754_finite s m e =>
      let a := match e with
               | Z0 => Zpos m
               | Zpos p => (Zpos m * 2 ^ Zpos p)%Z
               | Zneg p => Z.shiftr (Zpos m) (Zpos p)
               end in
      Some (if s then (- a)%Z else a)
  | S754_infinity _ | S754_nan => None
  end.

(** [float(n)] of an integer, correctly rounded. *)
Definition of_int (n : Z) : float :=
  SF2Prim (binary_normalize prec emax n 0 false).

(** [control.truncate(data)] with [dp = 2]: [int(data*100)/100], the
    quotient of two Python integers being the correctly rounded double. *)
Definition truncate (data : float) : option float :=
  match to_int (PrimFloat.mul data (of_int 100)) with
  | Some k => Some (PrimFloat.div (of_int k) (of_int 100))
  | None => None
  end.

(** The double a decimal literal [n/10^d] denotes (the quotient of the two
    integers is rounded once, like the literal). *)
Definition dec (n : Z) (d : nat) : float :=
  PrimFloat.div (of_int n) (of_int (10 ^ Z.of_nat d)).

(** The integers [lo, lo + 1, ..., lo + len - 1]. *)
Definition zrange (lo : Z) (len : nat) : list Z :=
  map (fun k => (lo + Z.of_nat k)%Z) (seq 0 len).

(** On the double nearest [n/10^d], [truncate] returns the double nearest
    [q/100] or the one nearest the two-decimal value next to it toward
    zero, [q] being [n/10^(d-2)] truncated toward zero. *)
Definition toward_zero_at (d : nat) (n : Z) : bool :=
  let q := Z.quot n (10 ^ Z.of_nat (d - 2)) in
  match truncate (dec n d) with
  | Some y => PrimFloat.eqb y (dec q 2) || PrimFloat.eqb y (dec (q - Z.sgn q) 2)
  | None => false
  end.

(** [truncate] leaves the double nearest [n/100] unchanged. *)
Definition fixed_at (n : Z) : bool :=
  match truncate (dec n 2) with
  | Some y => PrimFloat.eqb y (dec n 2)
  | None => false
  end.

End B64.

(* ------------------------------------------------------------------ *)
(** ** Matrices and [filterpy.kalman.KalmanFilter]

    [numpy] arrays are lists of rows; a column vector is a plain list.  The
    two methods the loop calls follow filterpy's [predict] and [update]
    (the textbook equations); [kf_update] fails where [numpy.linalg.inv]
    raises on a singular innovation covariance. *)

Definition vec := list R.
Definition mat := list (list R).

Fixpoint list_set {A} (i : nat) (v : A) (l : list A) : list A :=
  match l, i with
  | [], _ => []
  | _ :: t, O => v :: t
  | h :: t, S j => h :: list_set j v t
  end.

Definition vget (i : nat) (x : vec) : R := nth i x 0.
Definition mget (i j : nat) (m : mat) : R := nth j (nth i m []) 0.
Definition mset (i j : nat) (v : R) (m : mat) : mat :=
  list_set i (list_set j v (nth i m [])) m.

Definition dot (a b : vec) : R :=
  fold_right Rplus 0 (map (fun p => fst p * snd p) (combine a b)).
Definition mat_vec (m : mat) (x : vec) : vec := map (fun row => dot row x) m.
Definition vadd (a b : vec) : vec := map (fun p => fst p + snd p) (combine a b).
Definition vsub (a b : vec) : vec := map (fun p => fst p - snd p) (combine a b).
Definition vscale (k : R) (a : vec) : vec := map (Rmult k) a.
Definition column (j : nat) (m : mat) : vec := map (fun row => nth j row 0) m.
Definition transpose (m : mat) : mat :=
  map (fun j => column j m) (seq 0 (length (hd [] m))).
Definition mat_mul (a b : mat) : mat :=
  map (fun row => map (fun j => dot row (column j b)) (seq 0 (length (hd [] b)))) a.
Definition mat_add (a b : mat) : mat := map (fun p => vadd (fst p) (snd p)) (combine a b).
Definition mat_sub (a b : mat) : mat := map (fun p => vsub (fst p) (snd p)) (combine a b).
Definition diag (d : list R) : mat :=
  map (fun i => map (fun j => if Nat.eqb i j then nth i d 0 else 0) (seq 0 (length d)))
      (seq 0 (length d)).
Definition eye (n : nat) : mat := diag (repeat 1 n).

(** [numpy.linalg.inv] of a 2x2 matrix; [None] is [LinAlgError]. *)
Definition inv2 (m : mat) : option mat :=
  let a := mget 0 0 m in let b := mget 0 1 m in
  let c := mget 1 0 m in let d := mget 1 1 m in
  let det := a * d - b * c in
  if Reqb det 0 then None
  else Some [[d / det; - b / det]; [- c / det; a / det]].

Record KalmanFilter := mkKF {
  kf_x : vec;
  kf_F : mat;
  kf_P : mat;
  kf_B : mat;
  kf_H : mat;
  kf_Q : mat;
  kf_R : mat
}.

Definition kf_with_x (v : vec) (k : KalmanFilter) : KalmanFilter :=
  mkKF v (kf_F k) (kf_P k) (kf_B k) (kf_H k) (kf_Q k) (kf_R k).
Definition kf_with_F (m : mat) (k : KalmanFilter) : KalmanFilter :=
  mkKF (kf_x k) m (kf_P k) (kf_B k) (kf_H k) (kf_Q k) (kf_R k).
Definition kf_with_P (m : mat) (k : KalmanFilter) : KalmanFilter :=
  mkKF (kf_x k) (kf_F k) m (kf_B k) (kf_H k) (kf_Q k) (kf_R k).
Definition kf_with_B (m : mat) (k : KalmanFilter) : KalmanFilter :=
  mkKF (kf_x k) (kf_F k) (kf_P k) m (kf_H k) (kf_Q k) (kf_R k).
Definition kf_with_R (m : mat) (k : KalmanFilter) : KalmanFilter :=
  mkKF (kf_x k) (kf_F k) (kf_P k) (kf_B k) (kf_H k) (kf_Q k) m.

(** [KalmanFilter.predict(u)] for a scalar [u]: [x = F x + B u],
    [P = F P F' + Q].  Both call sites pass [u = 0]; [dot(B, u)] is then the
    zero array, of which the state reads column 0. *)
Definition kf_predict (u : R) (k : KalmanFilter) : KalmanFilter :=
  let x' := vadd (mat_vec (kf_F k) (kf_x k)) (vscale u (column 0 (kf_B k))) in
  let P' := mat_add (mat_mul (mat_mul (kf_F k) (kf_P k)) (transpose (kf_F k))) (kf_Q k) in
  kf_with_P P' (kf_with_x x' k).

(** [KalmanFilter.update(z)] with a two-channel measurement:
    [y = z - H x], [S = H P H' + R], [K = P H' inv(S)], [x = x + K y],
    [P = (I - K H) P (I - K H)' + K R K']. *)
Definition kf_update (z : vec) (k : KalmanFilter) : option KalmanFilter :=
  let y := vsub z (mat_vec (kf_H k) (kf_x k)) in
  let PHT := mat_mul (kf_P k) (transpose (kf_H k)) in
  let S := mat_add (mat_mul (kf_H k) PHT) (kf_R k) in
  match inv2 S with
  | None => None
  | Some SI =>
      let K := mat_mul PHT SI in
      let x' := vadd (kf_x k) (mat_vec K y) in
      let I_KH := mat_sub (eye (length (kf_x k))) (mat_mul K (kf_H k)) in
      let P' := mat_add (mat_mul (mat_mul I_KH (kf_P k)) (transpose I_KH))
                        (mat_mul (mat_mul K (kf_R k)) (transpose K)) in
      Some (kf_with_P P' (kf_with_x x' k))
  end.

(** [control.tof_filter_init]. *)
Definition tof_filter_init : KalmanFilter :=
  let dt := 0.01 in
  {| kf_x := [0; 0];
     kf_F := [[1; dt]; [0; 1]];
     kf_P := diag [0.1; 0.1];
     kf_B := [[0]; [dt]];
     kf_H := diag [1; 1];
     kf_Q := diag [0.9; 0.4];
     kf_R := diag [0.02 * 0.02; 0.05 * 0.05] |}.

(** [control.xy_of_filter_init]: the filter, its measurement buffer
    [KFXY_z] and its control buffer [KFXY_u].  The state is
    [[dx(pitch); dy(roll); vx(pitch); vy(roll)]]; row 0 of [H] reads [vx],
    row 1 reads [vy]. *)
Definition KFXY_init : KalmanFilter :=
  {| kf_x := [0; 0; 0; 0];
     kf_F := diag [1; 1; 1; 1];
     kf_P := diag [0.9; 0.9; 1; 1];
     kf_B := diag [1; 1; 1; 1];
     kf_H := [[0; 0; 1; 0];
              [0; 0; 0; 1]];
     kf_Q := map (vscale (0.1 * 0.1)) (eye 4);
     kf_R := map (vscale (0.01 * 0.01)) (eye 2) |}.
Definition KFXY_z_init : vec := [0; 0].
Definition KFXY_u_init : vec := [0; 0; 0; 0].

(** The horizontal axes and where each lives in [KFXY]: position and
    velocity index in the state, and the measurement channel (row of [H])
    that reads the axis' velocity. *)
Inductive axis := AxisX | AxisY.
Definition velocity_index (a : axis) : nat :=
  match a with AxisX => 2 | AxisY => 3 end.
Definition channel_reads (h : mat) (ch : nat) (a : axis) : Prop :=
  nth ch h [] = map (fun j => if Nat.eqb j (velocity_index a) then 1 else 0) (seq 0 4).

(* ------------------------------------------------------------------ *)
(** ** The PID controller

    [pid.PID] is imported by [control_node.py] and is not among the sources:
    the loop is modelled over any implementation of its two entry points. *)

Class PIDImpl := {
  pid_state : Type;
  (** [PID(Kp, Ki, Kd)] *)
  pid_new : R -> R -> R -> pid_state;
  (** [calc(error, time=..., velocity=...)]: the output and the controller
      afterwards; [time] is [None] where the call omits it. *)
  pid_calc : pid_state -> R -> option R -> R -> R * pid_state
}.

(** Modelled from the spec: [pid.PID] is missing from the sources.  The spec
    gives [output = Kp*error + Ki*integral(error dt) + Kd*velocityFeedback]
    with the velocity feedback supplied by the caller (already negated);
    an omitted [time] is taken as the loop period. *)
Record spec_pid_state := {
  Kp : R; Ki : R; Kd : R; integral : R
}.
Definition spec_pid_calc (p : spec_pid_state) (error : R) (time : option R)
    (velocity : R) : R * spec_pid_state :=
  let dt := match time with Some t => t | None => PERIOD end in
  let i := integral p + error * dt in
  (Kp p * error + Ki p * i + Kd p * velocity,
   {| Kp := Kp p; Ki := Ki p; Kd := Kd p; integral := i |}).
Definition spec_pid : PIDImpl :=
  {| pid_state := spec_pid_state;
     pid_new := fun kp ki kd => {| Kp := kp; Ki := ki; Kd := kd; integral := 0 |};
     pid_calc := spec_pid_calc |}.

(* ------------------------------------------------------------------ *)
(** ** The state of [control_process] *)

(** [self.imu = [[accX,accY,accZ], [gyroX,gyroY,gyroZ], [roll,pitch,yaw]]];
    [imu[2][0]] is [att_roll], [imu[2][1]] is [att_pitch]. *)
Record Imu := {
  accX : R; accY : R; accZ : R;
  gyroX : R; gyroY : R; gyroZ : R;
  att_roll : R; att_pitch : R; att_yaw : R
}.
Definition imu_init : Imu := Build_Imu 0 0 0 0 0 0 0 0 0.

(** The dictionary [CMDS]. *)
Record Command := { throttle : R; roll : R; pitch : R }.

(** What one iteration finds on its pipes and clocks: the message [poll]
    would report on each inbound pipe ([None]: nothing waiting) and the
    values of the [time.time()] calls. *)
Record Inputs := {
  mode_msg : option bool;            (* ext_control_pipe_write *)
  imu_msg : option (Imu * R * R);    (* imu, battery_voltage, IMU_TIME *)
  tof_msg : option (R * R);          (* altitude_sensor, TOF_Time *)
  flow_msg : option (R * R * R);     (* dx, dy, OF_TIME *)
  clock_imu : R;
  clock_tof : R;
  clock_of : R;
  clock_end : R
}.

Inductive pipe := OptflowPipe | TofPipe.

(** Calls that leave the loop; a filter call is recorded with the filter as
    it stands when the method is entered. *)
Inductive Event :=
| Token (p : pipe)                          (* control_*_pipe_read.send('a') *)
| TofPredict (k : KalmanFilter)             (* tof_filter.predict(u = 0) *)
| TofUpdate (k : KalmanFilter) (z : vec)    (* tof_filter.update(z) *)
| XYUpdate (k : KalmanFilter) (z : vec)     (* KFXY.update(z) *)
| XYPredict (k : KalmanFilter)              (* KFXY.predict(u=0) *)
| Publish (c : Command).                    (* ext_control_pipe_write.send(CMDS) *)

Inductive exn := NameError | TypeError | ValueError | OverflowError | LinAlgError.

(** How a statement ends: it completes, raises (control passes to the
    loop's [except Exception], which prints and starts the next iteration)
    or executes [continue]. *)
Inductive signal (A : Type) :=
| Normal (a : A)
| Raised (e : exn)
| Continued.
Arguments Normal {A} a.
Arguments Raised {A} e.
Arguments Continued {A}.

Section Model.

Context {pid : PIDImpl}.

Record State := mkState {
  TAKEOFF : bool;  (* [self.TAKEOFF] *)
  LANDING : bool;  (* [self.LANDING] *)
  TAKEOFF_LIST : list R;  (* [self.TAKEOFF_LIST], consumed from the front *)
  IMU_TIME : R;  (* [self.IMU_TIME] *)
  OF_TIME : R;  (* [self.OF_TIME] *)
  TOF_Time : R;  (* [self.TOF_Time] *)
  imu : Imu;  (* [self.imu] *)
  TAKEOFF_THRUST : option Z;  (* unbound until an IMU sample arrives during takeoff *)
  tof_filter : KalmanFilter;
  KFXY : KalmanFilter;
  KFXY_z : vec;
  KFXY_u : vec;
  throttle_pd : pid_state;
  roll_pd : pid_state;
  pitch_pd : pid_state;
  init_x : R;  (* never assigned after initialisation *)
  init_y : R;  (* never assigned after initialisation *)
  prev_altitude_sensor : option R;
  altitude_sensor : option R;
  altitude : option R;
  altitude_corrected : option R;
  value_available : bool;
  postition_hold : bool;
  init_altitude : option R;  (* [0] at start, [None] once landing is requested *)
  CMDS : Command;
  prev_time : R;
  imut : option R;  (* debug timestamps, unbound until their first sample *)
  oft : option R;
  toft : option R;
  dt : option R;  (* unbound until the first vertical step *)
  velocity : option R;
  cancel_gravity_value : option R;
  error_altitude : option R;
  next_throttle : option R;
  outbox : list Command;  (* the outbound pipe: commands sent and not yet received *)
  trace : list Event  (* calls into the filters and the pipes, latest first *)
}.

(** Assignment to one variable, the others kept. *)
Definition set_TAKEOFF (v : bool) (s : State) : State :=
  mkState v (LANDING s) (TAKEOFF_LIST s) (IMU_TIME s) (OF_TIME s) (TOF_Time s) (imu s)
    (TAKEOFF_THRUST s) (tof_filter s) (KFXY s) (KFXY_z s) (KFXY_u s) (throttle_pd s)
    (roll_pd s) (pitch_pd s) (init_x s) (init_y s) (prev_altitude_sensor s)
    (altitude_sensor s) (altitude s) (altitude_corrected s) (value_available s)
    (postition_hold s) (init_altitude s) (CMDS s) (prev_time s) (imut s) (oft s) (toft
    s) (dt s) (velocity s) (cancel_gravity_value s) (error_altitude s) (next_throttle s)
    (outbox s) (trace s).
Definition set_LANDING (v : bool) (s : State) : State :=
  mkState (TAKEOFF s) v (TAKEOFF_LIST s) (IMU_TIME s) (OF_TIME s) (TOF_Time s) (imu s)
    (TAKEOFF_THRUST s) (tof_filter s) (KFXY s) (KFXY_z s) (KFXY_u s) (throttle_pd s)
    (roll_pd s) (pitch_pd s) (init_x s) (init_y s) (prev_altitude_sensor s)
    (altitude_sensor s) (altitude s) (altitude_corrected s) (value_available s)
    (postition_hold s) (init_altitude s) (CMDS s) (prev_time s) (imut s) (oft s) (toft
    s) (dt s) (velocity s) (cancel_gravity_value s) (error_altitude s) (next_throttle s)
    (outbox s) (trace s).
Definition set_TAKEOFF_LIST (v : list R) (s : State) : State :=
  mkState (TAKEOFF s) (LANDING s) v (IMU_TIME s) (OF_TIME s) (TOF_Time s) (imu s)
    (TAKEOFF_THRUST s) (tof_filter s) (KFXY s) (KFXY_z s) (KFXY_u s) (throttle_pd s)
    (roll_pd s) (pitch_pd s) (init_x s) (init_y s) (prev_altitude_sensor s)
    (altitude_sensor s) (altitude s) (altitude_corrected s) (value_available s)
    (postition_hold s) (init_altitude s) (CMDS s) (prev_time s) (imut s) (oft s) (toft
    s) (dt s) (velocity s) (cancel_gravity_value s) (error_altitude s) (next_throttle s)
    (outbox s) (trace s).
Definition set_IMU_TIME (v : R) (s : State) : State :=
  mkState (TAKEOFF s) (LANDING s) (TAKEOFF_LIST s) v (OF_TIME s) (TOF_Time s) (imu s)
    (TAKEOFF_THRUST s) (tof_filter s) (KFXY s) (KFXY_z s) (KFXY_u s) (throttle_pd s)
    (roll_pd s) (pitch_pd s) (init_x s) (init_y s) (prev_altitude_sensor s)
    (altitude_sensor s) (altitude s) (altitude_corrected s) (value_available s)
    (postition_hold s) (init_altitude s) (CMDS s) (prev_time s) (imut s) (oft s) (toft
    s) (dt s) (velocity s) (cancel_gravity_value s) (error_altitude s) (next_throttle s)
    (outbox s) (trace s).
Definition set_OF_TIME (v : R) (s : State) : State :=
  mkState (TAKEOFF s) (LANDING s) (TAKEOFF_LIST s) (IMU_TIME s) v (TOF_Time s) (imu s)
    (TAKEOFF_THRUST s) (tof_filter s) (KFXY s) (KFXY_z s) (KFXY_u s) (throttle_pd s)
    (roll_pd s) (pitch_pd s) (init_x s) (init_y s) (prev_altitude_sensor s)
    (altitude_sensor s) (altitude s) (altitude_corrected s) (value_available s)
    (postition_hold s) (init_altitude s) (CMDS s) (prev_time s) (imut s) (oft s) (toft
    s) (dt s) (velocity s) (cancel_gravity_value s) (error_altitude s) (next_throttle s)
    (outbox s) (trace s).
Definition set_TOF_Time (v : R) (s : State) : State :=
  mkState (TAKEOFF s) (LANDING s) (TAKEOFF_LIST s) (IMU_TIME s) (OF_TIME s) v (imu s)
    (TAKEOFF_THRUST s) (tof_filter s) (KFXY s) (KFXY_z s) (KFXY_u s) (throttle_pd s)
    (roll_pd s) (pitch_pd s) (init_x s) (init_y s) (prev_altitude_sensor s)
    (altitude_sensor s) (altitude s) (altitude_corrected s) (value_available s)
    (postition_hold s) (init_altitude s) (CMDS s) (prev_time s) (imut s) (oft s) (toft
    s) (dt s) (velocity s) (cancel_gravity_value s) (error_altitude s) (next_throttle s)
    (outbox s) (trace s).
Definition set_imu (v : Imu) (s : State) : State :=
  mkState (TAKEOFF s) (LANDING s) (TAKEOFF_LIST s) (IMU_TIME s) (OF_TIME s) (TOF_Time s)
    v (TAKEOFF_THRUST s) (tof_filter s) (KFXY s) (KFXY_z s) (KFXY_u s) (throttle_pd s)
    (roll_pd s) (pitch_pd s) (init_x s) (init_y s) (prev_altitude_sensor s)
    (altitude_sensor s) (altitude s) (altitude_corrected s) (value_available s)
    (postition_hold s) (init_altitude s) (CMDS s) (prev_time s) (imut s) (oft s) (toft
    s) (dt s) (velocity s) (cancel_gravity_value s) (error_altitude s) (next_throttle s)
    (outbox s) (trace s).
Definition set_TAKEOFF_THRUST (v : option Z) (s : State) : State :=
  mkState (TAKEOFF s) (LANDING s) (TAKEOFF_LIST s) (IMU_TIME s) (OF_TIME s) (TOF_Time s)
    (imu s) v (tof_filter s) (KFXY s) (KFXY_z s) (KFXY_u s) (throttle_pd s) (roll_pd s)
    (pitch_pd s) (init_x s) (init_y s) (prev_altitude_sensor s) (altitude_sensor s)
    (altitude s) (altitude_corrected s) (value_available s) (postition_hold s)
    (init_altitude s) (CMDS s) (prev_time s) (imut s) (oft s) (toft s) (dt s) (velocity
    s) (cancel_gravity_value s) (error_altitude s) (next_throttle s) (outbox s) (trace
    s).
Definition set_tof_filter (v : KalmanFilter) (s : State) : State :=
  mkState (TAKEOFF s) (LANDING s) (TAKEOFF_LIST s) (IMU_TIME s) (OF_TIME s) (TOF_Time s)
    (imu s) (TAKEOFF_THRUST s) v (KFXY s) (KFXY_z s) (KFXY_u s) (throttle_pd s) (roll_pd
    s) (pitch_pd s) (init_x s) (init_y s) (prev_altitude_sensor s) (altitude_sensor s)
    (altitude s) (altitude_corrected s) (value_available s) (postition_hold s)
    (init_altitude s) (CMDS s) (prev_time s) (imut s) (oft s) (toft s) (dt s) (velocity
    s) (cancel_gravity_value s) (error_altitude s) (next_throttle s) (outbox s) (trace
    s).
Definition set_KFXY (v : KalmanFilter) (s : State) : State :=
  mkState (TAKEOFF s) (LANDING s) (TAKEOFF_LIST s) (IMU_TIME s) (OF_TIME s) (TOF_Time s)
    (imu s) (TAKEOFF_THRUST s) (tof_filter s) v (KFXY_z s) (KFXY_u s) (throttle_pd s)
    (roll_pd s) (pitch_pd s) (init_x s) (init_y s) (prev_altitude_sensor s)
    (altitude_sensor s) (altitude s) (altitude_corrected s) (value_available s)
    (postition_hold s) (init_altitude s) (CMDS s) (prev_time s) (imut s) (oft s) (toft
    s) (dt s) (velocity s) (cancel_gravity_value s) (error_altitude s) (next_throttle s)
    (outbox s) (trace s).
Definition set_KFXY_z (v : vec) (s : State) : State :=
  mkState (TAKEOFF s) (LANDING s) (TAKEOFF_LIST s) (IMU_TIME s) (OF_TIME s) (TOF_Time s)
    (imu s) (TAKEOFF_THRUST s) (tof_filter s) (KFXY s) v (KFXY_u s) (throttle_pd s)
    (roll_pd s) (pitch_pd s) (init_x s) (init_y s) (prev_altitude_sensor s)
    (altitude_sensor s) (altitude s) (altitude_corrected s) (value_available s)
    (postition_hold s) (init_altitude s) (CMDS s) (prev_time s) (imut s) (oft s) (toft
    s) (dt s) (velocity s) (cancel_gravity_value s) (error_altitude s) (next_throttle s)
    (outbox s) (trace s).
Definition set_KFXY_u (v : vec) (s : State) : State :=
  mkState (TAKEOFF s) (LANDING s) (TAKEOFF_LIST s) (IMU_TIME s) (OF_TIME s) (TOF_Time s)
    (imu s) (TAKEOFF_THRUST s) (tof_filter s) (KFXY s) (KFXY_z s) v (throttle_pd s)
    (roll_pd s) (pitch_pd s) (init_x s) (init_y s) (prev_altitude_sensor s)
    (altitude_sensor s) (altitude s) (altitude_corrected s) (value_available s)
    (postition_hold s) (init_altitude s) (CMDS s) (prev_time s) (imut s) (oft s) (toft
    s) (dt s) (velocity s) (cancel_gravity_value s) (error_altitude s) (next_throttle s)
    (outbox s) (trace s).
Definition set_throttle_pd (v : pid_state) (s : State) : State :=
  mkState (TAKEOFF s) (LANDING s) (TAKEOFF_LIST s) (IMU_TIME s) (OF_TIME s) (TOF_Time s)
    (imu s) (TAKEOFF_THRUST s) (tof_filter s) (KFXY s) (KFXY_z s) (KFXY_u s) v (roll_pd
    s) (pitch_pd s) (init_x s) (init_y s) (prev_altitude_sensor s) (altitude_sensor s)
    (altitude s) (altitude_corrected s) (value_available s) (postition_hold s)
    (init_altitude s) (CMDS s) (prev_time s) (imut s) (oft s) (toft s) (dt s) (velocity
    s) (cancel_gravity_value s) (error_altitude s) (next_throttle s) (outbox s) (trace
    s).
Definition set_roll_pd (v : pid_state) (s : State) : State :=
  mkState (TAKEOFF s) (LANDING s) (TAKEOFF_LIST s) (IMU_TIME s) (OF_TIME s) (TOF_Time s)
    (imu s) (TAKEOFF_THRUST s) (tof_filter s) (KFXY s) (KFXY_z s) (KFXY_u s)
    (throttle_pd s) v (pitch_pd s) (init_x s) (init_y s) (prev_altitude_sensor s)
    (altitude_sensor s) (altitude s) (altitude_corrected s) (value_available s)
    (postition_hold s) (init_altitude s) (CMDS s) (prev_time s) (imut s) (oft s) (toft
    s) (dt s) (velocity s) (cancel_gravity_value s) (error_altitude s) (next_throttle s)
    (outbox s) (trace s).
Definition set_pitch_pd (v : pid_state) (s : State) : State :=
  mkState (TAKEOFF s) (LANDING s) (TAKEOFF_LIST s) (IMU_TIME s) (OF_TIME s) (TOF_Time s)
    (imu s) (TAKEOFF_THRUST s) (tof_filter s) (KFXY s) (KFXY_z s) (KFXY_u s)
    (throttle_pd s) (roll_pd s) v (init_x s) (init_y s) (prev_altitude_sensor s)
    (altitude_sensor s) (altitude s) (altitude_corrected s) (value_available s)
    (postition_hold s) (init_altitude s) (CMDS s) (prev_time s) (imut s) (oft s) (toft
    s) (dt s) (velocity s) (cancel_gravity_value s) (error_altitude s) (next_throttle s)
    (outbox s) (trace s).
Definition set_prev_altitude_sensor (v : option R) (s : State) : State :=
  mkState (TAKEOFF s) (LANDING s) (TAKEOFF_LIST s) (IMU_TIME s) (OF_TIME s) (TOF_Time s)
    (imu s) (TAKEOFF_THRUST s) (tof_filter s) (KFXY s) (KFXY_z s) (KFXY_u s)
    (throttle_pd s) (roll_pd s) (pitch_pd s) (init_x s) (init_y s) v (altitude_sensor s)
    (altitude s) (altitude_corrected s) (value_available s) (postition_hold s)
    (init_altitude s) (CMDS s) (prev_time s) (imut s) (oft s) (toft s) (dt s) (velocity
    s) (cancel_gravity_value s) (error_altitude s) (next_throttle s) (outbox s) (trace
    s).
Definition set_altitude_sensor (v : option R) (s : State) : State :=
  mkState (TAKEOFF s) (LANDING s) (TAKEOFF_LIST s) (IMU_TIME s) (OF_TIME s) (TOF_Time s)
    (imu s) (TAKEOFF_THRUST s) (tof_filter s) (KFXY s) (KFXY_z s) (KFXY_u s)
    (throttle_pd s) (roll_pd s) (pitch_pd s) (init_x s) (init_y s) (prev_altitude_sensor
    s) v (altitude s) (altitude_corrected s) (value_available s) (postition_hold s)
    (init_altitude s) (CMDS s) (prev_time s) (imut s) (oft s) (toft s) (dt s) (velocity
    s) (cancel_gravity_value s) (error_altitude s) (next_throttle s) (outbox s) (trace
    s).
Definition set_altitude (v : option R) (s : State) : State :=
  mkState (TAKEOFF s) (LANDING s) (TAKEOFF_LIST s) (IMU_TIME s) (OF_TIME s) (TOF_Time s)
    (imu s) (TAKEOFF_THRUST s) (tof_filter s) (KFXY s) (KFXY_z s) (KFXY_u s)
    (throttle_pd s) (roll_pd s) (pitch_pd s) (init_x s) (init_y s) (prev_altitude_sensor
    s) (altitude_sensor s) v (altitude_corrected s) (value_available s) (postition_hold
    s) (init_altitude s) (CMDS s) (prev_time s) (imut s) (oft s) (toft s) (dt s)
    (velocity s) (cancel_gravity_value s) (error_altitude s) (next_throttle s) (outbox
    s) (trace s).
Definition set_altitude_corrected (v : option R) (s : State) : State :=
  mkState (TAKEOFF s) (LANDING s) (TAKEOFF_LIST s) (IMU_TIME s) (OF_TIME s) (TOF_Time s)
    (imu s) (TAKEOFF_THRUST s) (tof_filter s) (KFXY s) (KFXY_z s) (KFXY_u s)
    (throttle_pd s) (roll_pd s) (pitch_pd s) (init_x s) (init_y s) (prev_altitude_sensor
    s) (altitude_sensor s) (altitude s) v (value_available s) (postition_hold s)
    (init_altitude s) (CMDS s) (prev_time s) (imut s) (oft s) (toft s) (dt s) (velocity
    s) (cancel_gravity_value s) (error_altitude s) (next_throttle s) (outbox s) (trace
    s).
Definition set_value_available (v : bool) (s : State) : State :=
  mkState (TAKEOFF s) (LANDING s) (TAKEOFF_LIST s) (IMU_TIME s) (OF_TIME s) (TOF_Time s)
    (imu s) (TAKEOFF_THRUST s) (tof_filter s) (KFXY s) (KFXY_z s) (KFXY_u s)
    (throttle_pd s) (roll_pd s) (pitch_pd s) (init_x s) (init_y s) (prev_altitude_sensor
    s) (altitude_sensor s) (altitude s) (altitude_corrected s) v (postition_hold s)
    (init_altitude s) (CMDS s) (prev_time s) (imut s) (oft s) (toft s) (dt s) (velocity
    s) (cancel_gravity_value s) (error_altitude s) (next_throttle s) (outbox s) (trace
    s).
Definition set_postition_hold (v : bool) (s : State) : State :=
  mkState (TAKEOFF s) (LANDING s) (TAKEOFF_LIST s) (IMU_TIME s) (OF_TIME s) (TOF_Time s)
    (imu s) (TAKEOFF_THRUST s) (tof_filter s) (KFXY s) (KFXY_z s) (KFXY_u s)
    (throttle_pd s) (roll_pd s) (pitch_pd s) (init_x s) (init_y s) (prev_altitude_sensor
    s) (altitude_sensor s) (altitude s) (altitude_corrected s) (value_available s) v
    (init_altitude s) (CMDS s) (prev_time s) (imut s) (oft s) (toft s) (dt s) (velocity
    s) (cancel_gravity_value s) (error_altitude s) (next_throttle s) (outbox s) (trace
    s).
Definition set_init_altitude (v : option R) (s : State) : State :=
  mkState (TAKEOFF s) (LANDING s) (TAKEOFF_LIST s) (IMU_TIME s) (OF_TIME s) (TOF_Time s)
    (imu s) (TAKEOFF_THRUST s) (tof_filter s) (KFXY s) (KFXY_z s) (KFXY_u s)
    (throttle_pd s) (roll_pd s) (pitch_pd s) (init_x s) (init_y s) (prev_altitude_sensor
    s) (altitude_sensor s) (altitude s) (altitude_corrected s) (value_available s)
    (postition_hold s) v (CMDS s) (prev_time s) (imut s) (oft s) (toft s) (dt s)
    (velocity s) (cancel_gravity_value s) (error_altitude s) (next_throttle s) (outbox
    s) (trace s).
Definition set_CMDS (v : Command) (s : State) : State :=
  mkState (TAKEOFF s) (LANDING s) (TAKEOFF_LIST s) (IMU_TIME s) (OF_TIME s) (TOF_Time s)
    (imu s) (TAKEOFF_THRUST s) (tof_filter s) (KFXY s) (KFXY_z s) (KFXY_u s)
    (throttle_pd s) (roll_pd s) (pitch_pd s) (init_x s) (init_y s) (prev_altitude_sensor
    s) (altitude_sensor s) (altitude s) (altitude_corrected s) (value_available s)
    (postition_hold s) (init_altitude s) v (prev_time s) (imut s) (oft s) (toft s) (dt
    s) (velocity s) (cancel_gravity_value s) (error_altitude s) (next_throttle s)
    (outbox s) (trace s).
Definition set_prev_time (v : R) (s : State) : State :=
  mkState (TAKEOFF s) (LANDING s) (TAKEOFF_LIST s) (IMU_TIME s) (OF_TIME s) (TOF_Time s)
    (imu s) (TAKEOFF_THRUST s) (tof_filter s) (KFXY s) (KFXY_z s) (KFXY_u s)
    (throttle_pd s) (roll_pd s) (pitch_pd s) (init_x s) (init_y s) (prev_altitude_sensor
    s) (altitude_sensor s) (altitude s) (altitude_corrected s) (value_available s)
    (postition_hold s) (init_altitude s) (CMDS s) v (imut s) (oft s) (toft s) (dt s)
    (velocity s) (cancel_gravity_value s) (error_altitude s) (next_throttle s) (outbox
    s) (trace s).
Definition set_imut (v : option R) (s : State) : State :=
  mkState (TAKEOFF s) (LANDING s) (TAKEOFF_LIST s) (IMU_TIME s) (OF_TIME s) (TOF_Time s)
    (imu s) (TAKEOFF_THRUST s) (tof_filter s) (KFXY s) (KFXY_z s) (KFXY_u s)
    (throttle_pd s) (roll_pd s) (pitch_pd s) (init_x s) (init_y s) (prev_altitude_sensor
    s) (altitude_sensor s) (altitude s) (altitude_corrected s) (value_available s)
    (postition_hold s) (init_altitude s) (CMDS s) (prev_time s) v (oft s) (toft s) (dt
    s) (velocity s) (cancel_gravity_value s) (error_altitude s) (next_throttle s)
    (outbox s) (trace s).
Definition set_oft (v : option R) (s : State) : State :=
  mkState (TAKEOFF s) (LANDING s) (TAKEOFF_LIST s) (IMU_TIME s) (OF_TIME s) (TOF_Time s)
    (imu s) (TAKEOFF_THRUST s) (tof_filter s) (KFXY s) (KFXY_z s) (KFXY_u s)
    (throttle_pd s) (roll_pd s) (pitch_pd s) (init_x s) (init_y s) (prev_altitude_sensor
    s) (altitude_sensor s) (altitude s) (altitude_corrected s) (value_available s)
    (postition_hold s) (init_altitude s) (CMDS s) (prev_time s) (imut s) v (toft s) (dt
    s) (velocity s) (cancel_gravity_value s) (error_altitude s) (next_throttle s)
    (outbox s) (trace s).
Definition set_toft (v : option R) (s : State) : State :=
  mkState (TAKEOFF s) (LANDING s) (TAKEOFF_LIST s) (IMU_TIME s) (OF_TIME s) (TOF_Time s)
    (imu s) (TAKEOFF_THRUST s) (tof_filter s) (KFXY s) (KFXY_z s) (KFXY_u s)
    (throttle_pd s) (roll_pd s) (pitch_pd s) (init_x s) (init_y s) (prev_altitude_sensor
    s) (altitude_sensor s) (altitude s) (altitude_corrected s) (value_available s)
    (postition_hold s) (init_altitude s) (CMDS s) (prev_time s) (imut s) (oft s) v (dt
    s) (velocity s) (cancel_gravity_value s) (error_altitude s) (next_throttle s)
    (outbox s) (trace s).
Definition set_dt (v : option R) (s : State) : State :=
  mkState (TAKEOFF s) (LANDING s) (TAKEOFF_LIST s) (IMU_TIME s) (OF_TIME s) (TOF_Time s)
    (imu s) (TAKEOFF_THRUST s) (tof_filter s) (KFXY s) (KFXY_z s) (KFXY_u s)
    (throttle_pd s) (roll_pd s) (pitch_pd s) (init_x s) (init_y s) (prev_altitude_sensor
    s) (altitude_sensor s) (altitude s) (altitude_corrected s) (value_available s)
    (postition_hold s) (init_altitude s) (CMDS s) (prev_time s) (imut s) (oft s) (toft
    s) v (velocity s) (cancel_gravity_value s) (error_altitude s) (next_throttle s)
    (outbox s) (trace s).
Definition set_velocity (v : option R) (s : State) : State :=
  mkState (TAKEOFF s) (LANDING s) (TAKEOFF_LIST s) (IMU_TIME s) (OF_TIME s) (TOF_Time s)
    (imu s) (TAKEOFF_THRUST s) (tof_filter s) (KFXY s) (KFXY_z s) (KFXY_u s)
    (throttle_pd s) (roll_pd s) (pitch_pd s) (init_x s) (init_y s) (prev_altitude_sensor
    s) (altitude_sensor s) (altitude s) (altitude_corrected s) (value_available s)
    (postition_hold s) (init_altitude s) (CMDS s) (prev_time s) (imut s) (oft s) (toft
    s) (dt s) v (cancel_gravity_value s) (error_altitude s) (next_throttle s) (outbox s)
    (trace s).
Definition set_cancel_gravity_value (v : option R) (s : State) : State :=
  mkState (TAKEOFF s) (LANDING s) (TAKEOFF_LIST s) (IMU_TIME s) (OF_TIME s) (TOF_Time s)
    (imu s) (TAKEOFF_THRUST s) (tof_filter s) (KFXY s) (KFXY_z s) (KFXY_u s)
    (throttle_pd s) (roll_pd s) (pitch_pd s) (init_x s) (init_y s) (prev_altitude_sensor
    s) (altitude_sensor s) (altitude s) (altitude_corrected s) (value_available s)
    (postition_hold s) (init_altitude s) (CMDS s) (prev_time s) (imut s) (oft s) (toft
    s) (dt s) (velocity s) v (error_altitude s) (next_throttle s) (outbox s) (trace s).
Definition set_error_altitude (v : option R) (s : State) : State :=
  mkState (TAKEOFF s) (LANDING s) (TAKEOFF_LIST s) (IMU_TIME s) (OF_TIME s) (TOF_Time s)
    (imu s) (TAKEOFF_THRUST s) (tof_filter s) (KFXY s) (KFXY_z s) (KFXY_u s)
    (throttle_pd s) (roll_pd s) (pitch_pd s) (init_x s) (init_y s) (prev_altitude_sensor
    s) (altitude_sensor s) (altitude s) (altitude_corrected s) (value_available s)
    (postition_hold s) (init_altitude s) (CMDS s) (prev_time s) (imut s) (oft s) (toft
    s) (dt s) (velocity s) (cancel_gravity_value s) v (next_throttle s) (outbox s)
    (trace s).
Definition set_next_throttle (v : option R) (s : State) : State :=
  mkState (TAKEOFF s) (LANDING s) (TAKEOFF_LIST s) (IMU_TIME s) (OF_TIME s) (TOF_Time s)
    (imu s) (TAKEOFF_THRUST s) (tof_filter s) (KFXY s) (KFXY_z s) (KFXY_u s)
    (throttle_pd s) (roll_pd s) (pitch_pd s) (init_x s) (init_y s) (prev_altitude_sensor
    s) (altitude_sensor s) (altitude s) (altitude_corrected s) (value_available s)
    (postition_hold s) (init_altitude s) (CMDS s) (prev_time s) (imut s) (oft s) (toft
    s) (dt s) (velocity s) (cancel_gravity_value s) (error_altitude s) v (outbox s)
    (trace s).
Definition set_outbox (v : list Command) (s : State) : State :=
  mkState (TAKEOFF s) (LANDING s) (TAKEOFF_LIST s) (IMU_TIME s) (OF_TIME s) (TOF_Time s)
    (imu s) (TAKEOFF_THRUST s) (tof_filter s) (KFXY s) (KFXY_z s) (KFXY_u s)
    (throttle_pd s) (roll_pd s) (pitch_pd s) (init_x s) (init_y s) (prev_altitude_sensor
    s) (altitude_sensor s) (altitude s) (altitude_corrected s) (value_available s)
    (postition_hold s) (init_altitude s) (CMDS s) (prev_time s) (imut s) (oft s) (toft
    s) (dt s) (velocity s) (cancel_gravity_value s) (error_altitude s) (next_throttle s)
    v (trace s).
Definition set_trace (v : list Event) (s : State) : State :=
  mkState (TAKEOFF s) (LANDING s) (TAKEOFF_LIST s) (IMU_TIME s) (OF_TIME s) (TOF_Time s)
    (imu s) (TAKEOFF_THRUST s) (tof_filter s) (KFXY s) (KFXY_z s) (KFXY_u s)
    (throttle_pd s) (roll_pd s) (pitch_pd s) (init_x s) (init_y s) (prev_altitude_sensor
    s) (altitude_sensor s) (altitude s) (altitude_corrected s) (value_available s)
    (postition_hold s) (init_altitude s) (CMDS s) (prev_time s) (imut s) (oft s) (toft
    s) (dt s) (velocity s) (cancel_gravity_value s) (error_altitude s) (next_throttle s)
    (outbox s) v.

Definition set_throttle (v : R) (s : State) : State :=
  set_CMDS {| throttle := v; roll := roll (CMDS s); pitch := pitch (CMDS s) |} s.
Definition set_roll (v : R) (s : State) : State :=
  set_CMDS {| throttle := throttle (CMDS s); roll := v; pitch := pitch (CMDS s) |} s.
Definition set_pitch (v : R) (s : State) : State :=
  set_CMDS {| throttle := throttle (CMDS s); roll := roll (CMDS s); pitch := v |} s.

(* ------------------------------------------------------------------ *)
(** ** One iteration as a state-and-exception computation

    Assignments made before a raise or a [continue] stay made. *)


Definition M (A : Type) : Type := State -> signal A * State.

Definition ret {A} (a : A) : M A := fun s => (Normal a, s).
Definition bind {A B} (m : M A) (k : A -> M B) : M B :=
  fun s =>
    match m s with
    | (Normal a, s') => k a s'
    | (Raised e, s') => (Raised e, s')
    | (Continued, s') => (Continued, s')
    end.
Definition raise {A} (e : exn) : M A := fun s => (Raised e, s).
Definition continue : M unit := fun s => (Continued, s).
Definition get {A} (f : State -> A) : M A := fun s => (Normal (f s), s).
Definition modify (f : State -> State) : M unit := fun s => (Normal tt, f s).
Definition when (b : bool) (m : M unit) : M unit := if b then m else ret tt.

(** Reading a variable where Python needs its value: an unbound name, or
    [None] in arithmetic, raises [e]. *)
Definition bound {A} (f : State -> option A) (e : exn) : M A :=
  fun s => match f s with
           | Some a => (Normal a, s)
           | None => (Raised e, s)
           end.

Definition emit (ev : Event) : M unit := modify (fun s => set_trace (ev :: trace s) s).

Notation "x <- m ;; k" := (bind m (fun x => k))
  (at level 61, m at next level, right associativity).
Notation "m ;; k" := (bind m (fun _ => k))
  (at level 61, right associativity).

(** [truncate(num/den)] with a numpy numerator: a zero divisor gives an
    infinity or a NaN, on which [int] raises. *)
Definition truncate_quotient (num den : R) : M R :=
  if Reqb den 0
  then (if Reqb num 0 then raise ValueError else raise OverflowError)
  else ret (truncate (num / den)).

(** [cos(roll)*cos(pitch)] of the cached attitude, in radians. *)
Definition tilt (i : Imu) : R := cos (rad (att_roll i)) * cos (rad (att_pitch i)).

(** Lines 142-147: the fresh command and the pacing tokens. *)
Definition reset_commands : M unit :=
  modify (set_throttle (-30)) ;;
  modify (set_roll 0) ;;
  modify (set_pitch 0) ;;
  emit (Token OptflowPipe) ;;
  emit (Token TofPipe).

(** Lines 149-153: the mode signal. *)
Definition read_mode (inp : Inputs) : M unit :=
  match mode_msg inp with
  | Some hold =>
      modify (set_postition_hold hold) ;;
      when (negb hold)
        (modify (set_LANDING true) ;;
         modify (set_init_altitude None))
  | None => ret tt
  end.

(** Lines 156-162: the IMU sample. *)
Definition read_imu (inp : Inputs) : M unit :=
  match imu_msg inp with
  | Some (i, battery_voltage, t) =>
      modify (set_imu i) ;;
      modify (set_IMU_TIME t) ;;
      modify (set_imut (Some (clock_imu inp))) ;;
      takeoff <- get TAKEOFF ;;
      when takeoff
        (modify (set_TAKEOFF_THRUST (Some (takeoff_thrust battery_voltage))))
  | None => ret tt
  end.

(** Lines 165-173: [if postition_hold and altitude_sensor: ... continue]. *)
Definition hold_reset : M unit :=
  hold <- get postition_hold ;;
  sensor <- get altitude_sensor ;;
  when (hold && truthy sensor)
    (modify (set_prev_altitude_sensor sensor) ;;
     modify (set_init_altitude sensor) ;;
     modify (set_postition_hold false) ;;
     a <- bound init_altitude TypeError ;;
     modify (fun s => set_tof_filter (kf_with_x [a; 0] (tof_filter s)) s) ;;
     continue).

(** Lines 178-186: the vertical predict step. *)
Definition vertical_predict : M R :=
  now <- get prev_time ;;
  tof_time <- get TOF_Time ;;
  let dt' := now - tof_time in
  modify (set_dt (Some dt')) ;;
  modify (fun s => set_tof_filter
            (kf_with_F (mset 0 1 (dt_guard dt') (kf_F (tof_filter s))) (tof_filter s)) s) ;;
  modify (fun s => set_tof_filter
            (kf_with_B (mset 0 0 (dt_guard_sq dt') (kf_B (tof_filter s))) (tof_filter s)) s) ;;
  modify (fun s => set_tof_filter
            (kf_with_B (mset 1 0 dt' (kf_B (tof_filter s))) (tof_filter s)) s) ;;
  filter <- get tof_filter ;;
  emit (TofPredict filter) ;;
  modify (set_tof_filter (kf_predict 0 filter)) ;;
  modify (fun s => set_altitude (Some (vget 0 (kf_x (tof_filter s)))) s) ;;
  modify (fun s => set_velocity (Some (vget 1 (kf_x (tof_filter s)))) s) ;;
  ret dt'.

(** Lines 189-198: the takeoff ramp and its end. *)
Definition takeoff_step : M unit :=
  profile <- get TAKEOFF_LIST ;;
  match profile with
  | fraction :: rest =>
      thrust <- bound TAKEOFF_THRUST NameError ;;
      modify (set_throttle (fraction * IZR thrust)) ;;
      modify (set_value_available true) ;;
      modify (set_TAKEOFF_LIST rest) ;;
      modify (fun s => set_cancel_gravity_value (Some (throttle (CMDS s))) s)
  | [] =>
      modify (set_init_altitude (Some TAKEOFF_ALTITUDE)) ;;
      modify (set_velocity (Some 0)) ;;
      modify (set_TAKEOFF false)
  end.

(** Lines 201-209: the throttle PID, its clamp and the hover feed-forward. *)
Definition throttle_control (dt' : R) : M unit :=
  reference <- bound init_altitude TypeError ;;
  estimate <- bound altitude TypeError ;;
  let error := reference - estimate in
  modify (set_error_altitude (Some error)) ;;
  v <- bound velocity TypeError ;;
  controller <- get throttle_pd ;;
  let (out, controller') := pid_calc controller error (Some dt') (- v) in
  modify (set_throttle_pd controller') ;;
  modify (set_next_throttle (Some out)) ;;
  modify (set_throttle (value_limit out ABS_MAX_VALUE_THROTTLE)) ;;
  hover <- bound cancel_gravity_value NameError ;;
  modify (fun s => set_throttle (throttle (CMDS s) + hover / tilt (imu s)) s) ;;
  modify (set_value_available true) ;;
  modify (fun s => set_prev_altitude_sensor (altitude_corrected s) s).

(** Lines 176-209: [if init_altitude: ...]. *)
Definition vertical_control : M unit :=
  reference <- get init_altitude ;;
  when (truthy reference)
    (dt' <- vertical_predict ;;
     takeoff <- get TAKEOFF ;;
     when takeoff takeoff_step ;;
     takeoff' <- get TAKEOFF ;;
     when (negb takeoff') (throttle_control dt')).

(** Lines 212-214: open-loop descent. *)
Definition landing : M unit :=
  takeoff <- get TAKEOFF ;;
  land <- get LANDING ;;
  when (negb takeoff && land)
    (hover <- bound cancel_gravity_value NameError ;;
     modify (set_throttle (hover - 50))).

(** Lines 232-233: tilt compensation and the mounting offset. *)
Definition correct_altitude (raw : R) (i : Imu) : R :=
  raw * cos (rad (att_roll i)) * cos (rad (att_pitch i)).
Definition mount_offset (i : Imu) : R :=
  0.05517 * sin (0.81 - rad (att_roll i)) * cos (rad (att_pitch i)).

(** Lines 217-234: the range sample. *)
Definition read_tof (inp : Inputs) : M unit :=
  match tof_msg inp with
  | Some (raw, t) =>
      reference <- get init_altitude ;;
      if negb (truthy reference)
      then
        modify (set_altitude_sensor (Some raw)) ;;
        modify (set_TOF_Time t)
      else
        modify (set_altitude_sensor (Some raw)) ;;
        modify (set_TOF_Time t) ;;
        modify (set_toft (Some (clock_tof inp))) ;;
        i <- get imu ;;
        let corrected := correct_altitude raw i in
        modify (set_altitude_corrected (Some corrected)) ;;
        let offset := mount_offset i in
        let z0 := truncate (corrected - offset) in
        previous <- bound prev_altitude_sensor TypeError ;;
        dt' <- bound dt NameError ;;
        z1 <- truncate_quotient ((corrected - offset) - previous) dt' ;;
        filter <- get tof_filter ;;
        emit (TofUpdate filter [z0; z1]) ;;
        match kf_update [z0; z1] filter with
        | Some filter' => modify (set_tof_filter filter')
        | None => raise LinAlgError
        end
  | None => ret tt
  end.

(** Lines 276-285: the diagnostic prints, which read variables that may
    still be unbound and divide by [dt]. *)
Definition debug_prints : M unit :=
  _ <- bound error_altitude NameError ;;
  _ <- bound altitude TypeError ;;
  _ <- bound next_throttle NameError ;;
  _ <- bound velocity TypeError ;;
  i <- get imu ;;
  estimate <- bound altitude TypeError ;;
  dt' <- bound dt NameError ;;
  _ <- truncate_quotient (rad (att_roll i) * estimate) dt' ;;
  _ <- truncate_quotient (rad (att_pitch i) * estimate) dt' ;;
  _ <- bound oft NameError ;;
  _ <- bound imut NameError ;;
  _ <- bound toft NameError ;;
  ret tt.

(** Lines 240-251: the horizontal filter's matrices for this tick. *)
Definition horizontal_matrices (dt_OF dt_IMU v : R) (k : KalmanFilter) : KalmanFilter :=
  let k := kf_with_R (mset 0 0 (0.01 + v / 100) (kf_R k)) k in
  let k := kf_with_R (mset 1 1 (0.01 + v / 100) (kf_R k)) k in
  let k := kf_with_F (mset 0 2 (dt_guard dt_OF) (kf_F k)) k in
  let k := kf_with_F (mset 1 3 (dt_guard dt_OF) (kf_F k)) k in
  let k := kf_with_B (mset 2 2 (dt_guard dt_IMU) (kf_B k)) k in
  kf_with_B (mset 3 3 (dt_guard dt_IMU) (kf_B k)) k.

(** Line 257: [KFXY_z*(-altitude)]. *)
Definition flow_measurement (z : vec) (estimate : R) : vec :=
  map (fun c => c * (- estimate)) z.

(** Lines 252-257: the flow sample. *)
Definition read_flow (inp : Inputs) : M unit :=
  match flow_msg inp with
  | Some (dx, dy, t) =>
      modify (set_KFXY_z [dx; dy]) ;;
      modify (set_OF_TIME t) ;;
      modify (set_oft (Some (clock_of inp))) ;;
      buffer <- get KFXY_z ;;
      estimate <- bound altitude TypeError ;;
      filter <- get KFXY ;;
      emit (XYUpdate filter (flow_measurement buffer estimate)) ;;
      match kf_update (flow_measurement buffer estimate) filter with
      | Some filter' => modify (set_KFXY filter')
      | None => raise LinAlgError
      end
  | None => ret tt
  end.

(** Lines 262-270: the roll and pitch controllers and their clamps. *)
Definition attitude_control : M unit :=
  filter <- get KFXY ;;
  x0 <- get init_x ;;
  y0 <- get init_y ;;
  let error_roll := truncate (y0 - vget 1 (kf_x filter)) / 8 in
  let error_pitch := truncate (x0 - vget 0 (kf_x filter)) / 9 in
  let velocity_roll := truncate (vget 3 (kf_x filter)) in
  let velocity_pitch := truncate (vget 2 (kf_x filter)) in
  controller_r <- get roll_pd ;;
  let (next_roll, controller_r') := pid_calc controller_r error_roll None (- velocity_roll) in
  modify (set_roll_pd controller_r') ;;
  controller_p <- get pitch_pd ;;
  let (next_pitch, controller_p') := pid_calc controller_p error_pitch None (- velocity_pitch) in
  modify (set_pitch_pd controller_p') ;;
  modify (set_roll (clamp_inline next_roll ABS_MAX_VALUE_ROLL)) ;;
  modify (set_pitch (clamp_inline next_pitch ABS_MAX_VALUE_PITCH)) ;;
  modify (set_value_available true).

(** Lines 238-285: [if (not self.TAKEOFF): ...]. *)
Definition horizontal_control (inp : Inputs) : M unit :=
  takeoff <- get TAKEOFF ;;
  when (negb takeoff)
    (now <- get prev_time ;;
     of_time <- get OF_TIME ;;
     imu_time <- get IMU_TIME ;;
     let dt_OF := now - of_time in
     let dt_IMU := now - imu_time in
     v <- bound velocity NameError ;;
     modify (fun s => set_KFXY (horizontal_matrices dt_OF dt_IMU v (KFXY s)) s) ;;
     i <- get imu ;;
     modify (fun s => set_KFXY_u
               (list_set 2 (truncate (9.81 * accX i * cos (att_pitch i))) (KFXY_u s)) s) ;;
     modify (fun s => set_KFXY_u
               (list_set 3 (truncate (9.81 * accY i * cos (att_roll i))) (KFXY_u s)) s) ;;
     read_flow inp ;;
     filter <- get KFXY ;;
     emit (XYPredict filter) ;;
     modify (set_KFXY (kf_predict 0 filter)) ;;
     attitude_control ;;
     debug_prints).

(** [ext_control_pipe_read.poll()]: an unconsumed command is waiting. *)
Definition poll (box : list Command) : bool :=
  match box with [] => false | _ :: _ => true end.

(** Lines 287-289: publish under backpressure. *)
Definition publish : M unit :=
  available <- get value_available ;;
  box <- get outbox ;;
  when (available && negb (poll box))
    (modify (fun s => set_outbox (outbox s ++ [CMDS s]) s) ;;
     emit_cmd <- get CMDS ;;
     emit (Publish emit_cmd) ;;
     modify (set_value_available false)).

(** Lines 290-291: [time.sleep(self.PERIOD); prev_time = time.time()]. *)
Definition end_of_tick (inp : Inputs) : M unit :=
  modify (set_prev_time (clock_end inp)).

(** Lines 142-285: everything up to the send. *)
Definition compute_commands (inp : Inputs) : M unit :=
  reset_commands ;;
  read_mode inp ;;
  read_imu inp ;;
  hold_reset ;;
  vertical_control ;;
  landing ;;
  read_tof inp ;;
  horizontal_control inp.

(** The body of the [try] block. *)
Definition loop_body (inp : Inputs) : M unit :=
  compute_commands inp ;;
  publish ;;
  end_of_tick inp.

(** One iteration of [while True]: whatever the body's outcome, the loop
    goes on from the state it left. *)
Definition tick (s : State) (inp : Inputs) : State := snd (loop_body inp s).
Definition tick_outcome (s : State) (inp : Inputs) : signal unit := fst (loop_body inp s).

(** Successive iterations. *)
Definition run (s : State) (inps : list Inputs) : State := fold_left tick inps s.

(** The consumer takes the waiting command off the outbound pipe. *)
Definition consume (s : State) : State := set_outbox (tl (outbox s)) s.

(** Lines 116-139 with a takeoff profile of [n] fractions ([n = 20] in the
    source) and [t0] the first [time.time()]. *)
Definition init_state (n : nat) (t0 : R) : State :=
  {| TAKEOFF := true;
     LANDING := false;
     TAKEOFF_LIST := takeoff_list n;
     IMU_TIME := 0;
     OF_TIME := 0;
     TOF_Time := 0;
     imu := imu_init;
     TAKEOFF_THRUST := None;
     tof_filter := tof_filter_init;
     KFXY := KFXY_init;
     KFXY_z := KFXY_z_init;
     KFXY_u := KFXY_u_init;
     throttle_pd := pid_new PZ_GAIN IZ_GAIN DZ_GAIN;
     roll_pd := pid_new PY_GAIN IY_GAIN DY_GAIN;
     pitch_pd := pid_new PX_GAIN IX_GAIN DX_GAIN;
     init_x := 0;
     init_y := 0;
     prev_altitude_sensor := None;
     altitude_sensor := None;
     altitude := None;
     altitude_corrected := None;
     value_available := false;
     postition_hold := false;
     init_altitude := Some 0;
     CMDS := {| throttle := 0; roll := 0; pitch := 0 |};
     prev_time := t0;
     imut := None;
     oft := None;
     toft := None;
     dt := None;
     velocity := None;
     cancel_gravity_value := None;
     error_altitude := None;
     next_throttle := None;
     outbox := [];
     trace := [] |}.

(** States the loop can be in: the initial one, then ticks interleaved with
    the consumer's reads. *)
Inductive reachable (n : nat) (t0 : R) : State -> Prop :=
| reach_init : reachable n t0 (init_state n t0)
| reach_tick s inp : reachable n t0 s -> reachable n t0 (tick s inp)
| reach_consume s : reachable n t0 s -> reachable n t0 (consume s).

(* ------------------------------------------------------------------ *)
(** ** Specifications of computations *)

(** [preserves I m]: whatever its outcome, [m] keeps [I]. *)
Definition preserves {A} (I : State -> Prop) (m : M A) : Prop :=
  forall s, I s -> I (snd (m s)).

(** [transforms P m Q]: from a state in [P], [m] ends in [Q] whatever its
    outcome. *)
Definition transforms {A} (P : State -> Prop) (m : M A) (Q : State -> Prop) : Prop :=
  forall s, P s -> Q (snd (m s)).

(** [completes P m Q]: from a state in [P], [m] completes and ends in
    [Q]. *)
Definition completes {A} (P : State -> Prop) (m : M A) (Q : State -> Prop) : Prop :=
  forall s, P s -> exists a s', m s = (Normal a, s') /\ Q s'.

(** [ensures P m Q]: from a state in [P], [m] ends in [Q] when it
    completes (no raise, no [continue]). *)
Definition ensures {A} (P : State -> Prop) (m : M A) (Q : State -> Prop) : Prop :=
  forall s, P s ->
    match m s with
    | (Normal _, s') => Q s'
    | _ => True
    end.

(** Two states that differ at most in one variable (read by [rd], assigned
    by [wr]), and there only between falsy values. *)
Definition alike (rd : State -> option R) (wr : option R -> State -> State)
    (s1 s2 : State) : Prop :=
  wr None s1 = wr None s2 /\
  truthy (rd s1) = truthy (rd s2) /\
  (truthy (rd s1) = true -> rd s1 = rd s2).

(** [m] does not read the variable: from [s] with another value there it
    does the same and either leaves that value or overwrites it. *)
Definition keeps {A} (wr : option R -> State -> State) (m : M A) (s : State) : Prop :=
  forall v, m (wr v s) = (fst (m s), wr v (snd (m s))).
Definition overwrites {A} (wr : option R -> State -> State) (m : M A) (s : State) : Prop :=
  forall v, m (wr v s) = m s.
Definition oblivious {A} (wr : option R -> State -> State) (m : M A) : Prop :=
  forall s, keeps wr m s \/ overwrites wr m s.

(** [m] cannot tell alike states apart. *)
Definition respects {A} (rd : State -> option R) (wr : option R -> State -> State)
    (m : M A) : Prop :=
  forall s1 s2, alike rd wr s1 s2 ->
    fst (m s1) = fst (m s2) /\ alike rd wr (snd (m s1)) (snd (m s2)).

(** What a tick may do to the outbound pipe holding [b]: nothing, or, when
    it is empty, put one command there. *)
Definition sent_at_most_one (b : list Command) (s' : State) : Prop :=
  outbox s' = b \/ (b = [] /\ exists c, outbox s' = [c]).

(** [postition_hold] as the hold-reset test reads it: the mode signal of
    this tick if one is waiting, else the flag as it was left. *)
Definition hold_flag (s : State) (inp : Inputs) : bool :=
  match mode_msg inp with
  | Some hold => hold
  | None => postition_hold s
  end.

(** The flight phase the flags encode. *)
Inductive FlightPhase := PhaseTakeoff | PhaseHold | PhaseLanding.
Definition flight_phase (s : State) : FlightPhase :=
  if TAKEOFF s then PhaseTakeoff
  else if LANDING s then PhaseLanding
  else PhaseHold.

(** The tick from [s] on [inp] publishes [c]. *)
Definition publishes (s : State) (inp : Inputs) (c : Command) : Prop :=
  outbox (tick s inp) = outbox s ++ [c].

(** The throttle [CMDS] holds at the end of each of successive ticks. *)
Fixpoint commanded (s : State) (inps : list Inputs) : list R :=
  match inps with
  | [] => []
  | inp :: rest => throttle (CMDS (tick s inp)) :: commanded (tick s inp) rest
  end.

(** A tick without interruption: no mode signal, and any IMU sample
    reports the battery at [voltage]. *)
Definition uninterrupted (voltage : R) (inp : Inputs) : Prop :=
  mode_msg inp = None /\
  (forall i v t, imu_msg inp = Some (i, v, t) -> v = voltage).

(** The takeoff ramp is under way: references latched, no hold signal
    pending, no landing requested, thrust constant computed from
    [voltage]. *)
Definition ramp_ready (voltage : R) (s : State) : Prop :=
  TAKEOFF s = true /\ LANDING s = false /\
  truthy (init_altitude s) = true /\ postition_hold s = false /\
  TAKEOFF_THRUST s = Some (takeoff_thrust voltage).

Definition ramp_at (voltage : R) (profile : list R) (s : State) : Prop :=
  ramp_ready voltage s /\ TAKEOFF_LIST s = profile.

Definition ramp_stepped (voltage fraction : R) (rest : list R) (s : State) : Prop :=
  ramp_at voltage rest s /\
  throttle (CMDS s) = fraction * IZR (takeoff_thrust voltage) /\
  cancel_gravity_value s = Some (fraction * IZR (takeoff_thrust voltage)).

(** Takeoff is over and the hold references are set. *)
Definition hold_entered (s : State) : Prop :=
  TAKEOFF s = false /\ LANDING s = false /\
  init_altitude s = Some TAKEOFF_ALTITUDE /\ velocity s = Some 0.

(** The limits of [control.__init__] on a command's fields. *)
Definition attitude_within_limits (c : Command) : Prop :=
  Rabs (roll c) <= ABS_MAX_VALUE_ROLL /\ Rabs (pitch c) <= ABS_MAX_VALUE_PITCH.
Definition within_limits (c : Command) : Prop :=
  Rabs (throttle c) <= ABS_MAX_VALUE_THROTTLE /\ attitude_within_limits c.

(** The throttle of [CMDS] in each flight phase; [L0] is the takeoff profile
    and [controller] the throttle PID at the start of the tick.  In hold the
    throttle is the output of [controller] on the altitude error, clamped,
    plus the hover feed-forward. *)
Definition ramp_throttle (L0 : list R) (s : State) : Prop :=
  exists fraction rest thrust,
    L0 = fraction :: rest /\ TAKEOFF_THRUST s = Some thrust /\
    throttle (CMDS s) = fraction * IZR thrust.
Definition hold_throttle (controller : pid_state) (s : State) : Prop :=
  exists reference estimate dt' v hover,
    init_altitude s = Some reference /\ altitude s = Some estimate /\
    dt s = Some dt' /\ velocity s = Some v /\
    cancel_gravity_value s = Some hover /\
    next_throttle s
      = Some (fst (pid_calc controller (reference - estimate) (Some dt') (- v))) /\
    throttle (CMDS s)
      = value_limit (fst (pid_calc controller (reference - estimate) (Some dt') (- v)))
          ABS_MAX_VALUE_THROTTLE
        + hover / tilt (imu s) /\
    Rabs (throttle (CMDS s) - hover / tilt (imu s)) <= ABS_MAX_VALUE_THROTTLE.
Definition landing_throttle (s : State) : Prop :=
  exists hover,
    cancel_gravity_value s = Some hover /\ throttle (CMDS s) = hover - 50.
Definition vertical_shape (L0 : list R) (controller : pid_state) (s : State) : Prop :=
  (TAKEOFF s = true -> truthy (init_altitude s) = true -> ramp_throttle L0 s) /\
  (TAKEOFF s = false -> truthy (init_altitude s) = true -> hold_throttle controller s) /\
  (truthy (init_altitude s) = false -> throttle (CMDS s) = -30).
Definition throttle_shape (L0 : list R) (controller : pid_state) (s : State) : Prop :=
  if negb (TAKEOFF s) && LANDING s then landing_throttle s
  else vertical_shape L0 controller s.
Definition command_shape (L0 : list R) (controller : pid_state) (s : State) : Prop :=
  attitude_within_limits (CMDS s) /\ throttle_shape L0 controller s.
Definition command_reset (L0 : list R) (controller : pid_state) (s : State) : Prop :=
  throttle (CMDS s) = -30 /\ attitude_within_limits (CMDS s) /\ TAKEOFF_LIST s = L0 /\
  throttle_pd s = controller.

(** The attitude the tick's later phases read: this tick's IMU sample if
    one is waiting, else the cached one. *)
Definition attitude_read (s : State) (inp : Inputs) : Imu :=
  match imu_msg inp with
  | Some (i, _, _) => i
  | None => imu s
  end.

(** The tick walks the takeoff ramp: [TAKEOFF] with fractions left. *)
Definition ramping (s : State) : bool :=
  TAKEOFF s && match TAKEOFF_LIST s with [] => false | _ :: _ => true end.

(** What [prev_altitude_sensor] holds when the range sample of this tick is
    processed: on the ramp what it held before, otherwise
    [altitude_corrected] as the previous sample left it (line 209). *)
Definition previous_altitude (s : State) : option R :=
  if ramping s then prev_altitude_sensor s else altitude_corrected s.

Definition is_bound {A} (o : option A) : bool :=
  match o with Some _ => true | None => false end.

(** The names the vertical control reads are bound: on the ramp the thrust
    constant (already, or from this tick's IMU sample), otherwise the hover
    throttle. *)
Definition vertical_ready (s : State) (inp : Inputs) : bool :=
  if ramping s
  then is_bound (TAKEOFF_THRUST s) || is_bound (imu_msg inp)
  else is_bound (cancel_gravity_value s).

(** Line 234: the measurement built from the reading [raw], the attitude
    [i], the previous altitude and [dt]. *)
Definition range_measurement (raw : R) (i : Imu) (previous dt' : R) : vec :=
  [truncate (correct_altitude raw i - mount_offset i);
   truncate ((correct_altitude raw i - mount_offset i - previous) / dt')].

(** Since the trace was [T], [tof_filter.update] has been called with [z];
    [altitude_corrected] holds [c] and [prev_altitude_sensor] holds [p]. *)
Definition range_updated (T : list Event) (z : vec) (c p : R) (s' : State) : Prop :=
  (exists k pre post, trace s' = post ++ TofUpdate k z :: pre ++ T) /\
  altitude_corrected s' = Some c /\
  prev_altitude_sensor s' = Some p.

(** Holding position with no flow sample received yet. *)
Definition hovering (r h : R) (s : State) : Prop :=
  TAKEOFF s = false /\ LANDING s = false /\ postition_hold s = false /\
  init_altitude s = Some r /\ cancel_gravity_value s = Some h /\ oft s = None.

(** A tick with nothing waiting on any inbound pipe. *)
Definition silent (inp : Inputs) : Prop :=
  mode_msg inp = None /\ imu_msg inp = None /\ tof_msg inp = None /\ flow_msg inp = None.

(** No hold signal pending, no landing requested, no flow sample received
    yet, the hover throttle bound; the attitude, the last range timestamp and
    the loop's clock as given. *)
Definition settled (i : Imu) (tof_time now : R) (s : State) : Prop :=
  postition_hold s = false /\ LANDING s = false /\ oft s = None /\
  imu s = i /\ TOF_Time s = tof_time /\ prev_time s = now /\
  is_bound (cancel_gravity_value s) = true.

(* ------------------------------------------------------------------ *)
(** ** Predicates for the properties of the whole loop *)

(** A pacing token on one of the sensor pipes. *)
Definition is_token (e : Event) : bool :=
  match e with
  | Token _ => true
  | _ => false
  end.

(** Since the trace was [T] the tick has sent its two pacing tokens, and no
    other. *)
Definition tokens_sent (T : list Event) (s' : State) : Prop :=
  exists post,
    trace s' = post ++ Token TofPipe :: Token OptflowPipe :: T /\
    Forall (fun e => is_token e = false) post.

(** The horizontal estimator, its buffers and controllers and the flow
    timestamps are as given, and the attitude command is zero. *)
Definition horizontal_idle (k : KalmanFilter) (z u : vec) (r p : pid_state)
    (of_time : R) (o : option R) (s : State) : Prop :=
  KFXY s = k /\ KFXY_z s = z /\ KFXY_u s = u /\ roll_pd s = r /\ pitch_pd s = p /\
  OF_TIME s = of_time /\ oft s = o /\ roll (CMDS s) = 0 /\ pitch (CMDS s) = 0.

(** The command every iteration starts from (lines 142-144). *)
Definition default_command : Command := {| throttle := -30; roll := 0; pitch := 0 |}.

(** The range reading held after a tick that reads the range pipe without
    raising. *)
Definition reading_after (s : State) (inp : Inputs) : option R :=
  match tof_msg inp with
  | Some (raw, _) => Some raw
  | None => altitude_sensor s
  end.

(** What a tick sends when it reaches line 287 with the command [c]. *)
Definition outbox_after (s : State) (c : Command) : list Command :=
  if value_available s && negb (poll (outbox s)) then outbox s ++ [c] else outbox s.

(** The throttle a tick that receives the landing request ends with. *)
Definition landing_request_throttle (s : State) : R :=
  if TAKEOFF s then -30
  else match cancel_gravity_value s with
       | Some hover => hover - 50
       | None => -30
       end.

(** After a landing request: the flags, the reference, the vertical filter,
    the profile and the throttle as given. *)
Definition landing_requested (k : KalmanFilter) (x : R) (takeoff : bool)
    (profile : list R) (s : State) : Prop :=
  LANDING s = true /\ init_altitude s = None /\ postition_hold s = false /\
  tof_filter s = k /\ throttle (CMDS s) = x /\
  TAKEOFF s = takeoff /\ TAKEOFF_LIST s = profile.

(** A tick under way with no reference altitude during takeoff: the command
    is the default one, the filters, the profile, the outbound pipe and the
    flags as given. *)
Definition idle_at (k kxy : KalmanFilter) (profile : list R) (box : list Command)
    (avail hold : bool) (reading : option R) (s : State) : Prop :=
  TAKEOFF s = true /\ truthy (init_altitude s) = false /\ CMDS s = default_command /\
  tof_filter s = k /\ KFXY s = kxy /\ TAKEOFF_LIST s = profile /\
  outbox s = box /\ value_available s = avail /\
  postition_hold s = hold /\ altitude_sensor s = reading.

(** What holds of the loop's variables at every iteration boundary of a
    flight whose profile has [n] fractions. *)
Definition well_formed (n : nat) (s : State) : Prop :=
  init_x s = 0 /\ init_y s = 0 /\
  (exists k, TAKEOFF_LIST s = skipn k (takeoff_list n)) /\
  (TAKEOFF s = false ->
   TAKEOFF_LIST s = [] /\ is_bound (altitude s) = true /\
   is_bound (velocity s) = true /\ is_bound (dt s) = true) /\
  ((length (TAKEOFF_LIST s) < n)%nat ->
   is_bound (cancel_gravity_value s) = true /\ is_bound (TAKEOFF_THRUST s) = true).

(** The vertical estimate of this tick is bound. *)
Definition predicted (s : State) : Prop :=
  is_bound (altitude s) = true /\ is_bound (velocity s) = true /\ is_bound (dt s) = true.

(** The profile is exhausted and the hover throttle is [hover]. *)
Definition hover_fixed (hover : R) (s : State) : Prop :=
  TAKEOFF_LIST s = [] /\ cancel_gravity_value s = Some hover.

(** What of an IMU sample the commands depend on: roll and pitch. *)
Definition attitude_only (i : Imu) : Imu :=
  {| accX := 0; accY := 0; accZ := 0; gyroX := 0; gyroY := 0; gyroZ := 0;
     att_roll := att_roll i; att_pitch := att_pitch i; att_yaw := 0 |}.

(** A state with the accelerometer, gyro and yaw readings and the control
    input buffer [KFXY_u] blanked. *)
Definition without_inertial (s : State) : State :=
  set_KFXY_u [] (set_imu (attitude_only (imu s)) s).

Definition inputs_without_inertial (inp : Inputs) : Inputs :=
  {| mode_msg := mode_msg inp;
     imu_msg := match imu_msg inp with
                | Some (i, voltage, t) => Some (attitude_only i, voltage, t)
                | None => None
                end;
     tof_msg := tof_msg inp;
     flow_msg := flow_msg inp;
     clock_imu := clock_imu inp;
     clock_tof := clock_tof inp;
     clock_of := clock_of inp;
     clock_end := clock_end inp |}.

(** Two outcomes that agree up to [RA] on the value. *)
Definition same_signal {A} (RA : A -> A -> Prop) (r1 r2 : signal A) : Prop :=
  match r1, r2 with
  | Normal a1, Normal a2 => RA a1 a2
  | Raised e1, Raised e2 => e1 = e2
  | Continued, Continued => True
  | _, _ => False
  end.

(** From states that agree up to the inertial readings, [m1] and [m2] end
    alike, in states that agree up to the inertial readings. *)
Definition sim {A} (RA : A -> A -> Prop) (m1 m2 : M A) : Prop :=
  forall s1 s2, without_inertial s1 = without_inertial s2 ->
    same_signal RA (fst (m1 s1)) (fst (m2 s2)) /\
    without_inertial (snd (m1 s1)) = without_inertial (snd (m2 s2)).

End Model.

Arguments kf_predict : simpl never.
Arguments kf_update : simpl never.
Arguments truncate : simpl never.
Arguments value_limit : simpl never.
Arguments clamp_inline : simpl never.
Arguments dt_guard : simpl never.
Arguments dt_guard_sq : simpl never.
Arguments horizontal_matrices : simpl never.
Arguments flow_measurement : simpl never.
Arguments takeoff_thrust : simpl never.
Arguments takeoff_fraction : simpl never.
Arguments mset : simpl never.

(* ------------------------------------------------------------------ *)
(** ** A flight from start-up, with the spec's PID

    The first iteration finds the hold signal, an IMU sample (level
    attitude, battery at [voltage]) and a range sample of 0.11 m; the second
    latches the references ([continue]); the following ones walk the
    takeoff ramp, the consumer reading each command before the next tick. *)

Definition quiet (t : R) : Inputs :=
  {| mode_msg := None; imu_msg := None; tof_msg := None; flow_msg := None;
     clock_imu := t; clock_tof := t; clock_of := t; clock_end := t |}.

Definition arm (voltage : R) : Inputs :=
  {| mode_msg := Some true;
     imu_msg := Some (imu_init, voltage, 0.5);
     tof_msg := Some (0.11, 0.5);
     flow_msg := None;
     clock_imu := 0.5; clock_tof := 0.5; clock_of := 0.5; clock_end := 1 |}.

Definition s_start : State := init_state (pid := spec_pid) TAKEOFF_LIST_LEN 0.
Definition s_armed (voltage : R) : State := tick s_start (arm voltage).
Definition s_latched (voltage : R) : State := tick (s_armed voltage) (quiet 1).
Definition s_ramp1 (voltage : R) : State := tick (s_latched voltage) (quiet 1.01).
Definition s_ramp2 (voltage : R) : State := tick (consume (s_ramp1 voltage)) (quiet 1.02).

(** A hold state whose horizontal estimate has drifted to (0.4, -0.2), and
    the hold signal arriving there. *)
Definition s_drifted : State :=
  set_KFXY (kf_with_x [0.4; -0.2; 0; 0] KFXY_init)
    (set_TAKEOFF false (set_TAKEOFF_LIST [] (s_latched 10))).

Definition hold_signal (t : R) : Inputs :=
  {| mode_msg := Some true; imu_msg := None; tof_msg := None; flow_msg := None;
     clock_imu := t; clock_tof := t; clock_of := t; clock_end := t |}.

(** The same start-up with the range sample stamped 4.001 s while the loop's
    clock reads 1 s, so that [dt = prev_time - TOF_Time = -3.001]; and the
    flight's latched state after an iteration that ends at 3.501 s, so that
    the next [dt] is [3.501 - 0.5 = 3.001]. *)
Definition arm_ahead : Inputs :=
  {| mode_msg := Some true;
     imu_msg := Some (imu_init, 10, 0.5);
     tof_msg := Some (0.11, 4.001);
     flow_msg := None;
     clock_imu := 0.5; clock_tof := 0.5; clock_of := 0.5; clock_end := 1 |}.
Definition s_ahead : State := tick (tick s_start arm_ahead) (quiet 1).
Definition s_stale : State := tick (s_latched 10) (quiet 3.501).

(** The hold state with vertical velocity [v] and altitude estimate [alt],
    and a flow sample [(dx, dy)] arriving there. *)
Definition s_hold_flow (v alt : R) : State :=
  set_altitude (Some alt) (set_velocity (Some v) s_drifted).

Definition flow_sample (dx dy : R) : Inputs :=
  {| mode_msg := None; imu_msg := None; tof_msg := None; flow_msg := Some (dx, dy, 1);
     clock_imu := 1; clock_tof := 1; clock_of := 1; clock_end := 1.01 |}.

(** A range sample [raw] stamped [t] arriving with the loop's clocks at
    [clock]. *)
Definition range_sample (raw t clock : R) : Inputs :=
  {| mode_msg := None; imu_msg := None; tof_msg := Some (raw, t); flow_msg := None;
     clock_imu := clock; clock_tof := clock; clock_of := clock; clock_end := clock |}.

(** Twenty further iterations with nothing on the pipes. *)
Definition ramp_inputs : list Inputs := repeat (quiet 1.5) TAKEOFF_LIST_LEN.

(** The flight after the ramp, after the tick that enters hold, and after
    each of two range samples of 1 m received in hold. *)
Definition s_climbed : State := run (s_latched 10) ramp_inputs.
Definition s_hold : State := tick s_climbed (quiet 1.5).
Definition s_hold1 : State := tick s_hold (range_sample 1 0.9 1.6).
Definition s_hold2 : State := tick s_hold1 (range_sample 1 1 1.7).

(** The start-up signal and a range sample with no IMU sample along, and
    the flight latched from them: the thrust constant is still unbound. *)
Definition arm_blind : Inputs :=
  {| mode_msg := Some true;
     imu_msg := None;
     tof_msg := Some (0.11, 0.5);
     flow_msg := None;
     clock_imu := 0.5; clock_tof := 0.5; clock_of := 0.5; clock_end := 1 |}.
Definition s_blind : State := tick (tick s_start arm_blind) (quiet 1).

(** The landing request. *)
Definition land_signal (t : R) : Inputs :=
  {| mode_msg := Some false; imu_msg := None; tof_msg := None; flow_msg := None;
     clock_imu := t; clock_tof := t; clock_of := t; clock_end := t |}.

(** The flight's ramp with a range sample in its last tick: nineteen ramp
    ticks with nothing on the pipes, a twentieth that finds a range sample
    of 0.5 m stamped 0.9 s, then the consumer's read. *)
Definition s_ramp19 : State := run (s_latched 10) (repeat (quiet 1.5) 19).
Definition s_ranged : State := consume (tick s_ramp19 (range_sample 0.5 0.9 1.5)).

(** Two IMU samples with the same level attitude: the vehicle at rest, and
    shaken and pointing elsewhere. *)
Definition imu_still : Imu :=
  {| accX := 0; accY := 0; accZ := 9.81; gyroX := 0; gyroY := 0; gyroZ := 0;
     att_roll := 0; att_pitch := 0; att_yaw := 0 |}.
Definition imu_shaken : Imu :=
  {| accX := -1; accY := 2; accZ := 9.7; gyroX := 1; gyroY := -2; gyroZ := 3;
     att_roll := 0; att_pitch := 0; att_yaw := 45 |}.

(** What the tick that ends the takeoff finds: the IMU sample [i] and a
    flow sample. *)
Definition hold_sample (i : Imu) : Inputs :=
  {| mode_msg := None;
     imu_msg := Some (i, 10, 1.4);
     tof_msg := None;
     flow_msg := Some (0.1, 0.2, 1.4);
     clock_imu := 1.6; clock_tof := 1.6; clock_of := 1.6; clock_end := 1.61 |}.

Arguments tick : simpl never.
Arguments s_armed : simpl never.
Arguments s_latched : simpl never.
Arguments s_ramp1 : simpl never.
Arguments s_ramp2 : simpl never.
Arguments s_drifted : simpl never.
Arguments s_hold_flow : simpl never.
Arguments s_climbed : simpl never.
Arguments s_hold : simpl never.
Arguments s_hold1 : simpl never.
Arguments s_hold2 : simpl never.
Arguments s_ahead : simpl never.
Arguments s_stale : simpl never.
Arguments s_blind : simpl never.
Arguments s_ramp19 : simpl never.
Arguments s_ranged : simpl never.

(* ------------------------------------------------------------------ *)
(** * Properties *)

(** ** Numbers *)

Lemma Rltb_true x y : x < y -> Rltb x y = true.
Proof. intros H. unfold Rltb. destruct (Rlt_dec x y); [reflexivity | contradiction]. Qed.
Lemma Rltb_false x y : ~ x < y -> Rltb x y = false.
Proof. intros H. unfold Rltb. destruct (Rlt_dec x y); [contradiction | reflexivity]. Qed.
Lemma Rleb_true x y : x <= y -> Rleb x y = true.
Proof. intros H. unfold Rleb. destruct (Rle_dec x y); [reflexivity | contradiction]. Qed.
Lemma Rleb_false x y : ~ x <= y -> Rleb x y = false.
Proof. intros H. unfold Rleb. destruct (Rle_dec x y); [contradiction | reflexivity]. Qed.
Lemma Reqb_true x y : x = y -> Reqb x y = true.
Proof. intros H. unfold Reqb. destruct (Req_dec_T x y); [reflexivity | contradiction]. Qed.
Lemma Reqb_false x y : x <> y -> Reqb x y = false.
Proof. intros H. unfold Reqb. destruct (Req_dec_T x y); [contradiction | reflexivity]. Qed.

Lemma Reqb_true_inv x y : Reqb x y = true -> x = y.
Proof. unfold Reqb. destruct (Req_dec_T x y); [auto | discriminate]. Qed.
Lemma Reqb_false_inv x y : Reqb x y = false -> x <> y.
Proof. unfold Reqb. destruct (Req_dec_T x y); [discriminate | auto]. Qed.

Lemma Int_part_IZR z : Int_part (IZR z) = z.
Proof. symmetry. apply Int_part_spec. lra. Qed.

Lemma py_int_IZR z : py_int (IZR z) = z.
Proof.
  unfold py_int. destruct (Rle_dec 0 (IZR z)).
  - apply Int_part_IZR.
  - rewrite <- opp_IZR, Int_part_IZR. lia.
Qed.

(** [int] rounds toward zero. *)
Lemma py_int_nonneg x : 0 <= x -> IZR (py_int x) <= x < IZR (py_int x) + 1.
Proof.
  intros H. unfold py_int. destruct (Rle_dec 0 x); [| contradiction].
  destruct (base_Int_part x). lra.
Qed.

Lemma py_int_neg x : x < 0 -> x <= IZR (py_int x) < x + 1.
Proof.
  intros H. unfold py_int. destruct (Rle_dec 0 x); [lra |].
  rewrite opp_IZR. destruct (base_Int_part (- x)). lra.
Qed.

Lemma py_int_spec_nonneg x k : IZR k <= x < IZR k + 1 -> 0 <= x -> py_int x = k.
Proof.
  intros H H0. unfold py_int. destruct (Rle_dec 0 x); [| contradiction].
  symmetry. apply Int_part_spec. lra.
Qed.


Lemma truncate_eq x : truncate x = IZR (py_int (x * 100)) / 100.
Proof. reflexivity. Qed.

Lemma truncate_idempotent x : truncate (truncate x) = truncate x.
Proof.
  rewrite !truncate_eq.
  replace (IZR (py_int (x * 100)) / 100 * 100) with (IZR (py_int (x * 100))) by lra.
  rewrite py_int_IZR. reflexivity.
Qed.

Lemma py_int_sign_nonneg x : 0 <= x -> 0 <= IZR (py_int x).
Proof.
  intros H. destruct (py_int_nonneg x H) as [_ H2].
  destruct (Z_le_gt_dec 0 (py_int x)) as [Hz | Hz]; [apply IZR_le; exact Hz |].
  exfalso. assert (Hk : (py_int x <= -1)%Z) by lia. apply IZR_le in Hk. lra.
Qed.

Lemma py_int_sign_neg x : x < 0 -> IZR (py_int x) <= 0.
Proof.
  intros H. destruct (py_int_neg x H) as [_ H2].
  destruct (Z_le_gt_dec (py_int x) 0) as [Hz | Hz]; [apply IZR_le; exact Hz |].
  exfalso. assert (Hk : (1 <= py_int x)%Z) by lia. apply IZR_le in Hk. lra.
Qed.

Lemma truncate_toward_zero x :
  (0 <= x -> 0 <= truncate x <= x) /\ (x <= 0 -> x <= truncate x <= 0) /\
  Rabs (x - truncate x) < 1 / 100.
Proof.
  rewrite truncate_eq.
  destruct (Rle_dec 0 x) as [Hx | Hx].
  - destruct (py_int_nonneg (x * 100)) as [H1 H2]; [lra |].
    assert (H0 := py_int_sign_nonneg (x * 100)).
    split; [| split].
    + intros _. lra.
    + intros Hn. lra.
    + apply Rabs_def1; lra.
  - destruct (py_int_neg (x * 100)) as [H1 H2]; [lra |].
    assert (H0 := py_int_sign_neg (x * 100)).
    split; [| split].
    + intros Hp. lra.
    + intros _. lra.
    + apply Rabs_def1; lra.
Qed.

Lemma truncate_example : truncate (-1.239) = -1.23.
Proof.
  rewrite truncate_eq. unfold py_int.
  destruct (Rle_dec 0 (-1.239 * 100)); [lra |].
  replace (Int_part (- (-1.239 * 100))) with 123%Z.
  - simpl. lra.
  - apply Int_part_spec. lra.
Qed.

Lemma dt_guard_lt d : d < 3 -> dt_guard d = d /\ dt_guard_sq d = 0.5 * (d * d).
Proof. intros H. unfold dt_guard, dt_guard_sq. rewrite Rltb_true by exact H. auto. Qed.

Lemma dt_guard_ge d : 3 <= d -> dt_guard d = 0 /\ dt_guard_sq d = 0.
Proof. intros H. unfold dt_guard, dt_guard_sq. rewrite Rltb_false by lra. auto. Qed.

Lemma value_limit_bound o l : 0 <= l -> Rabs (value_limit o l) <= l.
Proof.
  intros Hl. unfold value_limit, Rgeb, Rleb, Rltb.
  destruct (Rle_dec l (Rabs o)).
  - destruct (Rlt_dec o 0); [rewrite Rabs_Ropp |]; rewrite Rabs_pos_eq; lra.
  - lra.
Qed.

Lemma clamp_inline_bound x l : 0 <= l -> Rabs (clamp_inline x l) <= l.
Proof.
  intros Hl. unfold clamp_inline, Rleb, Rltb.
  destruct (Rle_dec (Rabs x) l); [assumption |].
  destruct (Rlt_dec x 0).
  - replace (-1 * l) with (- l) by lra. rewrite Rabs_Ropp, Rabs_pos_eq; lra.
  - rewrite Rmult_1_l, Rabs_pos_eq; lra.
Qed.

(** ** Symbolic execution of the loop body *)

(** Unfolds the loop's phases, the monad and the state's accessors, and
    nothing of the arithmetic. *)
Ltac red_loop :=
  cbv beta iota zeta delta [
    tick tick_outcome run consume loop_body compute_commands reset_commands
    read_mode read_imu hold_reset vertical_control vertical_predict takeoff_step
    throttle_control landing read_tof horizontal_control read_flow attitude_control
    debug_prints publish end_of_tick truncate_quotient bind ret raise continue get
    modify when bound emit fst snd app tl fold_left truthy truthy_num negb andb Rgeb
    poll init_state takeoff_list map seq mode_msg imu_msg tof_msg flow_msg clock_imu
    clock_tof clock_of clock_end throttle roll pitch set_TAKEOFF set_LANDING
    set_TAKEOFF_LIST set_IMU_TIME set_OF_TIME set_TOF_Time set_imu
    set_TAKEOFF_THRUST set_tof_filter set_KFXY set_KFXY_z set_KFXY_u set_throttle_pd
    set_roll_pd set_pitch_pd set_prev_altitude_sensor set_altitude_sensor
    set_altitude set_altitude_corrected set_value_available set_postition_hold
    set_init_altitude set_CMDS set_prev_time set_imut set_oft set_toft set_dt
    set_velocity set_cancel_gravity_value set_error_altitude set_next_throttle
    set_outbox set_trace set_throttle set_roll set_pitch TAKEOFF LANDING
    TAKEOFF_LIST IMU_TIME OF_TIME TOF_Time imu TAKEOFF_THRUST tof_filter KFXY KFXY_z
    KFXY_u throttle_pd roll_pd pitch_pd init_x init_y prev_altitude_sensor
    altitude_sensor altitude altitude_corrected value_available postition_hold
    init_altitude CMDS prev_time imut oft toft dt velocity cancel_gravity_value
    error_altitude next_throttle outbox trace].

(** Unfolds the state's accessors and the consumer's read only. *)
Ltac red_state :=
  cbv beta iota zeta delta [
    consume tl fst snd throttle roll pitch set_TAKEOFF set_LANDING set_TAKEOFF_LIST
    set_IMU_TIME set_OF_TIME set_TOF_Time set_imu set_TAKEOFF_THRUST set_tof_filter
    set_KFXY set_KFXY_z set_KFXY_u set_throttle_pd set_roll_pd set_pitch_pd
    set_prev_altitude_sensor set_altitude_sensor set_altitude set_altitude_corrected
    set_value_available set_postition_hold set_init_altitude set_CMDS set_prev_time
    set_imut set_oft set_toft set_dt set_velocity set_cancel_gravity_value
    set_error_altitude set_next_throttle set_outbox set_trace set_throttle set_roll
    set_pitch TAKEOFF LANDING TAKEOFF_LIST IMU_TIME OF_TIME TOF_Time imu
    TAKEOFF_THRUST tof_filter KFXY KFXY_z KFXY_u throttle_pd roll_pd pitch_pd init_x
    init_y prev_altitude_sensor altitude_sensor altitude altitude_corrected
    value_available postition_hold init_altitude CMDS prev_time imut oft toft dt
    velocity cancel_gravity_value error_altitude next_throttle outbox trace].

(** Settles the comparisons that linear arithmetic or a hypothesis decides. *)
Ltac rbool :=
  repeat match goal with
  | |- context [Rltb ?a ?b] =>
      first [rewrite (Rltb_true a b) by (assumption || lra)
            | rewrite (Rltb_false a b) by (assumption || lra)]
  | |- context [Rleb ?a ?b] =>
      first [rewrite (Rleb_true a b) by (assumption || lra)
            | rewrite (Rleb_false a b) by (assumption || lra)]
  | |- context [Reqb ?a ?b] =>
      first [rewrite (Reqb_true a b) by (assumption || lra)
            | rewrite (Reqb_false a b) by (assumption || lra)]
  end.

Ltac exec := repeat (red_loop; rbool).

Lemma bind_assoc {pid : PIDImpl} {A B C} (m : M A) (f : A -> M B) (g : B -> M C) s :
  bind (bind m f) g s = bind m (fun a => bind (f a) g) s.
Proof. unfold bind. destruct (m s) as [[a | e |] s']; reflexivity. Qed.

Lemma bind_step {pid : PIDImpl} {A B} (m : M A) (k : A -> M B) s rs :
  m s = rs ->
  bind m k s =
  match rs with
  | (Normal a, s') => k a s'
  | (Raised e, s') => (Raised e, s')
  | (Continued, s') => (Continued, s')
  end.
Proof. intros <-. reflexivity. Qed.

(** Runs the first phase of a sequence on a state given in full. *)
Ltac step_bind :=
  lazymatch goal with
  | |- context [bind ?m ?k ?s] =>
      let r := fresh "r" in
      let E := fresh "E" in
      let T := type of (m s) in
      evar (r : T);
      assert (E : m s = r) by (subst r; exec; reflexivity);
      rewrite (bind_step m k s r E); clear E; subst r; cbv beta iota
  end.

(** Runs the tick of a state and inputs given in full, phase by phase, and
    puts its result in its place. *)
Ltac eval_tick s i :=
  let x := fresh "st" in
  let E := fresh "E" in
  let T := type of s in
  evar (x : T);
  assert (E : tick s i = x)
    by (subst x; unfold tick, loop_body, compute_commands;
        rewrite !bind_assoc; repeat step_bind; exec; reflexivity);
  rewrite E; clear E; subst x.

(** The same for the innermost tick of the goal, if there is one. *)
Ltac eval_inner_tick :=
  match goal with
  | |- context [tick ?s ?i] =>
      lazymatch s with
      | context [tick] => fail
      | _ => eval_tick s i
      end
  end.

(** Reads entries of the filters' matrices through the assignments. *)
Ltac red_matrices :=
  cbv beta iota zeta delta [
    mget mset vget nth list_set kf_x kf_F kf_P kf_B kf_H kf_Q kf_R kf_predict
    kf_with_x kf_with_F kf_with_P kf_with_B kf_with_R horizontal_matrices
    tof_filter_init KFXY_init diag map seq length Nat.eqb].

Section Properties.

Context {pid : PIDImpl}.

(** ** Rules for the specifications of computations *)

Lemma preserves_ret {A} I (a : A) : preserves I (ret a).
Proof. intros s H; exact H. Qed.

Lemma preserves_raise {A} I e : preserves I (raise (A := A) e).
Proof. intros s H; exact H. Qed.

Lemma preserves_continue I : preserves I continue.
Proof. intros s H; exact H. Qed.

Lemma preserves_get {A} I (f : State -> A) : preserves I (get f).
Proof. intros s H; exact H. Qed.

Lemma preserves_bound {A} I (f : State -> option A) e : preserves I (bound f e).
Proof. intros s H; unfold bound; destruct (f s); exact H. Qed.

Lemma preserves_modify I (f : State -> State) :
  (forall s, I s -> I (f s)) -> preserves I (modify f).
Proof. intros Hf s H; apply Hf, H. Qed.

Lemma preserves_bind {A B} I (m : M A) (k : A -> M B) :
  preserves I m -> (forall a, preserves I (k a)) -> preserves I (bind m k).
Proof.
  intros Hm Hk s H. unfold bind.
  specialize (Hm s H). destruct (m s) as [[a | e |] s']; simpl in *; auto.
  apply Hk, Hm.
Qed.

Lemma preserves_when I b (m : M unit) : preserves I m -> preserves I (when b m).
Proof. intros Hm; destruct b; simpl; [exact Hm | apply preserves_ret]. Qed.

Lemma preserves_truncate_quotient I num den : preserves I (truncate_quotient num den).
Proof.
  unfold truncate_quotient.
  destruct (Reqb den 0); [destruct (Reqb num 0)|];
    first [apply preserves_raise | apply preserves_ret].
Qed.

(** Decomposes a [preserves] goal along the program; what is left are the
    assignments, as [forall s, I s -> I (set_... s)]. *)
Ltac preserves_step :=
  lazymatch goal with
  | |- preserves _ (bind _ _) => apply preserves_bind; [| intros ]
  | |- preserves _ (ret _) => apply preserves_ret
  | |- preserves _ (raise _) => apply preserves_raise
  | |- preserves _ continue => apply preserves_continue
  | |- preserves _ (get _) => apply preserves_get
  | |- preserves _ (bound _ _) => apply preserves_bound
  | |- preserves _ (when _ _) => apply preserves_when
  | |- preserves _ (truncate_quotient _ _) => apply preserves_truncate_quotient
  | |- preserves _ (emit _) => apply preserves_modify
  | |- preserves _ (modify _) => apply preserves_modify
  | |- preserves _ (match ?x with _ => _ end) => destruct x
  | |- preserves _ (if ?x then _ else _) => destruct x
  | |- preserves _ (let (_, _) := ?x in _) => destruct x
  end.

Ltac preserves_all := repeat preserves_step.

(** A field that no assignment of [m] touches. *)
Ltac frame_tac := preserves_all; intros ? <-; reflexivity.

Lemma ensures_bind {A B} (P Mid Q : State -> Prop) (m : M A) (k : A -> M B) :
  ensures P m Mid -> (forall a, ensures Mid (k a) Q) -> ensures P (bind m k) Q.
Proof.
  intros Hm Hk s H. unfold bind.
  specialize (Hm s H). destruct (m s) as [[a | e |] s']; auto.
  apply Hk, Hm.
Qed.

Lemma preserves_ensures {A} (I : State -> Prop) (m : M A) :
  preserves I m -> ensures I m I.
Proof.
  intros Hm s H. specialize (Hm s H). destruct (m s) as [[a | e |] s']; auto.
Qed.

Lemma transforms_ensures {A} (P Q : State -> Prop) (m : M A) :
  transforms P m Q -> ensures P m Q.
Proof.
  intros Hm s H. specialize (Hm s H). destruct (m s) as [[a | e |] s']; auto.
Qed.

Lemma completes_bind {A B} (P Mid Q : State -> Prop) (m : M A) (k : A -> M B) :
  completes P m Mid -> (forall a, completes Mid (k a) Q) -> completes P (bind m k) Q.
Proof.
  intros Hm Hk s H. destruct (Hm s H) as [a [s' [E Hmid]]].
  unfold bind. rewrite E. apply Hk, Hmid.
Qed.

Lemma completes_then_transforms {A B} (P Mid Q : State -> Prop) (m : M A) (k : A -> M B) :
  completes P m Mid -> (forall a, transforms Mid (k a) Q) -> transforms P (bind m k) Q.
Proof.
  intros Hm Hk s H. destruct (Hm s H) as [a [s' [E Hmid]]].
  unfold bind. rewrite E. apply Hk, Hmid.
Qed.

Lemma completes_transforms {A} (P Q : State -> Prop) (m : M A) :
  completes P m Q -> transforms P m Q.
Proof. intros Hm s H. destruct (Hm s H) as [a [s' [E HQ]]]. rewrite E. exact HQ. Qed.

(** Splits on what blocks the execution: a field of the destructed state,
    a comparison, or the controller's result. *)
Ltac split_stuck :=
  match goal with
  | |- context [match ?x with _ => _ end] => is_var x; destruct x
  | |- context [if ?x then _ else _] => is_var x; destruct x
  | |- context [pid_calc ?a ?b ?c ?d] => destruct (pid_calc a b c d)
  | |- context [kf_update ?z ?k] => destruct (kf_update z k)
  | |- context [Reqb ?a ?b] => let E := fresh "E" in destruct (Reqb a b) eqn:E
  end.

Ltac exec_all := red_loop; repeat (split_stuck; red_loop).

(** Every phase before the send leaves the outbound pipe alone. *)
Lemma outbox_reset_commands b : preserves (fun s => outbox s = b) reset_commands.
Proof. unfold reset_commands, emit. frame_tac. Qed.

Lemma outbox_read_mode b inp : preserves (fun s => outbox s = b) (read_mode inp).
Proof. unfold read_mode. frame_tac. Qed.

Lemma outbox_read_imu b inp : preserves (fun s => outbox s = b) (read_imu inp).
Proof. unfold read_imu. frame_tac. Qed.

Lemma outbox_hold_reset b : preserves (fun s => outbox s = b) hold_reset.
Proof. unfold hold_reset. frame_tac. Qed.

Lemma outbox_vertical_control b : preserves (fun s => outbox s = b) vertical_control.
Proof.
  unfold vertical_control, vertical_predict, takeoff_step, throttle_control, emit.
  frame_tac.
Qed.

Lemma outbox_landing b : preserves (fun s => outbox s = b) landing.
Proof. unfold landing. frame_tac. Qed.

Lemma outbox_read_tof b inp : preserves (fun s => outbox s = b) (read_tof inp).
Proof. unfold read_tof, emit. frame_tac. Qed.

Lemma outbox_horizontal_control b inp :
  preserves (fun s => outbox s = b) (horizontal_control inp).
Proof.
  unfold horizontal_control, read_flow, attitude_control, debug_prints, emit.
  frame_tac.
Qed.

Lemma transforms_bind {A B} (P Mid Q : State -> Prop) (m : M A) (k : A -> M B) :
  transforms P m Mid ->
  (forall s, Mid s -> Q s) ->
  (forall a, transforms Mid (k a) Q) ->
  transforms P (bind m k) Q.
Proof.
  intros Hm Hexit Hk s H. unfold bind.
  specialize (Hm s H). destruct (m s) as [[a | e |] s']; simpl in *; auto.
  apply Hk, Hm.
Qed.

Lemma transforms_weaken {A} (P Q Q' : State -> Prop) (m : M A) :
  transforms P m Q -> (forall s, Q s -> Q' s) -> transforms P m Q'.
Proof. intros H HQ s Hs. apply HQ, H, Hs. Qed.

Lemma publish_outbox b :
  transforms (fun s => outbox s = b) publish (sent_at_most_one b).
Proof.
  intros s Hb. unfold publish, sent_at_most_one, bind, get, when, modify, emit.
  destruct (value_available s); simpl; [| left; exact Hb].
  destruct (outbox s) as [| c rest] eqn:E; simpl.
  - right. split; [congruence |]. rewrite E. exists (CMDS s). reflexivity.
  - left. congruence.
Qed.

Lemma end_of_tick_outbox b inp :
  preserves (sent_at_most_one b) (end_of_tick inp).
Proof. unfold end_of_tick. preserves_all. intros s H; exact H. Qed.

Lemma loop_body_outbox b inp :
  transforms (fun s => outbox s = b) (loop_body inp) (sent_at_most_one b).
Proof.
  assert (Hexit : forall s', outbox s' = b -> sent_at_most_one b s')
    by (intros s' H; left; exact H).
  unfold loop_body.
  eapply transforms_bind; [| exact Hexit | intros _].
  { unfold compute_commands.
    eapply transforms_bind; [apply outbox_reset_commands | auto | intros _].
    eapply transforms_bind; [apply outbox_read_mode | auto | intros _].
    eapply transforms_bind; [apply outbox_read_imu | auto | intros _].
    eapply transforms_bind; [apply outbox_hold_reset | auto | intros _].
    eapply transforms_bind; [apply outbox_vertical_control | auto | intros _].
    eapply transforms_bind; [apply outbox_landing | auto | intros _].
    eapply transforms_bind; [apply outbox_read_tof | auto | intros _].
    apply outbox_horizontal_control. }
  eapply transforms_bind; [apply publish_outbox | auto | intros _].
  apply end_of_tick_outbox.
Qed.

Lemma tick_outbox s inp : sent_at_most_one (outbox s) (tick s inp).
Proof. apply (loop_body_outbox (outbox s) inp s eq_refl). Qed.

Lemma tick_outbox_length s inp :
  (length (outbox s) <= 1)%nat -> (length (outbox (tick s inp)) <= 1)%nat.
Proof.
  intros H. destruct (tick_outbox s inp) as [E | [_ [c E]]]; rewrite E; simpl; lia.
Qed.

Lemma consume_outbox_length s :
  (length (outbox s) <= 1)%nat -> (length (outbox (consume s)) <= 1)%nat.
Proof. unfold consume; simpl. destruct (outbox s); simpl; lia. Qed.

Lemma run_outbox_length inps : forall s,
  (length (outbox s) <= 1)%nat -> (length (outbox (run s inps)) <= 1)%nat.
Proof.
  induction inps as [| inp inps IH]; intros s H; simpl; [exact H |].
  apply IH, tick_outbox_length, H.
Qed.

(** C8.  In every reachable state at most one command is pending on the
    outbound pipe; from such a state any number of ticks without a consumer
    leaves at most one pending; and a tick that finds a command pending
    leaves the pipe as it was (its own command is not enqueued). *)
Theorem backpressure_at_most_one_pending n t0 s :
  reachable n t0 s ->
  (length (outbox s) <= 1)%nat /\
  (forall inps, (length (outbox (run s inps)) <= 1)%nat) /\
  (forall inp, poll (outbox s) = true -> outbox (tick s inp) = outbox s).
Proof.
  intros Hr.
  assert (Hlen : (length (outbox s) <= 1)%nat).
  { induction Hr as [| s inp _ IH | s _ IH].
    - simpl. lia.
    - apply tick_outbox_length, IH.
    - apply consume_outbox_length, IH. }
  split; [exact Hlen |]. split.
  - intros inps. apply run_outbox_length, Hlen.
  - intros inp Hp. destruct (tick_outbox s inp) as [E | [E _]]; [exact E |].
    rewrite E in Hp. discriminate.
Qed.


(** ** Hold-reset *)

(** C3 (amended).  When the hold signal is set (arriving now or still
    pending) and a non-zero range reading is held, the tick hard-sets the
    vertical filter state to [[reading; 0]], latches the vertical reference
    and the previous-altitude memory to the reading, clears the flag and
    skips the rest of the iteration ([continue]); the horizontal origin
    [init_x], [init_y] and filter, the flight-phase flags, the outbound pipe
    and [prev_time] are left as they were. *)
Theorem hold_reset_relatches_vertical_only s inp a :
  hold_flag s inp = true ->
  altitude_sensor s = Some a ->
  a <> 0 ->
  let s' := tick s inp in
  tick_outcome s inp = Continued /\
  kf_x (tof_filter s') = [a; 0] /\
  init_altitude s' = Some a /\
  prev_altitude_sensor s' = Some a /\
  postition_hold s' = false /\
  init_x s' = init_x s /\ init_y s' = init_y s /\ KFXY s' = KFXY s /\
  TAKEOFF s' = TAKEOFF s /\ LANDING s' = LANDING s /\
  outbox s' = outbox s /\ prev_time s' = prev_time s.
Proof.
  intros Hflag Hsensor Ha.
  destruct s; destruct inp as [mm im tm fm c1 c2 c3 c4].
  unfold hold_flag in Hflag; simpl in *. subst.
  assert (Hz : Reqb a 0 = false) by (apply Reqb_false; exact Ha).
  unfold tick, tick_outcome, loop_body, compute_commands.
  match goal with |- context [bind hold_reset ?k] => generalize k end.
  intros rest.
  destruct mm as [[|] |]; try discriminate; simpl in Hflag; subst;
    destruct im as [[[i v] t] |];
    red_loop; try (destruct TAKEOFF0; red_loop); rewrite ?Hz; red_loop;
    repeat split; reflexivity.
Qed.


(** ** The published command *)

Lemma limits_nonneg :
  0 <= ABS_MAX_VALUE_ROLL /\ 0 <= ABS_MAX_VALUE_PITCH /\ 0 <= ABS_MAX_VALUE_THROTTLE.
Proof. unfold ABS_MAX_VALUE_ROLL, ABS_MAX_VALUE_PITCH, ABS_MAX_VALUE_THROTTLE. lra. Qed.

Lemma reset_commands_shape L0 K :
  ensures (fun s => TAKEOFF_LIST s = L0 /\ throttle_pd s = K) reset_commands
    (command_reset L0 K).
Proof.
  intros s [H HK]. destruct s. simpl in H, HK. red_loop.
  unfold command_reset, attitude_within_limits; simpl.
  rewrite Rabs_R0. destruct limits_nonneg as [? [? ?]]. auto.
Qed.

Lemma read_mode_reset L0 K inp : preserves (command_reset L0 K) (read_mode inp).
Proof. unfold read_mode. preserves_all; intros s H; exact H. Qed.

Lemma read_imu_reset L0 K inp : preserves (command_reset L0 K) (read_imu inp).
Proof. unfold read_imu. preserves_all; intros s H; exact H. Qed.

Lemma hold_reset_reset L0 K : preserves (command_reset L0 K) hold_reset.
Proof. unfold hold_reset. preserves_all; intros s H; exact H. Qed.

(** Like [split_stuck], keeping the controller's result as an equation. *)
Ltac split_stuck_pid :=
  match goal with
  | |- context [match ?x with _ => _ end] => is_var x; destruct x
  | |- context [if ?x then _ else _] => is_var x; destruct x
  | |- context [pid_calc ?a ?b ?c ?d] =>
      let E := fresh "Epid" in destruct (pid_calc a b c d) eqn:E
  | |- context [Reqb ?a ?b] => let E := fresh "E" in destruct (Reqb a b) eqn:E
  end.

Lemma vertical_control_shape L0 K :
  ensures (command_reset L0 K) vertical_control
    (fun s => attitude_within_limits (CMDS s) /\ vertical_shape L0 K s).
Proof.
  intros s [Hthr [Hatt [HL HK]]].
  destruct s as [? ? ? ? ? ? ? ? ? ? ? ? ? ? ? ? ? ? ? ? ? ? ? ? [thr rl pt]].
  unfold attitude_within_limits in *. simpl in *. subst.
  unfold vertical_shape, ramp_throttle, hold_throttle, attitude_within_limits.
  red_loop; repeat (split_stuck_pid; red_loop); try exact I.
  all: split; [exact Hatt |].
  all: repeat split; intros; try discriminate; try tauto.
  all: try (exfalso; apply Reqb_true_inv in E0; unfold TAKEOFF_ALTITUDE in E0; lra).
  all: try (do 5 eexists; do 5 (split; [reflexivity |]);
            rewrite Epid; split; [reflexivity |]; split; [reflexivity |];
            match goal with
            | |- Rabs (?a + ?b - ?b) <= _ => replace (a + b - b) with a by lra
            end;
            apply value_limit_bound, limits_nonneg).
  all: repeat eexists.
Qed.

Lemma landing_shape L0 K :
  ensures (fun s => attitude_within_limits (CMDS s) /\ vertical_shape L0 K s) landing
    (command_shape L0 K).
Proof.
  intros s [Hatt Hv].
  destruct s as [? ? ? ? ? ? ? ? ? ? ? ? ? ? ? ? ? ? ? ? ? ? ? ? [thr rl pt]].
  unfold command_shape, throttle_shape, landing_throttle, attitude_within_limits in *.
  simpl in *.
  exec_all; try exact I; simpl; split; try assumption.
  eexists; split; reflexivity.
Qed.

Lemma read_tof_shape L0 K inp : preserves (command_shape L0 K) (read_tof inp).
Proof. unfold read_tof, emit. preserves_all; intros s H; exact H. Qed.

Lemma horizontal_control_shape L0 K inp :
  preserves (command_shape L0 K) (horizontal_control inp).
Proof.
  unfold horizontal_control, read_flow, attitude_control, debug_prints, emit.
  preserves_all; intros s H; try exact H.
  - destruct H as [[Hr Hp] Ht]. split; [split |]; [| exact Hp | exact Ht].
    apply clamp_inline_bound, limits_nonneg.
  - destruct H as [[Hr Hp] Ht]. split; [split |]; [exact Hr | | exact Ht].
    apply clamp_inline_bound, limits_nonneg.
Qed.

Lemma compute_commands_shape L0 K inp :
  ensures (fun s => TAKEOFF_LIST s = L0 /\ throttle_pd s = K) (compute_commands inp)
    (command_shape L0 K).
Proof.
  unfold compute_commands.
  eapply ensures_bind; [apply reset_commands_shape | intros _].
  eapply ensures_bind; [apply preserves_ensures, read_mode_reset | intros _].
  eapply ensures_bind; [apply preserves_ensures, read_imu_reset | intros _].
  eapply ensures_bind; [apply preserves_ensures, hold_reset_reset | intros _].
  eapply ensures_bind; [apply vertical_control_shape | intros _].
  eapply ensures_bind; [apply landing_shape | intros _].
  eapply ensures_bind; [apply preserves_ensures, read_tof_shape | intros _].
  apply preserves_ensures, horizontal_control_shape.
Qed.

Lemma compute_commands_outbox b inp :
  preserves (fun s => outbox s = b) (compute_commands inp).
Proof.
  unfold compute_commands.
  apply preserves_bind; [apply outbox_reset_commands | intros _].
  apply preserves_bind; [apply outbox_read_mode | intros _].
  apply preserves_bind; [apply outbox_read_imu | intros _].
  apply preserves_bind; [apply outbox_hold_reset | intros _].
  apply preserves_bind; [apply outbox_vertical_control | intros _].
  apply preserves_bind; [apply outbox_landing | intros _].
  apply preserves_bind; [apply outbox_read_tof | intros _].
  apply outbox_horizontal_control.
Qed.

Lemma publish_end_of_tick s inp :
  let s' := snd (bind publish (fun _ => end_of_tick inp) s) in
  CMDS s' = CMDS s /\
  (forall L0 K, command_shape L0 K s -> command_shape L0 K s') /\
  (outbox s' = outbox s \/ outbox s' = outbox s ++ [CMDS s]).
Proof.
  destruct s. unfold command_shape, throttle_shape, landing_throttle, vertical_shape,
    ramp_throttle, hold_throttle.
  unfold publish, end_of_tick, bind, get, when, modify, emit. simpl.
  destruct value_available0; simpl; [destruct (poll outbox0); simpl |]; auto.
Qed.

Lemma app_one_not_self {A} (l : list A) (a : A) : l <> l ++ [a].
Proof.
  intros H. apply (f_equal (@length A)) in H. rewrite length_app in H. simpl in H. lia.
Qed.

(** C1 (amended).  The command a tick publishes is its [CMDS]; its roll
    and pitch lie within their limits in every phase.  Its throttle is the
    ramp value [fraction * thrust] during takeoff and [hover - 50] while
    landing; in hold it is the output of the throttle PID (the controller as
    the tick found it, on the error [init_altitude - altitude], with [dt] and
    the negated velocity) clamped to [ABS_MAX_VALUE_THROTTLE], plus the
    hover feed-forward [hover / (cos roll * cos pitch)] added after the
    clamp, so that the limit bounds the throttle minus the feed-forward and
    not the throttle; with no reference altitude it is the default [-30]. *)
Theorem published_command_shape s inp c :
  publishes s inp c ->
  CMDS (tick s inp) = c /\
  attitude_within_limits c /\
  throttle_shape (TAKEOFF_LIST s) (throttle_pd s) (tick s inp).
Proof.
  unfold publishes, tick, loop_body. intros Hpub.
  assert (Hshape := compute_commands_shape (TAKEOFF_LIST s) (throttle_pd s) inp s
                      (conj eq_refl eq_refl)).
  assert (Hbox := compute_commands_outbox (outbox s) inp s eq_refl).
  unfold bind in *.
  destruct (compute_commands inp s) as [[[] | e |] s1]; simpl in *;
    try (exfalso; rewrite Hbox in Hpub; exact (app_one_not_self _ _ Hpub)).
  destruct (publish_end_of_tick s1 inp) as [Hc [Hk Hs]]. simpl in Hc, Hk, Hs.
  unfold bind in Hc, Hk, Hs.
  destruct Hs as [Hs | Hs]; rewrite Hs, Hbox in Hpub.
  - exfalso. exact (app_one_not_self _ _ Hpub).
  - apply app_inv_head in Hpub. injection Hpub as Hcmd.
    specialize (Hk _ _ Hshape). destruct Hk as [Hatt Hthr].
    rewrite Hc in *. rewrite Hcmd in *. auto.
Qed.


(** ** The takeoff ramp *)

Ltac destruct_state s :=
  destruct s as [? ? ? ? ? ? ? ? ? ? ? ? ? ? ? ? ? ? ? ? ? ? ? ? [? ? ?]].

Ltac open_ramp :=
  unfold ramp_stepped, ramp_at, ramp_ready, hold_entered, uninterrupted in *; simpl in *.

Lemma ramp_reset_commands v L : completes (ramp_at v L) reset_commands (ramp_at v L).
Proof.
  intros s H. destruct_state s. open_ramp. red_loop. eauto.
Qed.

Lemma ramp_read_mode v L inp :
  uninterrupted v inp -> completes (ramp_at v L) (read_mode inp) (ramp_at v L).
Proof.
  intros [Hm _] s H. unfold read_mode. rewrite Hm. unfold ret. eauto.
Qed.

Lemma ramp_read_imu v L inp :
  uninterrupted v inp -> completes (ramp_at v L) (read_imu inp) (ramp_at v L).
Proof.
  intros [_ Hv] s H. destruct_state s. destruct inp as [mm im tm fm c1 c2 c3 c4].
  open_ramp. destruct H as [[Ht [Hl [Hi [Hp Hth]]]] HL]. subst.
  destruct im as [[[i b] t] |]; red_loop.
  - rewrite (Hv i b t eq_refl). eauto 10.
  - eauto 10.
Qed.

Lemma ramp_hold_reset v L : completes (ramp_at v L) hold_reset (ramp_at v L).
Proof.
  intros s H. destruct_state s. open_ramp.
  destruct H as [[Ht [Hl [Hi [Hp Hth]]]] HL]. subst. red_loop. eauto 10.
Qed.

Lemma ramp_vertical_control v f rest :
  completes (ramp_at v (f :: rest)) vertical_control (ramp_stepped v f rest).
Proof.
  intros s H. destruct_state s. open_ramp.
  destruct H as [[Ht [Hl [Hi [Hp Hth]]]] HL]. subst.
  destruct init_altitude0 as [a |]; [| discriminate]. cbv [truthy truthy_num] in Hi.
  destruct (Reqb a 0) eqn:E; [discriminate |].
  red_loop. rewrite E. red_loop.
  do 2 eexists; split; [reflexivity |]. red_loop. rewrite E. auto 10.
Qed.

Lemma ramp_landing v f rest : preserves (ramp_stepped v f rest) landing.
Proof.
  intros s H. destruct_state s. open_ramp.
  destruct H as [[[Ht [Hl [Hi [Hp Hth]]]] HL] [Hthr Hc]]. subst. red_loop. auto 10.
Qed.

Lemma ramp_read_tof v f rest inp : preserves (ramp_stepped v f rest) (read_tof inp).
Proof. unfold read_tof, emit. preserves_all; intros s H; exact H. Qed.

Lemma ramp_horizontal_control v f rest inp :
  preserves (ramp_stepped v f rest) (horizontal_control inp).
Proof.
  intros s H. destruct_state s. open_ramp.
  destruct H as [[[Ht [Hl [Hi [Hp Hth]]]] HL] [Hthr Hc]]. subst. red_loop. auto 10.
Qed.

Lemma ramp_publish v f rest : preserves (ramp_stepped v f rest) publish.
Proof. unfold publish, emit. preserves_all; intros s H; exact H. Qed.

Lemma ramp_end_of_tick v f rest inp : preserves (ramp_stepped v f rest) (end_of_tick inp).
Proof. unfold end_of_tick. preserves_all; intros s H; exact H. Qed.

(** One ramp tick: the head of the profile times the thrust constant is
    commanded and the profile advances, whatever else the tick meets. *)
Lemma ramp_tick v f rest s inp :
  ramp_at v (f :: rest) s -> uninterrupted v inp -> ramp_stepped v f rest (tick s inp).
Proof.
  intros H Hu. revert s H.
  change (transforms (ramp_at v (f :: rest)) (loop_body inp) (ramp_stepped v f rest)).
  unfold loop_body.
  eapply transforms_bind with (Mid := ramp_stepped v f rest); [| auto |].
  - unfold compute_commands.
    eapply completes_then_transforms; [apply ramp_reset_commands | intros _].
    eapply completes_then_transforms; [apply ramp_read_mode, Hu | intros _].
    eapply completes_then_transforms; [apply ramp_read_imu, Hu | intros _].
    eapply completes_then_transforms; [apply ramp_hold_reset | intros _].
    eapply completes_then_transforms; [apply ramp_vertical_control | intros _].
    apply preserves_bind; [apply ramp_landing | intros _].
    apply preserves_bind; [apply ramp_read_tof | intros _].
    apply ramp_horizontal_control.
  - intros _. apply preserves_bind; [apply ramp_publish | intros _].
    apply ramp_end_of_tick.
Qed.


Lemma hold_entered_vertical_control v :
  transforms (ramp_at v []) vertical_control hold_entered.
Proof.
  intros s H. destruct_state s. open_ramp.
  destruct H as [[Ht [Hl [Hi [Hp Hth]]]] HL]. subst.
  destruct init_altitude0 as [a |]; [| discriminate]. cbv [truthy truthy_num] in Hi.
  destruct (Reqb a 0) eqn:E; [discriminate |].
  red_loop. rewrite E. exec_all; auto.
Qed.

Lemma hold_entered_after inp :
  preserves hold_entered
    (bind landing (fun _ => bind (read_tof inp) (fun _ => horizontal_control inp))).
Proof.
  unfold landing, read_tof, horizontal_control, read_flow, attitude_control,
    debug_prints, emit.
  preserves_all; intros s H; exact H.
Qed.

Lemma hold_entered_publish inp :
  preserves hold_entered (bind publish (fun _ => end_of_tick inp)).
Proof. unfold publish, end_of_tick, emit. preserves_all; intros s H; exact H. Qed.

(** The tick that finds the profile exhausted ends the takeoff. *)
Lemma ramp_end v s inp :
  ramp_at v [] s -> uninterrupted v inp -> hold_entered (tick s inp).
Proof.
  intros H Hu. revert s H.
  change (transforms (ramp_at v []) (loop_body inp) hold_entered).
  unfold loop_body.
  eapply transforms_bind with (Mid := hold_entered); [| auto |].
  - unfold compute_commands.
    eapply completes_then_transforms; [apply ramp_reset_commands | intros _].
    eapply completes_then_transforms; [apply ramp_read_mode, Hu | intros _].
    eapply completes_then_transforms; [apply ramp_read_imu, Hu | intros _].
    eapply completes_then_transforms; [apply ramp_hold_reset | intros _].
    eapply transforms_bind with (Mid := hold_entered);
      [apply hold_entered_vertical_control | auto | intros _].
    apply hold_entered_after.
  - intros _. apply hold_entered_publish.
Qed.

(** No assignment sets [TAKEOFF] again. *)
Lemma takeoff_over_tick s inp : TAKEOFF s = false -> TAKEOFF (tick s inp) = false.
Proof.
  revert s. change (preserves (fun s => TAKEOFF s = false) (loop_body inp)).
  unfold loop_body, compute_commands, reset_commands, read_mode, read_imu, hold_reset,
    vertical_control, vertical_predict, takeoff_step, throttle_control, landing,
    read_tof, horizontal_control, read_flow, attitude_control, debug_prints, publish,
    end_of_tick, emit.
  preserves_all; intros s H; first [exact H | reflexivity].
Qed.

Lemma takeoff_over_run inps : forall s, TAKEOFF s = false -> TAKEOFF (run s inps) = false.
Proof.
  induction inps as [| inp inps IH]; intros s H; simpl; [exact H |].
  apply IH, takeoff_over_tick, H.
Qed.

(** Along the ramp the commanded throttles are the profile's fractions
    times the thrust constant, in order. *)
Lemma commanded_ramp v : forall inps L s,
  ramp_at v L s -> Forall (uninterrupted v) inps -> (length inps <= length L)%nat ->
  commanded s inps
    = map (fun fraction => fraction * IZR (takeoff_thrust v)) (firstn (length inps) L) /\
  ramp_at v (skipn (length inps) L) (run s inps).
Proof.
  induction inps as [| inp inps IH]; intros L s H Hall Hlen.
  - simpl. auto.
  - destruct L as [| f rest]; [simpl in Hlen; lia |].
    inversion Hall as [| ? ? Hu Hall']; subst.
    destruct (ramp_tick v f rest s inp H Hu) as [Hat [Hthr _]].
    destruct (IH rest (tick s inp) Hat Hall') as [Hc Hr]; [simpl in Hlen; lia |].
    simpl. rewrite Hthr, Hc. auto.
Qed.

Lemma takeoff_fraction_step t : takeoff_fraction t <= takeoff_fraction (S t).
Proof.
  unfold takeoff_fraction.
  assert (H0 := exp_pos (INR t)).
  assert (H1 : exp (INR t) < exp (INR (S t))) by (apply exp_increasing; rewrite S_INR; lra).
  assert (H2 : / exp (INR (S t)) < / exp (INR t)) by (apply Rinv_lt_contravar; nra).
  lra.
Qed.

Lemma takeoff_list_sorted : forall n a, Sorted Rle (map takeoff_fraction (seq a n)).
Proof.
  induction n as [| n IH]; intros a; simpl; constructor.
  - apply IH.
  - destruct n; simpl; constructor. apply takeoff_fraction_step.
Qed.

Lemma sorted_scale c : 0 <= c -> forall L, Sorted Rle L -> Sorted Rle (map (fun f => f * c) L).
Proof.
  intros Hc L H. induction H as [| x l Hs IH Hhd]; simpl; constructor.
  - exact IH.
  - destruct Hhd; simpl; constructor. nra.
Qed.

Lemma length_takeoff_list n : length (takeoff_list n) = n.
Proof. unfold takeoff_list. rewrite length_map, length_seq. reflexivity. Qed.

(** C7 (amended).  From a state on the ramp with the profile
    [1 - e^(-t)], [t = 0..n-1], [n] ticks without interruption command the
    throttles [fraction * thrust] in order; when the thrust constant
    [int(1015 - 60*voltage)] is not negative that sequence is non-decreasing.
    The flight phase is takeoff up to and including the [n]-th tick, whose
    end finds the profile exhausted; the next tick sets the reference
    altitude to [TAKEOFF_ALTITUDE] and the vertical velocity to zero and
    enters hold, and [TAKEOFF] is never set again. *)
Theorem takeoff_ramp_then_hold voltage n s inps :
  ramp_at voltage (takeoff_list n) s ->
  Forall (uninterrupted voltage) inps ->
  length inps = n ->
  (0 <= takeoff_thrust voltage)%Z ->
  commanded s inps
    = map (fun fraction => fraction * IZR (takeoff_thrust voltage)) (takeoff_list n) /\
  Sorted Rle (commanded s inps) /\
  (forall k, (k <= n)%nat -> flight_phase (run s (firstn k inps)) = PhaseTakeoff) /\
  TAKEOFF_LIST (run s inps) = [] /\
  (forall inp more,
     uninterrupted voltage inp ->
     hold_entered (tick (run s inps) inp) /\
     flight_phase (tick (run s inps) inp) = PhaseHold /\
     TAKEOFF (run (tick (run s inps) inp) more) = false).
Proof.
  intros Hat Hall Hlen Hpos.
  assert (HL := length_takeoff_list n).
  destruct (commanded_ramp voltage inps (takeoff_list n) s Hat Hall) as [Hc Hr]; [lia |].
  rewrite Hlen in Hc, Hr.
  rewrite firstn_all2 in Hc by lia. rewrite skipn_all2 in Hr by lia.
  split; [exact Hc |]. split; [| split; [| split]].
  - rewrite Hc. apply sorted_scale; [apply IZR_le in Hpos; exact Hpos |].
    apply takeoff_list_sorted.
  - intros k Hk.
    assert (Hall' : Forall (uninterrupted voltage) (firstn k inps)).
    { rewrite <- (firstn_skipn k inps) in Hall. apply Forall_app in Hall. apply Hall. }
    destruct (commanded_ramp voltage (firstn k inps) (takeoff_list n) s Hat Hall')
      as [_ [[Ht _] _]].
    + rewrite length_firstn. lia.
    + unfold flight_phase. rewrite Ht. reflexivity.
  - apply Hr.
  - intros inp more Hu.
    assert (He := ramp_end voltage (run s inps) inp Hr Hu).
    split; [exact He |]. destruct He as [Ht [Hl _]]. split.
    + unfold flight_phase. rewrite Ht, Hl. reflexivity.
    + apply takeoff_over_run, Ht.
Qed.


(** ** Zero readings and absent readings *)

Section OneVariable.

Variable rd : State -> option R.
Variable wr : option R -> State -> State.
Hypothesis rd_wr : forall v s, rd (wr v s) = v.
Hypothesis wr_wr : forall v w s, wr v (wr w s) = wr v s.
Hypothesis wr_rd : forall s, wr (rd s) s = s.

Lemma alike_refl s : alike rd wr s s.
Proof. unfold alike. auto. Qed.

Lemma alike_falsy v1 v2 s :
  truthy v1 = false -> truthy v2 = false -> alike rd wr (wr v1 s) (wr v2 s).
Proof.
  intros H1 H2. unfold alike. rewrite !wr_wr, !rd_wr, H1, H2.
  repeat split; auto. discriminate.
Qed.

Lemma alike_wr v s1 s2 : alike rd wr s1 s2 -> wr v s1 = wr v s2.
Proof.
  intros [H _]. rewrite <- (wr_wr v None s1), <- (wr_wr v None s2), H. reflexivity.
Qed.

Lemma alike_up_to s1 s2 : alike rd wr s1 s2 -> exists v, s1 = wr v s2.
Proof.
  intros H. exists (rd s1). rewrite <- (alike_wr (rd s1) s1 s2 H). symmetry. apply wr_rd.
Qed.

Lemma alike_eq s1 s2 : alike rd wr s1 s2 -> truthy (rd s1) = true -> s1 = s2.
Proof.
  intros H Ht. destruct (alike_up_to s1 s2 H) as [v E].
  destruct H as [_ [_ Hv]]. specialize (Hv Ht).
  rewrite <- (wr_rd s1), Hv, (alike_wr (rd s2) s1 s2); [apply wr_rd |].
  unfold alike. rewrite E, !wr_wr, !rd_wr. subst s1. rewrite rd_wr in Hv, Ht.
  subst v. auto.
Qed.

Lemma oblivious_respects {A} (m : M A) : oblivious wr m -> respects rd wr m.
Proof.
  intros Hm s1 s2 H.
  assert (E1 : s1 = wr (rd s1) s2).
  { rewrite <- (alike_wr (rd s1) s1 s2 H). symmetry. apply wr_rd. }
  destruct H as [Hw [Ht Hv]].
  destruct (Hm s2) as [Hk | Ho].
  - assert (Ex : rd (snd (m s2)) = rd s2).
    { assert (H := Hk (rd s2)). rewrite wr_rd in H.
      apply (f_equal snd) in H. simpl in H. rewrite H. apply rd_wr. }
    assert (E : m s1 = (fst (m s2), wr (rd s1) (snd (m s2)))) by (rewrite E1 at 1; apply Hk).
    rewrite E. simpl. split; [reflexivity |].
    unfold alike. rewrite wr_wr, rd_wr, Ex. auto.
  - assert (E : m s1 = m s2) by (rewrite E1 at 1; apply Ho).
    rewrite E. split; [reflexivity | apply alike_refl].
Qed.

(** A computation that, on a falsy value, does not depend on which. *)
Lemma respects_falsy {A} (m : M A) :
  (forall v1 v2 s, truthy v1 = false -> truthy v2 = false ->
     m (wr v1 s) = (fst (m (wr v2 s)), wr v1 (snd (m (wr v2 s))))) ->
  respects rd wr m.
Proof.
  intros Hm s1 s2 H.
  destruct (truthy (rd s1)) eqn:Ht.
  - rewrite (alike_eq s1 s2 H Ht). split; [reflexivity | apply alike_refl].
  - assert (E1 : s1 = wr (rd s1) s2).
    { rewrite <- (alike_wr (rd s1) s1 s2 H). symmetry. apply wr_rd. }
    destruct H as [Hw [Ht' Hv]]. rewrite Ht in Ht'. symmetry in Ht'.
    assert (Hk := fun v1 H1 => Hm v1 (rd s2) s2 H1 Ht'). rewrite wr_rd in Hk.
    assert (Ex : rd (snd (m s2)) = rd s2).
    { assert (H := Hk (rd s2) Ht'). rewrite wr_rd in H.
      apply (f_equal snd) in H. simpl in H. rewrite H. apply rd_wr. }
    assert (E : m s1 = (fst (m s2), wr (rd s1) (snd (m s2))))
      by (rewrite E1 at 1; apply Hk, Ht).
    rewrite E. simpl. split; [reflexivity |].
    unfold alike. rewrite wr_wr, rd_wr, Ex, Ht, Ht'. repeat split; auto. discriminate.
Qed.

Lemma respects_bind {A B} (m : M A) (k : A -> M B) :
  respects rd wr m -> (forall a, respects rd wr (k a)) -> respects rd wr (bind m k).
Proof.
  intros Hm Hk s1 s2 H. unfold bind.
  destruct (Hm s1 s2 H) as [Hf Ha].
  destruct (m s1) as [[a1 | e1 |] t1], (m s2) as [[a2 | e2 |] t2];
    simpl in Hf, Ha; try discriminate; simpl.
  - injection Hf as <-. apply Hk, Ha.
  - injection Hf as <-. split; [reflexivity | exact Ha].
  - split; [reflexivity | exact Ha].
Qed.

Lemma oblivious_bind {A B} (m : M A) (k : A -> M B) :
  oblivious wr m -> (forall a, oblivious wr (k a)) -> oblivious wr (bind m k).
Proof.
  intros Hm Hk s. destruct (Hm s) as [Hkeep | Hover].
  - destruct (m s) as [[a | e |] s'] eqn:E.
    + destruct (Hk a s') as [Hk' | Ho'].
      * left. intros v. unfold bind. rewrite Hkeep, E. simpl. rewrite Hk'. reflexivity.
      * right. intros v. unfold bind. rewrite Hkeep, E. simpl. rewrite Ho'. reflexivity.
    + left. intros v. unfold bind. rewrite Hkeep, E. reflexivity.
    + left. intros v. unfold bind. rewrite Hkeep, E. reflexivity.
  - right. intros v. unfold bind. rewrite Hover. reflexivity.
Qed.

Lemma overwrite_bind {A B} (m : M A) (k : A -> M B) :
  (forall s, overwrites wr m s) -> oblivious wr (bind m k).
Proof. intros Hm s. right. intros v. unfold bind. rewrite Hm. reflexivity. Qed.

Lemma oblivious_keeps {A} (m : M A) : (forall s, keeps wr m s) -> oblivious wr m.
Proof. intros H s. left. apply H. Qed.

Lemma oblivious_overwrites {A} (m : M A) : (forall s, overwrites wr m s) -> oblivious wr m.
Proof. intros H s. right. apply H. Qed.

Lemma oblivious_when b (m : M unit) : oblivious wr m -> oblivious wr (when b m).
Proof.
  intros Hm. destruct b; simpl; [exact Hm |]. apply oblivious_keeps. intros s v. reflexivity.
Qed.

Lemma oblivious_truncate_quotient num den : oblivious wr (truncate_quotient num den).
Proof.
  unfold truncate_quotient.
  destruct (Reqb den 0); [destruct (Reqb num 0) |];
    apply oblivious_keeps; intros s v; reflexivity.
Qed.

End OneVariable.


Ltac oblivious_step :=
  lazymatch goal with
  | |- oblivious _ (bind (modify _) _) =>
      first [apply overwrite_bind; intros ? ?; reflexivity
            | apply oblivious_bind; [| intros]]
  | |- oblivious _ (bind _ _) => apply oblivious_bind; [| intros]
  | |- oblivious _ (when _ _) => apply oblivious_when
  | |- oblivious _ (truncate_quotient _ _) => apply oblivious_truncate_quotient
  | |- oblivious ?wr (bound ?f ?e) =>
      apply oblivious_keeps;
      let s := fresh "s" in let v := fresh "v" in
      intros s v; unfold bound; change (f (wr v s)) with (f s); destruct (f s); reflexivity
  | |- oblivious _ (match ?x with _ => _ end) => destruct x
  | |- oblivious _ (if ?x then _ else _) => destruct x
  | |- oblivious _ _ =>
      first [apply oblivious_keeps; intros ? ?; reflexivity
            | apply oblivious_overwrites; intros ? ?; reflexivity]
  end.

Ltac oblivious_all := repeat oblivious_step.

(** Rewrites with the comparisons already decided. *)
Ltac use_eqs :=
  repeat match goal with
         | E : Reqb ?a ?b = _ |- context [Reqb ?a ?b] => rewrite E
         end.

(** A falsy value is [None] or a number equal to zero. *)
Ltac falsy_cases v H :=
  let x := fresh "x" in
  destruct v as [x |];
  [cbv [truthy truthy_num negb] in H; destruct (Reqb x 0) eqn:?; [clear H | discriminate H]
  | clear H].

Lemma sensor_wr_rd s : set_altitude_sensor (altitude_sensor s) s = s.
Proof. destruct s. reflexivity. Qed.

Lemma reference_wr_rd s : set_init_altitude (init_altitude s) s = s.
Proof. destruct s. reflexivity. Qed.

(** The range reading is read by the hold-reset test alone, and only for
    its truthiness. *)
Lemma loop_body_respects_sensor inp :
  respects altitude_sensor set_altitude_sensor (loop_body inp).
Proof.
  assert (Hob : forall A (m : M A), oblivious set_altitude_sensor m ->
                  respects altitude_sensor set_altitude_sensor m).
  { intros A m. apply oblivious_respects; intros; first [reflexivity | apply sensor_wr_rd]. }
  unfold loop_body.
  apply respects_bind; [unfold compute_commands | intros _].
  - apply respects_bind; [| intros _].
    { apply Hob. unfold reset_commands, emit. oblivious_all. }
    apply respects_bind; [| intros _].
    { apply Hob. unfold read_mode. oblivious_all. }
    apply respects_bind; [| intros _].
    { apply Hob. unfold read_imu. oblivious_all. }
    apply respects_bind; [| intros _].
    { apply respects_falsy; try (intros; first [reflexivity | apply sensor_wr_rd]).
      intros v1 v2 s H1 H2. destruct s.
      falsy_cases v1 H1; falsy_cases v2 H2;
        red_loop; destruct postition_hold0; red_loop; use_eqs; reflexivity. }
    apply respects_bind; [| intros _].
    { apply Hob.
      unfold vertical_control, vertical_predict, takeoff_step, throttle_control, emit.
      oblivious_all. }
    apply respects_bind; [| intros _].
    { apply Hob. unfold landing. oblivious_all. }
    apply respects_bind; [| intros _].
    { apply Hob. unfold read_tof, emit. oblivious_all. }
    apply Hob.
    unfold horizontal_control, read_flow, attitude_control, debug_prints, emit.
    oblivious_all.
  - apply respects_bind; [| intros _].
    { apply Hob. unfold publish, emit. oblivious_all. }
    apply Hob. unfold end_of_tick. oblivious_all.
Qed.


(** The reference altitude is read for its truthiness; its value is used
    only where it is truthy. *)
Lemma loop_body_respects_reference inp :
  respects init_altitude set_init_altitude (loop_body inp).
Proof.
  assert (Hob : forall A (m : M A), oblivious set_init_altitude m ->
                  respects init_altitude set_init_altitude m).
  { intros A m. apply oblivious_respects; intros; first [reflexivity | apply reference_wr_rd]. }
  unfold loop_body.
  apply respects_bind; [unfold compute_commands | intros _].
  - apply respects_bind; [| intros _].
    { apply Hob. unfold reset_commands, emit. oblivious_all. }
    apply respects_bind; [| intros _].
    { apply Hob. unfold read_mode. oblivious_all. }
    apply respects_bind; [| intros _].
    { apply Hob. unfold read_imu. oblivious_all. }
    apply respects_bind; [| intros _].
    { apply Hob. unfold hold_reset. oblivious_all. }
    apply respects_bind; [| intros _].
    { apply respects_falsy; try (intros; first [reflexivity | apply reference_wr_rd]).
      intros v1 v2 s H1 H2. destruct s.
      falsy_cases v1 H1; falsy_cases v2 H2; red_loop; use_eqs; reflexivity. }
    apply respects_bind; [| intros _].
    { apply Hob. unfold landing. oblivious_all. }
    apply respects_bind; [| intros _].
    { apply respects_falsy; try (intros; first [reflexivity | apply reference_wr_rd]).
      intros v1 v2 s H1 H2. destruct s. destruct inp as [mm im [[raw t] |] fm c1 c2 c3 c4];
      falsy_cases v1 H1; falsy_cases v2 H2; red_loop; use_eqs; reflexivity. }
    apply Hob.
    unfold horizontal_control, read_flow, attitude_control, debug_prints, emit.
    oblivious_all.
  - apply respects_bind; [| intros _].
    { apply Hob. unfold publish, emit. oblivious_all. }
    apply Hob. unfold end_of_tick. oblivious_all.
Qed.

Lemma truthy_zero : truthy (Some 0) = false.
Proof. unfold truthy, truthy_num. rewrite Reqb_true; reflexivity. Qed.

(** C10.  Presence is decided by truthiness.  With the range reading
    exactly 0 the hold-reset does not fire, and with the reference altitude
    exactly 0 the vertical predict/control branch is skipped; a tick from a
    state holding the reading 0 (or the reference 0) has the same outcome as
    from the state holding [None] there, and ends in the same state up to
    that one variable. *)
Theorem zero_reading_as_absent s inp :
  hold_reset (set_altitude_sensor (Some 0) s)
    = (Normal tt, set_altitude_sensor (Some 0) s) /\
  vertical_control (set_init_altitude (Some 0) s)
    = (Normal tt, set_init_altitude (Some 0) s) /\
  (tick_outcome (set_altitude_sensor (Some 0) s) inp
     = tick_outcome (set_altitude_sensor None s) inp /\
   exists v, tick (set_altitude_sensor (Some 0) s) inp
             = set_altitude_sensor v (tick (set_altitude_sensor None s) inp)) /\
  (tick_outcome (set_init_altitude (Some 0) s) inp
     = tick_outcome (set_init_altitude None s) inp /\
   exists v, tick (set_init_altitude (Some 0) s) inp
             = set_init_altitude v (tick (set_init_altitude None s) inp)).
Proof.
  assert (Hz : Reqb 0 0 = true) by (apply Reqb_true; reflexivity).
  split; [| split; [| split]].
  - destruct s. red_loop. rewrite Hz. destruct postition_hold0; reflexivity.
  - destruct s. red_loop. rewrite Hz. reflexivity.
  - assert (Ha : alike altitude_sensor set_altitude_sensor
                   (set_altitude_sensor (Some 0) s) (set_altitude_sensor None s)).
    { apply alike_falsy; intros; try reflexivity. apply truthy_zero. }
    destruct (loop_body_respects_sensor inp _ _ Ha) as [Hf Hs].
    split; [exact Hf |].
    apply (alike_up_to altitude_sensor set_altitude_sensor); intros;
      first [exact Hs | reflexivity | apply sensor_wr_rd].
  - assert (Ha : alike init_altitude set_init_altitude
                   (set_init_altitude (Some 0) s) (set_init_altitude None s)).
    { apply alike_falsy; intros; try reflexivity. apply truthy_zero. }
    destruct (loop_body_respects_reference inp _ _ Ha) as [Hf Hs].
    split; [exact Hf |].
    apply (alike_up_to init_altitude set_init_altitude); intros;
      first [exact Hs | reflexivity | apply reference_wr_rd].
Qed.


(** ** The horizontal filter's update *)

Ltac close_post :=
  first [exists []; reflexivity
        | eexists [_]; reflexivity
        | eexists [_; _]; reflexivity
        | eexists [_; _; _]; reflexivity].

(** Outside takeoff a flow sample is fed to [KFXY.update] scaled by
    [-altitude], the filter carrying the matrices set just before. *)
Lemma horizontal_flow_update s inp dx dy t v alt :
  TAKEOFF s = false -> velocity s = Some v -> altitude s = Some alt ->
  flow_msg inp = Some (dx, dy, t) ->
  exists post,
    trace (snd (horizontal_control inp s))
    = post ++ XYUpdate (horizontal_matrices (prev_time s - OF_TIME s)
                          (prev_time s - IMU_TIME s) v (KFXY s))
                (flow_measurement [dx; dy] alt) :: trace s.
Proof.
  intros Ht Hv Ha Hf. destruct_state s. destruct inp as [mm im tm fm c1 c2 c3 c4].
  simpl in *. subst. exec_all; close_post.
Qed.

Lemma horizontal_matrices_H dO dI v k : kf_H (horizontal_matrices dO dI v k) = kf_H k.
Proof. reflexivity. Qed.

Lemma horizontal_matrices_R dO dI v k a b c d :
  kf_R k = [[a; b]; [c; d]] ->
  kf_R (horizontal_matrices dO dI v k) = [[0.01 + v / 100; b]; [c; 0.01 + v / 100]].
Proof. intros H. destruct k. simpl in H. subst. reflexivity. Qed.

Lemma KFXY_init_channels :
  channel_reads (kf_H KFXY_init) 0 AxisX /\ channel_reads (kf_H KFXY_init) 1 AxisY.
Proof. split; reflexivity. Qed.

(** C5 (amended).  Outside takeoff a flow sample [(dx, dy)] is fed to the
    horizontal filter's update as [[dx * -altitude; dy * -altitude]]: [dx]
    on measurement channel 0, the row of [H] that reads the x velocity, and
    [dy] on channel 1, the row that reads the y velocity; the axes are not
    exchanged. *)
Theorem flow_update_measurement s inp dx dy t v alt :
  TAKEOFF s = false -> velocity s = Some v -> altitude s = Some alt ->
  flow_msg inp = Some (dx, dy, t) ->
  kf_H (KFXY s) = kf_H KFXY_init ->
  exists k post,
    trace (snd (horizontal_control inp s))
      = post ++ XYUpdate k [dx * - alt; dy * - alt] :: trace s /\
    channel_reads (kf_H k) 0 AxisX /\ channel_reads (kf_H k) 1 AxisY.
Proof.
  intros Ht Hv Ha Hf HH.
  destruct (horizontal_flow_update s inp dx dy t v alt Ht Hv Ha Hf) as [post E].
  eexists. exists post. split; [exact E |].
  rewrite horizontal_matrices_H, HH. apply KFXY_init_channels.
Qed.

(** C6 (amended).  Outside takeoff the measurement-noise matrix of the
    horizontal filter has both diagonal entries set to
    [0.01 + vertical_velocity / 100], the velocity taken with its sign, and
    a flow sample is fed to an update that sees these entries. *)
Theorem flow_measurement_noise s inp dx dy t v alt a b c d :
  TAKEOFF s = false -> velocity s = Some v -> altitude s = Some alt ->
  flow_msg inp = Some (dx, dy, t) ->
  kf_R (KFXY s) = [[a; b]; [c; d]] ->
  exists k z post,
    trace (snd (horizontal_control inp s)) = post ++ XYUpdate k z :: trace s /\
    kf_R k = [[0.01 + v / 100; b]; [c; 0.01 + v / 100]].
Proof.
  intros Ht Hv Ha Hf HR.
  destruct (horizontal_flow_update s inp dx dy t v alt Ht Hv Ha Hf) as [post E].
  do 2 eexists. exists post. split; [exact E |].
  eapply horizontal_matrices_R; exact HR.
Qed.


(** ** The vertical filter's update *)

(** What follows the range update adds calls to the trace and keeps the
    two altitude variables. *)
Lemma range_updated_emit ev T z c p s :
  range_updated T z c p s -> range_updated T z c p (set_trace (ev :: trace s) s).
Proof.
  intros [[k [pre [post E]]] [Hc Hp]]. split; [| split; assumption].
  exists k, pre, (ev :: post). destruct s. simpl in *. rewrite E. reflexivity.
Qed.

Ltac range_frame :=
  preserves_all;
  first [ intros s0 H0; apply range_updated_emit; exact H0
        | intros s0 H0; exact H0 ].

Lemma range_updated_horizontal_control T z c p inp :
  preserves (range_updated T z c p) (horizontal_control inp).
Proof.
  unfold horizontal_control, read_flow, attitude_control, debug_prints, emit.
  range_frame.
Qed.

Lemma range_updated_publish T z c p : preserves (range_updated T z c p) publish.
Proof. unfold publish, emit. range_frame. Qed.

Lemma range_updated_end_of_tick T z c p inp :
  preserves (range_updated T z c p) (end_of_tick inp).
Proof. unfold end_of_tick. range_frame. Qed.

Lemma after_bind {A B} (I : State -> Prop) (m : M A) (k : A -> M B) s :
  I (snd (m s)) -> (forall a, preserves I (k a)) -> I (snd (bind m k s)).
Proof.
  intros Hm Hk. unfold bind. destruct (m s) as [[a | e |] s']; simpl in *; auto.
  apply Hk, Hm.
Qed.

Lemma takeoff_altitude_truthy : Reqb TAKEOFF_ALTITUDE 0 = false.
Proof. apply Reqb_false. unfold TAKEOFF_ALTITUDE. lra. Qed.

(** The range sample of a tick whose vertical control completes: what the
    update receives, and what the tick keeps for the next one. *)
Lemma tick_range_update s inp raw t r p :
  mode_msg inp = None -> postition_hold s = false ->
  init_altitude s = Some r -> r <> 0 ->
  tof_msg inp = Some (raw, t) ->
  prev_time s - TOF_Time s <> 0 ->
  vertical_ready s inp = true ->
  previous_altitude s = Some p ->
  range_updated (trace s)
    (range_measurement raw (attitude_read s inp) p (prev_time s - TOF_Time s))
    (correct_altitude raw (attitude_read s inp)) p (tick s inp).
Proof.
  intros Hm Hp Hi Hr Ht Hd Hv Hprev.
  assert (Hz : Reqb r 0 = false) by (apply Reqb_false; exact Hr).
  assert (Hd' : Reqb (prev_time s - TOF_Time s) 0 = false) by (apply Reqb_false; exact Hd).
  assert (Ha := takeoff_altitude_truthy).
  unfold tick, loop_body. apply after_bind.
  2: { intros _. apply preserves_bind; [apply range_updated_publish |].
       intros _. apply range_updated_end_of_tick. }
  unfold compute_commands.
  match goal with
  | |- context [bind (read_tof inp) ?k] =>
      assert (Hrest : forall a,
                 preserves
                   (range_updated (trace s)
                      (range_measurement raw (attitude_read s inp) p
                         (prev_time s - TOF_Time s))
                      (correct_altitude raw (attitude_read s inp)) p) (k a))
        by (intros a; apply range_updated_horizontal_control);
      revert Hrest; generalize k
  end.
  intros rest Hrest.
  unfold previous_altitude, vertical_ready, ramping, attitude_read, preserves in *.
  revert Hrest.
  destruct s as [takeoff ? profile ? ? ? ? thrust ? ? ? ? ? ? ? ? ? ? ? ? ? ? ? ?
                 [? ? ?] ? ? ? ? ? ? hover ? ? ? ?].
  destruct inp as [mm im tm fm c1 c2 c3 c4].
  simpl in Hm, Hp, Hi, Ht, Hd', Hv, Hprev. subst.
  clear Hd.
  destruct takeoff; destruct profile as [| fraction profile];
    simpl in Hv, Hprev; subst;
    destruct thrust, im as [[[i v] ti] |], hover;
    simpl in Hv; try discriminate Hv; clear Hv;
    red_loop;
    repeat (first [rewrite Hz | rewrite Hd' | rewrite Ha | split_stuck]; red_loop).
  all: try congruence.
  all: intros Hrest; try apply (Hrest tt).
  all: split; [eexists; eexists [_; _; _]; exists []; reflexivity | split; reflexivity].
Qed.

Lemma hovering_ready r h s inp :
  hovering r h s ->
  vertical_ready s inp = true /\ previous_altitude s = altitude_corrected s.
Proof.
  intros [H1 [_ [_ [_ [H5 _]]]]].
  unfold vertical_ready, previous_altitude, ramping. rewrite H1, H5. split; reflexivity.
Qed.

Lemma attitude_read_cached s inp : imu_msg inp = None -> attitude_read s inp = imu s.
Proof. unfold attitude_read. intros ->. reflexivity. Qed.

(** A tick with nothing on the inbound pipes leaves the attitude, the range
    timestamp and the pending flags alone. *)
Lemma settled_tick i tof_time now s inp :
  silent inp -> clock_end inp = now ->
  settled i tof_time now s -> settled i tof_time now (tick s inp).
Proof.
  intros [Hm [Hi [Ht Hf]]] Hc. revert s.
  change (preserves (settled i tof_time now) (loop_body inp)).
  destruct inp as [mm im tm fm c1 c2 c3 c4]. simpl in Hm, Hi, Ht, Hf, Hc. subst.
  unfold loop_body, compute_commands, reset_commands, read_mode, read_imu, hold_reset,
    vertical_control, vertical_predict, takeoff_step, throttle_control, landing,
    read_tof, horizontal_control, read_flow, attitude_control, debug_prints, publish,
    end_of_tick, emit.
  cbv beta iota delta [mode_msg imu_msg tof_msg flow_msg clock_end].
  preserves_all;
    intros s0 [H1 [H2 [H3 [H4 [H5 [H6 H7]]]]]];
    repeat split; first [assumption | reflexivity].
Qed.

Lemma settled_run i tof_time now inps : forall s,
  Forall (fun inp => silent inp /\ clock_end inp = now) inps ->
  settled i tof_time now s -> settled i tof_time now (run s inps).
Proof.
  induction inps as [| inp inps IH]; intros s Hall H; simpl; [exact H |].
  inversion Hall as [| ? ? [Hs Hc] Hall']; subst.
  apply IH; [exact Hall' |]. apply settled_tick; auto.
Qed.

Lemma reachable_run n t0 inps : forall s, reachable n t0 s -> reachable n t0 (run s inps).
Proof.
  induction inps as [| inp inps IH]; intros s H; simpl; [exact H |].
  apply IH, reach_tick, H.
Qed.

Lemma run_cons s inp inps : run s (inp :: inps) = run (tick s inp) inps.
Proof. reflexivity. Qed.

(** Entering hold from the ramp without a flow sample so far. *)
Lemma hold_entered_hovering i tof_time now s :
  hold_entered s -> settled i tof_time now s ->
  exists h, hovering TAKEOFF_ALTITUDE h s.
Proof.
  intros [HT [HL [HI _]]] [HP [_ [HO [_ [_ [_ HC]]]]]].
  destruct (cancel_gravity_value s) as [h |] eqn:E; [| discriminate HC].
  exists h. unfold hovering. rewrite E. auto 10.
Qed.

(** A hold tick that receives a range sample and has never received a flow
    sample: the flags and the loop's clock stay (the tick ends in the
    diagnostic prints' [NameError] at the latest), the sample's timestamp
    and tilt-compensated reading are kept. *)
Lemma hovering_tick_without_flow s inp raw t r h :
  hovering r h s -> r <> 0 ->
  mode_msg inp = None -> imu_msg inp = None -> flow_msg inp = None ->
  tof_msg inp = Some (raw, t) ->
  prev_time s - TOF_Time s <> 0 ->
  hovering r h (tick s inp) /\
  prev_time (tick s inp) = prev_time s /\
  TOF_Time (tick s inp) = t /\
  imu (tick s inp) = imu s /\
  altitude_corrected (tick s inp) = Some (correct_altitude raw (imu s)).
Proof.
  intros [H1 [H2 [H3 [H4 [H5 H6]]]]] Hr Hm Him Hf Ht Hd.
  assert (Hz : Reqb r 0 = false) by (apply Reqb_false; exact Hr).
  assert (Hd' : Reqb (prev_time s - TOF_Time s) 0 = false) by (apply Reqb_false; exact Hd).
  clear Hd. unfold hovering.
  destruct_state s. destruct inp as [mm im tm fm c1 c2 c3 c4].
  simpl in H1, H2, H3, H4, H5, H6, Hm, Him, Hf, Ht, Hd'. subst.
  red_loop.
  repeat (first [rewrite Hz | rewrite Hd' | split_stuck]; red_loop).
  all: repeat split; reflexivity.
Qed.

Lemma takeoff_altitude_nonzero : TAKEOFF_ALTITUDE <> 0.
Proof. unfold TAKEOFF_ALTITUDE. lra. Qed.

(** The update of a hold tick from a state whose fields are known. *)
Lemma hovering_range_update s raw t clock h q now tof_time :
  hovering TAKEOFF_ALTITUDE h s ->
  prev_time s = now -> TOF_Time s = tof_time -> imu s = imu_init ->
  altitude_corrected s = Some q ->
  now - tof_time <> 0 ->
  range_updated (trace s) (range_measurement raw imu_init q (now - tof_time))
    (correct_altitude raw imu_init) q (tick s (range_sample raw t clock)).
Proof.
  intros Hh Hp Ht Hi Hc Hd.
  destruct (hovering_ready _ _ _ (range_sample raw t clock) Hh) as [Hv Hprev].
  assert (Hh' := Hh). destruct Hh' as [_ [_ [HP [HI _]]]].
  assert (U := tick_range_update s (range_sample raw t clock) raw t TAKEOFF_ALTITUDE q
                 eq_refl HP HI takeoff_altitude_nonzero eq_refl).
  rewrite (attitude_read_cached s (range_sample raw t clock) eq_refl), Hi, Hp, Ht in U.
  apply U; [exact Hd | exact Hv | rewrite Hprev; exact Hc].
Qed.




(* ------------------------------------------------------------------ *)
(** * Further properties of the loop *)

(** ** What every tick does *)

Lemma tokens_sent_emit ev T s :
  is_token ev = false -> tokens_sent T s -> tokens_sent T (set_trace (ev :: trace s) s).
Proof.
  intros Hev [post [E Hpost]]. exists (ev :: post). split.
  - destruct s. simpl in *. rewrite E. reflexivity.
  - constructor; assumption.
Qed.

Ltac tokens_frame :=
  preserves_all;
  first [ intros s0 H0; apply tokens_sent_emit; [reflexivity | exact H0]
        | intros s0 H0; exact H0 ].

Lemma tokens_sent_rest T inp :
  preserves (tokens_sent T)
    (bind (read_mode inp) (fun _ =>
     bind (read_imu inp) (fun _ =>
     bind hold_reset (fun _ =>
     bind vertical_control (fun _ =>
     bind landing (fun _ =>
     bind (read_tof inp) (fun _ => horizontal_control inp))))))).
Proof.
  unfold read_mode, read_imu, hold_reset, vertical_control, vertical_predict,
    takeoff_step, throttle_control, landing, read_tof, horizontal_control, read_flow,
    attitude_control, debug_prints, emit.
  tokens_frame.
Qed.

Lemma tokens_sent_publish T inp :
  preserves (tokens_sent T) (bind publish (fun _ => end_of_tick inp)).
Proof. unfold publish, end_of_tick, emit. tokens_frame. Qed.

(** X7.  Every iteration, whatever its outcome (completed, raised or
    [continue]), first sends one pacing token on the optical-flow pipe and
    one on the range pipe, and sends no other token: the trace grows by the
    two tokens followed by calls that are not tokens. *)
Theorem tick_sends_both_tokens s inp :
  exists post,
    trace (tick s inp) = post ++ Token TofPipe :: Token OptflowPipe :: trace s /\
    Forall (fun e => is_token e = false) post.
Proof.
  change (tokens_sent (trace s) (tick s inp)).
  unfold tick, loop_body. apply after_bind; [| intros _; apply tokens_sent_publish].
  unfold compute_commands. apply after_bind; [| intros _; apply tokens_sent_rest].
  destruct s. red_loop. exists []. split; [reflexivity | constructor].
Qed.

Lemma prev_time_compute_commands t inp :
  preserves (fun s => prev_time s = t) (compute_commands inp).
Proof.
  unfold compute_commands, reset_commands, read_mode, read_imu, hold_reset,
    vertical_control, vertical_predict, takeoff_step, throttle_control, landing,
    read_tof, horizontal_control, read_flow, attitude_control, debug_prints, emit.
  frame_tac.
Qed.

(** X8.  An iteration that completes ends with [prev_time] at the clock read
    after the sleep.  One that raises or executes [continue] leaves
    [prev_time] and the outbound pipe as they were: it publishes nothing and
    the next [dt] is measured from the last completed iteration. *)
Theorem aborted_tick_keeps_clock s inp :
  match tick_outcome s inp with
  | Normal _ => prev_time (tick s inp) = clock_end inp
  | Raised _ | Continued =>
      prev_time (tick s inp) = prev_time s /\ outbox (tick s inp) = outbox s
  end.
Proof.
  assert (Hbox := compute_commands_outbox (outbox s) inp s eq_refl).
  assert (Hclock := prev_time_compute_commands (prev_time s) inp s eq_refl).
  unfold tick, tick_outcome, loop_body, bind in *.
  destruct (compute_commands inp s) as [[[] | e |] s1]; simpl in *; auto.
  unfold publish, end_of_tick, bind, get, when, modify, emit.
  destruct (value_available s1 && negb (poll (outbox s1))); reflexivity.
Qed.

(** ** The horizontal step is skipped during takeoff *)

Lemma takeoff_false_horizontal inp :
  preserves (fun s => TAKEOFF s = false) (horizontal_control inp).
Proof.
  unfold horizontal_control, read_flow, attitude_control, debug_prints, emit.
  preserves_all; intros s H; exact H.
Qed.

Lemma horizontal_idle_vertical k z u r p t o inp :
  preserves (horizontal_idle k z u r p t o)
    (bind (read_mode inp) (fun _ =>
     bind (read_imu inp) (fun _ =>
     bind hold_reset (fun _ =>
     bind vertical_control (fun _ =>
     bind landing (fun _ => read_tof inp)))))).
Proof.
  unfold read_mode, read_imu, hold_reset, vertical_control, vertical_predict,
    takeoff_step, throttle_control, landing, read_tof, emit.
  preserves_all; intros s H; exact H.
Qed.

Lemma horizontal_idle_publish k z u r p t o inp :
  preserves (fun s => TAKEOFF s = true -> horizontal_idle k z u r p t o s)
    (bind publish (fun _ => end_of_tick inp)).
Proof. unfold publish, end_of_tick, emit. preserves_all; intros s H; exact H. Qed.

Lemma horizontal_idle_horizontal k z u r p t o inp :
  transforms (horizontal_idle k z u r p t o) (horizontal_control inp)
    (fun s => TAKEOFF s = true -> horizontal_idle k z u r p t o s).
Proof.
  intros s H. destruct (TAKEOFF s) eqn:E.
  - unfold horizontal_control, bind, get. rewrite E. simpl. intros _. exact H.
  - intros Ht. rewrite (takeoff_false_horizontal inp s E) in Ht. discriminate.
Qed.

Lemma takeoff_skips_horizontal_step s inp :
  TAKEOFF (tick s inp) = true ->
  horizontal_idle (KFXY s) (KFXY_z s) (KFXY_u s) (roll_pd s) (pitch_pd s) (OF_TIME s)
    (oft s) (tick s inp).
Proof.
  revert s.
  assert (H : forall k z u r p t o,
             transforms (fun s => KFXY s = k /\ KFXY_z s = z /\ KFXY_u s = u /\
                                  roll_pd s = r /\ pitch_pd s = p /\ OF_TIME s = t /\
                                  oft s = o)
               (loop_body inp)
               (fun s => TAKEOFF s = true -> horizontal_idle k z u r p t o s)).
  { intros k z u r p t o. unfold loop_body.
    eapply transforms_bind
      with (Mid := fun s => TAKEOFF s = true -> horizontal_idle k z u r p t o s);
      [| auto | intros _; apply horizontal_idle_publish].
    unfold compute_commands.
    eapply transforms_bind with (Mid := horizontal_idle k z u r p t o);
      [| auto |].
    - intros s [H1 [H2 [H3 [H4 [H5 [H6 H7]]]]]]. destruct s. simpl in *. subst.
      red_loop. unfold horizontal_idle. simpl. auto 12.
    - intros _.
      assert (Hv := horizontal_idle_vertical k z u r p t o inp).
      intros s Hs. specialize (Hv s Hs). revert Hv. unfold bind.
      destruct (read_mode inp s) as [[[] | e |] s1]; simpl; auto.
      destruct (read_imu inp s1) as [[[] | e |] s2]; simpl; auto.
      destruct (hold_reset s2) as [[[] | e |] s3]; simpl; auto.
      destruct (vertical_control s3) as [[[] | e |] s4]; simpl; auto.
      destruct (landing s4) as [[[] | e |] s5]; simpl; auto.
      destruct (read_tof inp s5) as [[[] | e |] s6]; simpl; auto.
      intros H6. apply (horizontal_idle_horizontal k z u r p t o inp s6 H6). }
  intros s Ht. apply (H _ _ _ _ _ _ _ s); auto 10.
Qed.

(** X9.  A tick that ends with [TAKEOFF] still set has skipped the
    horizontal step: the horizontal filter, its buffers, the roll and pitch
    controllers and the flow timestamps are untouched (a waiting flow sample
    is not read) and the attitude command is roll = pitch = 0. *)
Theorem takeoff_skips_horizontal s inp :
  TAKEOFF (tick s inp) = true ->
  KFXY (tick s inp) = KFXY s /\
  KFXY_z (tick s inp) = KFXY_z s /\
  KFXY_u (tick s inp) = KFXY_u s /\
  roll_pd (tick s inp) = roll_pd s /\
  pitch_pd (tick s inp) = pitch_pd s /\
  OF_TIME (tick s inp) = OF_TIME s /\
  oft (tick s inp) = oft s /\
  roll (CMDS (tick s inp)) = 0 /\
  pitch (CMDS (tick s inp)) = 0.
Proof. intros Ht. exact (takeoff_skips_horizontal_step s inp Ht). Qed.

(** ** The flags only move one way *)

Lemma landing_latched_tick s inp : LANDING s = true -> LANDING (tick s inp) = true.
Proof.
  revert s. change (preserves (fun s => LANDING s = true) (loop_body inp)).
  unfold loop_body, compute_commands, reset_commands, read_mode, read_imu, hold_reset,
    vertical_control, vertical_predict, takeoff_step, throttle_control, landing,
    read_tof, horizontal_control, read_flow, attitude_control, debug_prints, publish,
    end_of_tick, emit.
  preserves_all; intros s H; first [exact H | reflexivity].
Qed.

Lemma landing_latched_run inps : forall s, LANDING s = true -> LANDING (run s inps) = true.
Proof.
  induction inps as [| inp inps IH]; intros s H; simpl; [exact H |].
  apply IH, landing_latched_tick, H.
Qed.

(** ** Hold before the first flow sample *)

Lemma hold_unfed_prefix inp :
  preserves (fun s => TAKEOFF s = false /\ oft s = None)
    (bind reset_commands (fun _ =>
     bind (read_mode inp) (fun _ =>
     bind (read_imu inp) (fun _ =>
     bind hold_reset (fun _ =>
     bind vertical_control (fun _ =>
     bind landing (fun _ => read_tof inp))))))).
Proof.
  unfold reset_commands, read_mode, read_imu, hold_reset, vertical_control,
    vertical_predict, takeoff_step, throttle_control, landing, read_tof, emit.
  preserves_all; intros s [H1 H2]; split; first [exact H1 | exact H2 | reflexivity].
Qed.

Lemma hold_unfed_horizontal inp :
  flow_msg inp = None ->
  forall s, TAKEOFF s = false -> oft s = None ->
    fst (horizontal_control inp s) <> Normal tt /\
    oft (snd (horizontal_control inp s)) = None.
Proof.
  intros Hf s Ht Ho. destruct_state s. destruct inp as [mm im tm fm c1 c2 c3 c4].
  simpl in Hf, Ht, Ho. subst.
  exec_all; split; first [discriminate | reflexivity].
Qed.

Lemma hold_unfed_compute inp s :
  flow_msg inp = None -> TAKEOFF s = false -> oft s = None ->
  fst (compute_commands inp s) <> Normal tt /\ oft (snd (compute_commands inp s)) = None.
Proof.
  intros Hf Ht Ho.
  assert (Hp := hold_unfed_prefix inp s (conj Ht Ho)). revert Hp.
  unfold compute_commands, bind.
  destruct (reset_commands s) as [[[] | e |] s0]; simpl;
    [| intros [_ H]; split; [discriminate | exact H] ..].
  destruct (read_mode inp s0) as [[[] | e |] s1]; simpl;
    [| intros [_ H]; split; [discriminate | exact H] ..].
  destruct (read_imu inp s1) as [[[] | e |] s2]; simpl;
    [| intros [_ H]; split; [discriminate | exact H] ..].
  destruct (hold_reset s2) as [[[] | e |] s3]; simpl;
    [| intros [_ H]; split; [discriminate | exact H] ..].
  destruct (vertical_control s3) as [[[] | e |] s4]; simpl;
    [| intros [_ H]; split; [discriminate | exact H] ..].
  destruct (landing s4) as [[[] | e |] s5]; simpl;
    [| intros [_ H]; split; [discriminate | exact H] ..].
  destruct (read_tof inp s5) as [[[] | e |] s6]; simpl;
    [| intros [_ H]; split; [discriminate | exact H] ..].
  intros [H1 H2]. apply hold_unfed_horizontal; assumption.
Qed.

Lemma takeoff_false_compute inp :
  preserves (fun s => TAKEOFF s = false) (compute_commands inp).
Proof.
  unfold compute_commands, reset_commands, read_mode, read_imu, hold_reset,
    vertical_control, vertical_predict, takeoff_step, throttle_control, landing,
    read_tof, horizontal_control, read_flow, attitude_control, debug_prints, emit.
  preserves_all; intros s H; first [exact H | reflexivity].
Qed.

(** X10.  Outside takeoff, as long as no optical-flow sample has ever been
    read ([oft] unbound) and none is waiting, no iteration completes: it
    ends at the latest in the diagnostic prints' [NameError], publishes
    nothing and leaves [prev_time] where it was. *)
Theorem hold_without_flow_never_publishes s inp :
  TAKEOFF s = false -> oft s = None -> flow_msg inp = None ->
  tick_outcome s inp <> Normal tt /\
  outbox (tick s inp) = outbox s /\
  prev_time (tick s inp) = prev_time s /\
  oft (tick s inp) = None /\
  TAKEOFF (tick s inp) = false.
Proof.
  intros Ht Ho Hf.
  destruct (hold_unfed_compute inp s Hf Ht Ho) as [Hout Hoft].
  assert (Hbox := compute_commands_outbox (outbox s) inp s eq_refl).
  assert (Hclock := prev_time_compute_commands (prev_time s) inp s eq_refl).
  assert (Htk := takeoff_false_compute inp s Ht).
  unfold tick, tick_outcome, loop_body, bind in *.
  destruct (compute_commands inp s) as [[[] | e |] s1]; simpl in *.
  - exfalso. apply Hout. reflexivity.
  - repeat split; auto; discriminate.
  - repeat split; auto; discriminate.
Qed.

(** ** The ramp before the first IMU sample *)

(** X11.  A ramp tick that finds the thrust constant unbound (no IMU sample
    has arrived during takeoff, none is waiting) raises [NameError] at the
    throttle assignment: the profile is not advanced, the command stays the
    default, nothing is published and [prev_time] is kept. *)
Theorem ramp_waits_for_imu s inp fraction rest reference :
  TAKEOFF s = true -> TAKEOFF_LIST s = fraction :: rest ->
  TAKEOFF_THRUST s = None -> imu_msg inp = None ->
  init_altitude s = Some reference -> reference <> 0 ->
  mode_msg inp = None -> postition_hold s = false ->
  tick_outcome s inp = Raised NameError /\
  TAKEOFF_LIST (tick s inp) = fraction :: rest /\
  TAKEOFF_THRUST (tick s inp) = None /\
  CMDS (tick s inp) = default_command /\
  outbox (tick s inp) = outbox s /\
  prev_time (tick s inp) = prev_time s.
Proof.
  intros Ht HL Hth Him Hi Hr Hm Hp.
  assert (Hz : Reqb reference 0 = false) by (apply Reqb_false; exact Hr).
  destruct_state s. destruct inp as [mm im tm fm c1 c2 c3 c4].
  simpl in Ht, HL, Hth, Him, Hi, Hm, Hp. subst.
  unfold tick, tick_outcome, loop_body, compute_commands.
  match goal with |- context [bind vertical_control ?k] => generalize k end.
  intros k.
  generalize (fun _ : unit => bind publish (fun _ : unit => end_of_tick
    {| mode_msg := None; imu_msg := None; tof_msg := tm; flow_msg := fm;
       clock_imu := c1; clock_tof := c2; clock_of := c3; clock_end := c4 |})).
  intros k'.
  red_loop. rewrite Hz. red_loop. repeat split; reflexivity.
Qed.

(** ** The landing request *)

Lemma landing_requested_horizontal k x takeoff profile inp :
  preserves (landing_requested k x takeoff profile) (horizontal_control inp).
Proof.
  unfold horizontal_control, read_flow, attitude_control, debug_prints, emit.
  preserves_all; intros s H; exact H.
Qed.

Lemma landing_requested_publish k x takeoff profile inp :
  preserves (landing_requested k x takeoff profile)
    (bind publish (fun _ => end_of_tick inp)).
Proof. unfold publish, end_of_tick, emit. preserves_all; intros s H; exact H. Qed.

Lemma landing_request_tick s inp :
  mode_msg inp = Some false ->
  landing_requested (tof_filter s) (landing_request_throttle s)
    (TAKEOFF s) (TAKEOFF_LIST s) (tick s inp).
Proof.
  intros Hm.
  unfold tick, loop_body. apply after_bind; [| intros _; apply landing_requested_publish].
  unfold compute_commands.
  match goal with
  | |- context [bind (read_tof inp) ?k] =>
      assert (Hrest : forall a,
                 preserves
                   (landing_requested (tof_filter s) (landing_request_throttle s)
                      (TAKEOFF s) (TAKEOFF_LIST s)) (k a))
        by (intros a; apply landing_requested_horizontal);
      revert Hrest; generalize k
  end.
  intros k Hrest.
  unfold landing_request_throttle, preserves in *.
  revert Hrest.
  destruct_state s. destruct inp as [mm im tm fm c1 c2 c3 c4].
  simpl in Hm. subst.
  exec_all.
  all: intros Hrest; try apply (Hrest tt).
  all: unfold landing_requested; simpl; repeat split; reflexivity.
Qed.

(** X12.  The landing request ([False] on the mode pipe) sets [LANDING],
    drops the reference altitude and any pending hold request, and skips the
    vertical filter for that tick; no later tick clears [LANDING].  Outside
    takeoff with the hover throttle bound the tick's throttle is
    [hover - 50]; during takeoff the request only stalls the ramp (the
    profile is kept and the throttle is the default -30). *)
Theorem landing_request_latches s inp :
  mode_msg inp = Some false ->
  LANDING (tick s inp) = true /\
  init_altitude (tick s inp) = None /\
  postition_hold (tick s inp) = false /\
  tof_filter (tick s inp) = tof_filter s /\
  (forall inps, LANDING (run (tick s inp) inps) = true) /\
  (TAKEOFF s = false ->
   forall hover, cancel_gravity_value s = Some hover ->
                 throttle (CMDS (tick s inp)) = hover - 50) /\
  (TAKEOFF s = true ->
   TAKEOFF (tick s inp) = true /\ TAKEOFF_LIST (tick s inp) = TAKEOFF_LIST s /\
   throttle (CMDS (tick s inp)) = -30).
Proof.
  intros Hm.
  destruct (landing_request_tick s inp Hm) as [H1 [H2 [H3 [H4 [H6 [H7 H8]]]]]].
  split; [exact H1 |]. split; [exact H2 |]. split; [exact H3 |]. split; [exact H4 |].
  split; [intros inps; apply landing_latched_run, H1 |]. split.
  - intros Ht hover Hc. rewrite H6. unfold landing_request_throttle. rewrite Ht, Hc.
    reflexivity.
  - intros Ht. rewrite H7, H8, H6. unfold landing_request_throttle. rewrite Ht. auto.
Qed.

(** ** Before a reference altitude is latched *)

Ltac open_idle H :=
  unfold idle_at in H; simpl in H;
  let Hc := fresh "Hc" in
  destruct H as [? [? [Hc [? [? [? [? [? [? ?]]]]]]]]];
  unfold default_command in Hc; injection Hc as ? ? ?;
  subst.

Ltac solve_idle :=
  unfold idle_at, default_command; simpl;
  repeat split;
  first [reflexivity | assumption | cbv [truthy truthy_num negb]; use_eqs; reflexivity].

Ltac close_idle := do 2 eexists; split; [reflexivity | solve_idle].

Ltac split_falsy :=
  match goal with
  | H : truthy ?v = false |- _ =>
      let x := fresh "x" in
      destruct v as [x |];
      [cbv [truthy truthy_num negb] in H; destruct (Reqb x 0) eqn:?;
       [clear H | discriminate H]
      | clear H]
  end.

Lemma idle_reset_commands s :
  TAKEOFF s = true -> truthy (init_altitude s) = false ->
  exists a s', reset_commands s = (Normal a, s') /\
    idle_at (tof_filter s) (KFXY s) (TAKEOFF_LIST s) (outbox s) (value_available s)
      (postition_hold s) (altitude_sensor s) s'.
Proof.
  intros Ht Hi. destruct_state s. simpl in Ht, Hi. subst.
  red_loop. close_idle.
Qed.

Lemma idle_read_mode k kxy L B V h a inp s :
  idle_at k kxy L B V h a s ->
  exists u s', read_mode inp s = (Normal u, s') /\
    idle_at k kxy L B V (match mode_msg inp with Some b => b | None => h end) a s'.
Proof.
  intros H. destruct_state s. destruct inp as [mm im tm fm c1 c2 c3 c4].
  open_idle H. destruct mm as [[|] |]; red_loop; close_idle.
Qed.

Lemma idle_read_imu k kxy L B V h a inp s :
  idle_at k kxy L B V h a s ->
  exists u s', read_imu inp s = (Normal u, s') /\ idle_at k kxy L B V h a s'.
Proof.
  intros H. destruct_state s. destruct inp as [mm im tm fm c1 c2 c3 c4].
  open_idle H. destruct im as [[[i b] t] |]; red_loop; close_idle.
Qed.

Lemma idle_hold_reset k kxy L B V h a s :
  idle_at k kxy L B V h a s -> h && truthy a = false ->
  exists u s', hold_reset s = (Normal u, s') /\ idle_at k kxy L B V h a s'.
Proof.
  intros H Hh. destruct_state s. open_idle H.
  destruct h; simpl in Hh; [split_falsy |]; red_loop; use_eqs; red_loop; close_idle.
Qed.

Lemma idle_vertical_control k kxy L B V h a s :
  idle_at k kxy L B V h a s ->
  exists u s', vertical_control s = (Normal u, s') /\ idle_at k kxy L B V h a s'.
Proof.
  intros H. destruct_state s. open_idle H.
  split_falsy; red_loop; use_eqs; red_loop; close_idle.
Qed.

Lemma idle_landing k kxy L B V h a s :
  idle_at k kxy L B V h a s ->
  exists u s', landing s = (Normal u, s') /\ idle_at k kxy L B V h a s'.
Proof. intros H. destruct_state s. open_idle H. red_loop. close_idle. Qed.

Lemma idle_read_tof k kxy L B V h a inp s :
  idle_at k kxy L B V h a s ->
  exists u s', read_tof inp s = (Normal u, s') /\
    idle_at k kxy L B V h
      (match tof_msg inp with Some (raw, _) => Some raw | None => a end) s'.
Proof.
  intros H. destruct_state s. destruct inp as [mm im tm fm c1 c2 c3 c4].
  open_idle H. destruct tm as [[raw t] |];
    split_falsy; red_loop; use_eqs; red_loop; close_idle.
Qed.

Lemma idle_horizontal_control k kxy L B V h a inp s :
  idle_at k kxy L B V h a s ->
  exists u s', horizontal_control inp s = (Normal u, s') /\ idle_at k kxy L B V h a s'.
Proof. intros H. destruct_state s. open_idle H. red_loop. close_idle. Qed.

Lemma idle_publish k kxy L B V h a inp s :
  idle_at k kxy L B V h a s ->
  exists u s', bind publish (fun _ => end_of_tick inp) s = (Normal u, s') /\
    idle_at k kxy L (if V && negb (poll B) then B ++ [default_command] else B)
      (V && poll B) h a s' /\
    prev_time s' = clock_end inp.
Proof.
  intros H. destruct_state s. destruct inp as [mm im tm fm c1 c2 c3 c4]. open_idle H.
  destruct V; destruct B as [| c B]; red_loop;
    (do 2 eexists; split; [reflexivity | split; [solve_idle | reflexivity]]).
Qed.

Lemma bind_completes {A B} (m : M A) (k : A -> M B) s a s' :
  m s = (Normal a, s') -> bind m k s = k a s'.
Proof. intros E. unfold bind. rewrite E. reflexivity. Qed.

Lemma idle_tick s inp :
  TAKEOFF s = true -> truthy (init_altitude s) = false ->
  hold_flag s inp && truthy (altitude_sensor s) = false ->
  exists s',
    loop_body inp s = (Normal tt, s') /\
    idle_at (tof_filter s) (KFXY s) (TAKEOFF_LIST s) (outbox_after s default_command)
      (value_available s && poll (outbox s)) (hold_flag s inp) (reading_after s inp) s' /\
    prev_time s' = clock_end inp.
Proof.
  intros Ht Hi Hh. unfold loop_body, compute_commands.
  destruct (idle_reset_commands s Ht Hi) as [[] [s1 [E1 H1]]].
  destruct (idle_read_mode _ _ _ _ _ _ _ inp s1 H1) as [[] [s2 [E2 H2]]].
  destruct (idle_read_imu _ _ _ _ _ _ _ inp s2 H2) as [[] [s3 [E3 H3]]].
  destruct (idle_hold_reset _ _ _ _ _ _ _ s3 H3 Hh) as [[] [s4 [E4 H4]]].
  destruct (idle_vertical_control _ _ _ _ _ _ _ s4 H4) as [[] [s5 [E5 H5]]].
  destruct (idle_landing _ _ _ _ _ _ _ s5 H5) as [[] [s6 [E6 H6]]].
  destruct (idle_read_tof _ _ _ _ _ _ _ inp s6 H6) as [[] [s7 [E7 H7]]].
  destruct (idle_horizontal_control _ _ _ _ _ _ _ inp s7 H7) as [[] [s8 [E8 H8]]].
  destruct (idle_publish _ _ _ _ _ _ _ inp s8 H8) as [[] [s9 [E9 [H9 Hc]]]].
  exists s9. split; [| split; [exact H9 | exact Hc]].
  rewrite (bind_completes _ _ s tt s8); [exact E9 |].
  rewrite (bind_completes _ _ s tt s1 E1).
  rewrite (bind_completes _ _ s1 tt s2 E2).
  rewrite (bind_completes _ _ s2 tt s3 E3).
  rewrite (bind_completes _ _ s3 tt s4 E4).
  rewrite (bind_completes _ _ s4 tt s5 E5).
  rewrite (bind_completes _ _ s5 tt s6 E6).
  rewrite (bind_completes _ _ s6 tt s7 E7).
  exact E8.
Qed.

(** X13.  With no reference altitude latched during takeoff (before the
    hold signal, while a hold request waits for a reading, or after a
    landing request) the iteration completes with the default command
    (throttle -30, roll 0, pitch 0): no filter is touched, the profile is
    kept, a waiting range sample is only stored.  If a command computed
    earlier was held back, this default command is what gets published. *)
Theorem idle_without_reference s inp :
  TAKEOFF s = true -> truthy (init_altitude s) = false ->
  hold_flag s inp && truthy (altitude_sensor s) = false ->
  tick_outcome s inp = Normal tt /\
  CMDS (tick s inp) = default_command /\
  outbox (tick s inp) = outbox_after s default_command /\
  tof_filter (tick s inp) = tof_filter s /\
  KFXY (tick s inp) = KFXY s /\
  TAKEOFF (tick s inp) = true /\
  TAKEOFF_LIST (tick s inp) = TAKEOFF_LIST s /\
  truthy (init_altitude (tick s inp)) = false /\
  postition_hold (tick s inp) = hold_flag s inp /\
  altitude_sensor (tick s inp) = reading_after s inp /\
  prev_time (tick s inp) = clock_end inp.
Proof.
  intros Ht Hi Hh.
  destruct (idle_tick s inp Ht Hi Hh)
    as [s' [E [[H1 [H2 [H3 [H4 [H5 [H6 [H7 [H8 [H9 H10]]]]]]]]] Hc]]].
  unfold tick, tick_outcome. rewrite E. simpl. auto 15.
Qed.

(** ** A hold request that waits for a reading *)

Lemma hold_reset_fires s inp a :
  hold_flag s inp = true -> altitude_sensor s = Some a -> a <> 0 ->
  tick_outcome s inp = Continued /\
  init_altitude (tick s inp) = Some a /\
  prev_altitude_sensor (tick s inp) = Some a /\
  kf_x (tof_filter (tick s inp)) = [a; 0] /\
  postition_hold (tick s inp) = false.
Proof.
  intros Hflag Hsensor Ha.
  destruct_state s. destruct inp as [mm im tm fm c1 c2 c3 c4].
  unfold hold_flag in Hflag. simpl in Hflag, Hsensor. subst.
  assert (Hz : Reqb a 0 = false) by (apply Reqb_false; exact Ha).
  unfold tick, tick_outcome, loop_body, compute_commands.
  match goal with |- context [bind hold_reset ?k] => generalize k end.
  intros rest.
  generalize (fun _ : unit => bind publish (fun _ : unit => end_of_tick
    {| mode_msg := mm; imu_msg := im; tof_msg := tm; flow_msg := fm;
       clock_imu := c1; clock_tof := c2; clock_of := c3; clock_end := c4 |})).
  intros rest'.
  destruct mm as [[|] |]; try discriminate; simpl in Hflag; subst;
    destruct im as [[[i v] t] |];
    red_loop; repeat (first [rewrite Hz | split_stuck]; red_loop);
    repeat split; reflexivity.
Qed.

(** X14.  A hold request that finds no usable range reading stays pending:
    the tick that receives it (or still holds it) together with a non-zero
    range sample only stores the sample, and the next tick, unless it
    receives the landing request, latches that sample as the reference,
    hard-sets the vertical filter to it, clears the request and
    [continue]s. *)
Theorem hold_request_waits_for_reading s inp inp' raw t :
  TAKEOFF s = true -> truthy (init_altitude s) = false ->
  hold_flag s inp = true -> truthy (altitude_sensor s) = false ->
  tof_msg inp = Some (raw, t) -> raw <> 0 ->
  mode_msg inp' <> Some false ->
  tick_outcome s inp = Normal tt /\
  postition_hold (tick s inp) = true /\
  altitude_sensor (tick s inp) = Some raw /\
  truthy (init_altitude (tick s inp)) = false /\
  tof_filter (tick s inp) = tof_filter s /\
  tick_outcome (tick s inp) inp' = Continued /\
  init_altitude (tick (tick s inp) inp') = Some raw /\
  kf_x (tof_filter (tick (tick s inp) inp')) = [raw; 0] /\
  postition_hold (tick (tick s inp) inp') = false.
Proof.
  intros Ht Hi Hf Ha Hm Hr Hm'.
  assert (Hh : hold_flag s inp && truthy (altitude_sensor s) = false)
    by (rewrite Ha; apply andb_false_r).
  destruct (idle_tick s inp Ht Hi Hh)
    as [s' [E [[H1 [H2 [H3 [H4 [H5 [H6 [H7 [H8 [H9 H10]]]]]]]]] Hc]]].
  unfold reading_after in H10. rewrite Hm in H10. rewrite Hf in H9.
  assert (Hf' : hold_flag s' inp' = true).
  { unfold hold_flag. destruct (mode_msg inp') as [[|] |]; [reflexivity | | exact H9].
    exfalso. apply Hm'. reflexivity. }
  destruct (hold_reset_fires s' inp' raw Hf' H10 Hr) as [G1 [G2 [_ [G3 G4]]]].
  unfold tick at 1 2 3 4 5, tick_outcome at 1. rewrite E.
  replace (tick s inp) with s' by (unfold tick; rewrite E; reflexivity).
  simpl. auto 15.
Qed.

(** ** What holds at every iteration boundary *)

Lemma skipn_step {A} (l : list A) : forall k x rest,
  skipn k l = x :: rest -> skipn (S k) l = rest.
Proof.
  induction l as [| y l IH]; intros k x rest H.
  - rewrite skipn_nil in H. discriminate.
  - destruct k as [| k]; simpl in *.
    + injection H as _ H. exact H.
    + apply (IH k x rest H).
Qed.

Ltac wf_frame :=
  preserves_all; intros s H;
  first [ exact H
        | destruct H as [H1 [H2 [H3 [H4 H5]]]];
          unfold well_formed; simpl; repeat split; auto;
          first [apply H4; assumption | apply H5; assumption] ].

Lemma well_formed_before n inp :
  preserves (well_formed n)
    (bind reset_commands (fun _ =>
     bind (read_mode inp) (fun _ =>
     bind (read_imu inp) (fun _ => hold_reset)))).
Proof.
  unfold reset_commands, read_mode, read_imu, hold_reset, emit. wf_frame.
Qed.

Lemma well_formed_predict n :
  transforms (well_formed n) vertical_predict (fun s => well_formed n s /\ predicted s).
Proof.
  intros s [H1 [H2 [H3 [H4 H5]]]]. destruct_state s.
  unfold well_formed, predicted in *. simpl in *. red_loop. simpl.
  repeat split; auto; first [apply H4; assumption | apply H5; assumption].
Qed.

Lemma well_formed_takeoff_step n :
  transforms (fun s => well_formed n s /\ predicted s) takeoff_step (well_formed n).
Proof.
  intros s [[H1 [H2 [[k H3] [H4 H5]]]] [P1 [P2 P3]]].
  destruct (TAKEOFF_LIST s) as [| fraction rest] eqn:EL;
    destruct (TAKEOFF_THRUST s) as [thrust |] eqn:ET;
    destruct_state s; unfold well_formed, predicted in *; cbn [TAKEOFF_LIST
      TAKEOFF_THRUST TAKEOFF init_x init_y altitude velocity
      dt cancel_gravity_value] in *;
    rewrite EL, ET; red_loop;
    cbn [TAKEOFF_LIST TAKEOFF_THRUST TAKEOFF init_x init_y
         altitude velocity dt cancel_gravity_value is_bound length];
    repeat split;
    try match goal with
        | Hf : _ = false |- _ => destruct (H4 Hf) as [Hnil _]; discriminate Hnil
        end;
    try assumption; try reflexivity;
    try (apply H5; assumption); try (apply H4; assumption);
    try (exists k; exact H3).
  exists (S k). symmetry. apply (skipn_step _ _ _ _ (eq_sym H3)).
Qed.

Lemma well_formed_throttle n d : preserves (well_formed n) (throttle_control d).
Proof. unfold throttle_control. wf_frame. Qed.

Lemma well_formed_vertical_control n : preserves (well_formed n) vertical_control.
Proof.
  unfold vertical_control.
  apply preserves_bind; [apply preserves_get | intros reference].
  apply preserves_when.
  eapply transforms_bind with (Mid := fun s => well_formed n s /\ predicted s);
    [apply well_formed_predict | tauto | intros d].
  eapply transforms_bind with (Mid := fun s => well_formed n s /\ predicted s);
    [intros s H; exact H | tauto | intros takeoff].
  eapply transforms_bind with (Mid := well_formed n); [| auto |].
  - destruct takeoff; [apply well_formed_takeoff_step | intros s H; apply H].
  - intros _. apply preserves_bind; [apply preserves_get | intros takeoff'].
    apply preserves_when, well_formed_throttle.
Qed.

Lemma well_formed_after n inp :
  preserves (well_formed n)
    (bind landing (fun _ =>
     bind (read_tof inp) (fun _ => horizontal_control inp))).
Proof.
  unfold landing, read_tof, horizontal_control, read_flow, attitude_control,
    debug_prints, emit.
  wf_frame.
Qed.

Lemma well_formed_publish n inp :
  preserves (well_formed n) (bind publish (fun _ => end_of_tick inp)).
Proof. unfold publish, end_of_tick, emit. wf_frame. Qed.

Lemma preserves_assoc {A B C} I (m : M A) (f : A -> M B) (g : B -> M C) :
  preserves I (bind m (fun a => bind (f a) g)) -> preserves I (bind (bind m f) g).
Proof. intros H s Hs. rewrite bind_assoc. apply H, Hs. Qed.

Lemma well_formed_tick n s inp : well_formed n s -> well_formed n (tick s inp).
Proof.
  revert s. change (preserves (well_formed n) (loop_body inp)).
  unfold loop_body. apply preserves_bind; [| intros _; apply well_formed_publish].
  assert (Hb := well_formed_before n inp). assert (Ha := well_formed_after n inp).
  assert (Hv := well_formed_vertical_control n).
  unfold compute_commands. intros s Hs.
  specialize (Hb s Hs). revert Hb. unfold bind at 1 2 3 4 5 6 7 8 9 10.
  destruct (reset_commands s) as [[[] | e |] s1]; simpl; auto.
  destruct (read_mode inp s1) as [[[] | e |] s2]; simpl; auto.
  destruct (read_imu inp s2) as [[[] | e |] s3]; simpl; auto.
  destruct (hold_reset s3) as [[[] | e |] s4]; simpl; auto.
  intros H4. specialize (Hv s4 H4).
  destruct (vertical_control s4) as [[[] | e |] s5]; simpl in *; auto.
  apply (Ha s5 Hv).
Qed.

Lemma well_formed_init n t0 : well_formed n (init_state n t0).
Proof.
  unfold well_formed. simpl. repeat split; try discriminate.
  - exists 0%nat. reflexivity.
  - rewrite length_takeoff_list in H. lia.
  - rewrite length_takeoff_list in H. lia.
Qed.

Lemma reachable_well_formed n t0 s : reachable n t0 s -> well_formed n s.
Proof.
  intros Hr. induction Hr as [| s inp _ IH | s _ IH].
  - apply well_formed_init.
  - apply well_formed_tick, IH.
  - exact IH.
Qed.

(** X15.  At every iteration boundary of a flight: the horizontal origin
    [init_x], [init_y] is (0, 0); [TAKEOFF_LIST] is a suffix of the initial
    profile; once [TAKEOFF] is cleared the profile is empty and [altitude],
    [velocity] and [dt] are bound; and once a fraction has been consumed the
    thrust constant and the hover throttle [cancel_gravity_value] are bound,
    so outside takeoff (with a profile that is not empty) the landing branch
    and the hover feed-forward never meet an unbound name. *)
Theorem reachable_state_invariants n t0 s :
  reachable n t0 s ->
  init_x s = 0 /\ init_y s = 0 /\
  (exists k, TAKEOFF_LIST s = skipn k (takeoff_list n)) /\
  (TAKEOFF s = false ->
   TAKEOFF_LIST s = [] /\ is_bound (altitude s) = true /\
   is_bound (velocity s) = true /\ is_bound (dt s) = true) /\
  ((length (TAKEOFF_LIST s) < n)%nat ->
   is_bound (cancel_gravity_value s) = true /\ is_bound (TAKEOFF_THRUST s) = true) /\
  (TAKEOFF s = false -> (0 < n)%nat -> is_bound (cancel_gravity_value s) = true).
Proof.
  intros Hr. destruct (reachable_well_formed n t0 s Hr) as [H1 [H2 [H3 [H4 H5]]]].
  repeat (split; [assumption |]).
  intros Ht Hn. destruct (H4 Ht) as [Hnil _]. apply H5. rewrite Hnil. exact Hn.
Qed.

(** ** The hover throttle *)

Lemma hover_fixed_takeoff_step c : preserves (hover_fixed c) takeoff_step.
Proof.
  intros s [HL Hc]. destruct_state s. unfold hover_fixed in *. simpl in *. subst.
  red_loop. auto.
Qed.

Lemma hover_fixed_tick c s inp : hover_fixed c s -> hover_fixed c (tick s inp).
Proof.
  revert s. change (preserves (hover_fixed c) (loop_body inp)).
  assert (Ht := hover_fixed_takeoff_step c).
  unfold loop_body, compute_commands, reset_commands, read_mode, read_imu, hold_reset,
    vertical_control, vertical_predict, throttle_control, landing,
    read_tof, horizontal_control, read_flow, attitude_control, debug_prints, publish,
    end_of_tick, emit.
  repeat first [ exact Ht | preserves_step ]; intros s H; exact H.
Qed.

Lemma hover_fixed_run c inps : forall s, hover_fixed c s -> hover_fixed c (run s inps).
Proof.
  induction inps as [| inp inps IH]; intros s H; simpl; [exact H |].
  apply IH, hover_fixed_tick, H.
Qed.

Lemma run_app s l1 l2 : run s (l1 ++ l2) = run (run s l1) l2.
Proof. unfold run. apply fold_left_app. Qed.

Lemma takeoff_list_last m : skipn m (takeoff_list (S m)) = [takeoff_fraction m].
Proof.
  unfold takeoff_list. rewrite skipn_map, skipn_seq.
  replace (S m - m)%nat with 1%nat by lia. reflexivity.
Qed.

Lemma ramp_sets_hover v m s inps :
  ramp_at v (takeoff_list (S m)) s ->
  Forall (uninterrupted v) inps ->
  length inps = S m ->
  hover_fixed (takeoff_fraction m * IZR (takeoff_thrust v)) (run s inps).
Proof.
  intros Hat Hall Hlen.
  rewrite <- (firstn_skipn m inps) in Hall |- *.
  apply Forall_app in Hall. destruct Hall as [Hfirst Hlast].
  assert (Hl1 : length (firstn m inps) = m) by (rewrite length_firstn; lia).
  destruct (commanded_ramp v (firstn m inps) (takeoff_list (S m)) s Hat Hfirst) as [_ Hr].
  { rewrite Hl1, length_takeoff_list. lia. }
  rewrite Hl1, takeoff_list_last in Hr.
  destruct (skipn m inps) as [| inp [| inp' more]] eqn:E.
  - apply (f_equal (@length _)) in E. rewrite length_skipn in E. simpl in E. lia.
  - rewrite run_app. simpl. inversion Hlast as [| ? ? Hu _]; subst.
    destruct (ramp_tick v _ _ _ inp Hr Hu) as [[_ HL] [_ Hc]].
    split; assumption.
  - apply (f_equal (@length _)) in E. rewrite length_skipn in E. simpl in E. lia.
Qed.

(** X16.  The hover throttle is the last throttle of the ramp: after the
    [n] uninterrupted ticks of a ramp over [n >= 1] fractions,
    [cancel_gravity_value] is [(1 - 1/e^(n-1)) * thrust], and no later
    iteration, whatever it receives, changes it. *)
Theorem hover_throttle_is_last_ramp_throttle v m s inps :
  ramp_at v (takeoff_list (S m)) s ->
  Forall (uninterrupted v) inps ->
  length inps = S m ->
  cancel_gravity_value (run s inps)
    = Some (takeoff_fraction m * IZR (takeoff_thrust v)) /\
  (forall more,
     cancel_gravity_value (run (run s inps) more)
       = Some (takeoff_fraction m * IZR (takeoff_thrust v))).
Proof.
  intros Hat Hall Hlen.
  assert (H := ramp_sets_hover v m s inps Hat Hall Hlen).
  split; [apply H |]. intros more. apply (hover_fixed_run _ more _ H).
Qed.

(** ** The inertial readings never reach the commands *)

Lemma sim_bind {A B} (RA : A -> A -> Prop) (RB : B -> B -> Prop)
    (m1 m2 : M A) (k1 k2 : A -> M B) :
  sim RA m1 m2 -> (forall a1 a2, RA a1 a2 -> sim RB (k1 a1) (k2 a2)) ->
  sim RB (bind m1 k1) (bind m2 k2).
Proof.
  intros Hm Hk s1 s2 H. unfold bind.
  destruct (Hm s1 s2 H) as [Hf Ha].
  destruct (m1 s1) as [[a1 | e1 |] t1], (m2 s2) as [[a2 | e2 |] t2];
    simpl in Hf, Ha; try contradiction; simpl.
  - apply (Hk a1 a2 Hf), Ha.
  - split; [exact Hf | exact Ha].
  - split; [exact I | exact Ha].
Qed.

Lemma sim_bind_eq {A B} (RB : B -> B -> Prop) (m1 m2 : M A) (k1 k2 : A -> M B) :
  sim eq m1 m2 -> (forall a, sim RB (k1 a) (k2 a)) -> sim RB (bind m1 k1) (bind m2 k2).
Proof. intros Hm Hk. apply (sim_bind eq RB); [exact Hm | intros a ? <-; apply Hk]. Qed.

Lemma sim_ret {A} (a : A) : sim eq (ret a) (ret a).
Proof. intros s1 s2 H. split; [reflexivity | exact H]. Qed.

Lemma sim_raise {A} (RA : A -> A -> Prop) e : sim RA (raise e) (raise e).
Proof. intros s1 s2 H. split; [reflexivity | exact H]. Qed.

Lemma sim_continue : sim eq continue continue.
Proof. intros s1 s2 H. split; [exact I | exact H]. Qed.

Lemma sim_get {A} (f : State -> A) :
  (forall s, f (without_inertial s) = f s) -> sim eq (get f) (get f).
Proof.
  intros Hf s1 s2 H. split; [| exact H].
  simpl. rewrite <- (Hf s1), <- (Hf s2), H. reflexivity.
Qed.

Lemma sim_get_imu :
  sim (fun i1 i2 => attitude_only i1 = attitude_only i2) (get imu) (get imu).
Proof. intros s1 s2 H. split; [| exact H]. exact (f_equal imu H). Qed.

Lemma sim_bound {A} (f : State -> option A) e :
  (forall s, f (without_inertial s) = f s) -> sim eq (bound f e) (bound f e).
Proof.
  intros Hf s1 s2 H. unfold bound.
  assert (E : f s1 = f s2) by (rewrite <- (Hf s1), <- (Hf s2), H; reflexivity).
  rewrite E. destruct (f s2); (split; [reflexivity | exact H]).
Qed.

Lemma sim_modify (g1 g2 : State -> State) :
  (forall s, without_inertial (g1 s) = without_inertial (g2 (without_inertial s))) ->
  (forall s, without_inertial (g2 s) = without_inertial (g2 (without_inertial s))) ->
  sim eq (modify g1) (modify g2).
Proof.
  intros H1 H2 s1 s2 H. split; [reflexivity |].
  simpl. rewrite (H1 s1), (H2 s2), H. reflexivity.
Qed.

Lemma sim_when b (m1 m2 : M unit) : sim eq m1 m2 -> sim eq (when b m1) (when b m2).
Proof. intros Hm. destruct b; simpl; [exact Hm | apply sim_ret]. Qed.

Lemma sim_truncate_quotient num den :
  sim eq (truncate_quotient num den) (truncate_quotient num den).
Proof.
  unfold truncate_quotient.
  destruct (Reqb den 0); [destruct (Reqb num 0) |];
    first [apply sim_raise | apply sim_ret].
Qed.

Ltac sim_step :=
  lazymatch goal with
  | |- sim _ (bind (get imu) _) (bind (get imu) _) =>
      let i1 := fresh "i" in let i2 := fresh "i" in let Hi := fresh "Hi" in
      apply (sim_bind _ _ _ _ _ _ sim_get_imu); intros i1 i2 Hi;
      destruct i1, i2; cbv [attitude_only att_roll att_pitch] in Hi;
      injection Hi as -> ->;
      cbv [correct_altitude mount_offset tilt att_roll att_pitch
           accX accY]
  | |- sim _ (bind _ _) (bind _ _) => apply sim_bind_eq; [| intros ]
  | |- sim _ (ret _) (ret _) => apply sim_ret
  | |- sim _ (raise _) (raise _) => apply sim_raise
  | |- sim _ continue continue => apply sim_continue
  | |- sim _ (get _) (get _) => apply sim_get; intros ?; reflexivity
  | |- sim _ (bound _ _) (bound _ _) => apply sim_bound; intros ?; reflexivity
  | |- sim _ (when _ _) (when _ _) => apply sim_when
  | |- sim _ (truncate_quotient _ _) (truncate_quotient _ _) =>
      apply sim_truncate_quotient
  | |- sim _ (modify _) (modify _) => apply sim_modify; intros ?; reflexivity
  | |- sim _ (match ?x with _ => _ end) _ => destruct x
  | |- sim _ (if ?x then _ else _) _ => destruct x
  | |- sim _ (let (_, _) := ?x in _) _ => destruct x
  end.

Lemma sim_loop_body inp1 inp2 :
  inputs_without_inertial inp1 = inputs_without_inertial inp2 ->
  sim eq (loop_body inp1) (loop_body inp2).
Proof.
  intros H.
  destruct inp1 as [mode1 sample1 range1 flow1 c1 c2 c3 c4].
  destruct inp2 as [mode2 sample2 range2 flow2 d1 d2 d3 d4].
  cbv [inputs_without_inertial mode_msg imu_msg tof_msg flow_msg
       clock_imu clock_tof clock_of clock_end] in H.
  injection H as -> Hs -> -> -> -> -> ->.
  unfold loop_body, compute_commands, reset_commands, read_mode, read_imu, hold_reset,
    vertical_control, vertical_predict, takeoff_step, throttle_control, landing,
    read_tof, horizontal_control, read_flow, attitude_control, debug_prints, publish,
    end_of_tick, emit.
  cbv [mode_msg imu_msg tof_msg flow_msg
       clock_imu clock_tof clock_of clock_end].
  destruct sample1 as [[[i1 v1] t1] |], sample2 as [[[i2 v2] t2] |];
    try discriminate Hs.
  - injection Hs as Hr Hp -> ->. destruct i1, i2.
    cbv [att_roll att_pitch] in Hr, Hp. subst.
    repeat sim_step.
  - repeat sim_step.
Qed.

Lemma sim_tick s1 s2 inp1 inp2 :
  without_inertial s1 = without_inertial s2 ->
  inputs_without_inertial inp1 = inputs_without_inertial inp2 ->
  tick_outcome s1 inp1 = tick_outcome s2 inp2 /\
  without_inertial (tick s1 inp1) = without_inertial (tick s2 inp2).
Proof.
  intros Hs Hi. destruct (sim_loop_body inp1 inp2 Hi s1 s2 Hs) as [Hf Ht].
  split; [| exact Ht]. unfold tick_outcome.
  destruct (fst (loop_body inp1 s1)) as [[] | e1 |],
           (fst (loop_body inp2 s2)) as [[] | e2 |];
    simpl in Hf; try contradiction; congruence.
Qed.

Lemma sim_run inps1 : forall inps2 s1 s2,
  without_inertial s1 = without_inertial s2 ->
  map inputs_without_inertial inps1 = map inputs_without_inertial inps2 ->
  without_inertial (run s1 inps1) = without_inertial (run s2 inps2).
Proof.
  induction inps1 as [| inp1 inps1 IH]; intros [| inp2 inps2] s1 s2 Hs Hi;
    try discriminate Hi; [exact Hs |].
  simpl in Hi.
  assert (Hrest := f_equal (@tl _) Hi).
  assert (Hhead := f_equal (hd (inputs_without_inertial inp1)) Hi).
  simpl in Hrest, Hhead. simpl.
  apply IH; [| exact Hrest]. apply (sim_tick s1 s2 inp1 inp2 Hs Hhead).
Qed.

(** X17.  The accelerometer, gyro and yaw readings never reach the
    commands: two flights whose states and input streams agree on everything
    but those readings (and the control-input buffer [KFXY_u] computed from
    them) publish the same commands, make the same filter calls and end in
    states that agree on everything else.  The readings are finite numbers
    here (on an infinity or a NaN the [int] of [truncate] raises at lines
    250-251); the diagnostic prints, which show [KFXY_u], are not among what
    is compared. *)
Theorem inertial_readings_never_matter s1 s2 inps1 inps2 :
  without_inertial s1 = without_inertial s2 ->
  map inputs_without_inertial inps1 = map inputs_without_inertial inps2 ->
  outbox (run s1 inps1) = outbox (run s2 inps2) /\
  trace (run s1 inps1) = trace (run s2 inps2) /\
  CMDS (run s1 inps1) = CMDS (run s2 inps2) /\
  without_inertial (run s1 inps1) = without_inertial (run s2 inps2).
Proof.
  intros Hs Hi. assert (H := sim_run inps1 inps2 s1 s2 Hs Hi).
  split; [exact (f_equal outbox H) |].
  split; [exact (f_equal trace H) |].
  split; [exact (f_equal CMDS H) | exact H].
Qed.

(** ** The tick that ends the takeoff and publishes the first hold command *)

Lemma tick_prev_time s inp :
  prev_time (tick s inp) = clock_end inp \/ prev_time (tick s inp) = prev_time s.
Proof.
  assert (Hclock := prev_time_compute_commands (prev_time s) inp s eq_refl).
  unfold tick, loop_body, bind in *.
  destruct (compute_commands inp s) as [[[] | e |] s1]; simpl in *; auto.
  left. unfold publish, end_of_tick, bind, get, when, modify, emit.
  destruct (value_available s1 && negb (poll (outbox s1))); reflexivity.
Qed.

Lemma ramp_landing_completes v f rest :
  completes (ramp_stepped v f rest) landing (ramp_stepped v f rest).
Proof.
  intros s H. destruct_state s. open_ramp.
  destruct H as [[[Ht [Hl [Hi [Hp Hth]]]] HL] [Hthr Hc]]. subst. red_loop.
  do 2 eexists. split; [reflexivity |]. auto 10.
Qed.

Lemma ramp_read_tof_stamps v f rest inp raw t :
  tof_msg inp = Some (raw, t) ->
  transforms (ramp_stepped v f rest) (read_tof inp)
    (fun s => TOF_Time s = t /\ is_bound (toft s) = true).
Proof.
  intros Hm s H. destruct_state s. destruct inp as [mm im tm fm c1 c2 c3 c4].
  open_ramp. destruct H as [[[Ht [Hl [Hi [Hp Hth]]]] HL] [Hthr Hc]]. subst.
  match goal with
  | H : truthy ?o = true |- _ => destruct o as [a |]; [| discriminate H];
                                 cbv [truthy truthy_num] in H
  end.
  destruct (Reqb a 0) eqn:E; [discriminate |].
  red_loop. rewrite E. exec_all; split; reflexivity.
Qed.

Lemma stamps_horizontal t inp :
  preserves (fun s => TOF_Time s = t /\ is_bound (toft s) = true)
    (horizontal_control inp).
Proof.
  unfold horizontal_control, read_flow, attitude_control, debug_prints, emit.
  preserves_all; intros s H; exact H.
Qed.

Lemma stamps_publish t inp :
  preserves (fun s => TOF_Time s = t /\ is_bound (toft s) = true)
    (bind publish (fun _ => end_of_tick inp)).
Proof. unfold publish, end_of_tick, emit. preserves_all; intros s H; exact H. Qed.

(** A ramp tick that finds a range sample stamps it, whatever the update
    does afterwards. *)
Lemma ramp_range_sample v f rest s inp raw t :
  ramp_at v (f :: rest) s -> uninterrupted v inp -> tof_msg inp = Some (raw, t) ->
  TOF_Time (tick s inp) = t /\ is_bound (toft (tick s inp)) = true.
Proof.
  intros H Hu Hm. revert s H.
  change (transforms (ramp_at v (f :: rest)) (loop_body inp)
            (fun s => TOF_Time s = t /\ is_bound (toft s) = true)).
  unfold loop_body.
  eapply transforms_bind
    with (Mid := fun s => TOF_Time s = t /\ is_bound (toft s) = true);
    [| auto | intros _; apply stamps_publish].
  unfold compute_commands.
  eapply completes_then_transforms; [apply ramp_reset_commands | intros _].
  eapply completes_then_transforms; [apply ramp_read_mode, Hu | intros _].
  eapply completes_then_transforms; [apply ramp_read_imu, Hu | intros _].
  eapply completes_then_transforms; [apply ramp_hold_reset | intros _].
  eapply completes_then_transforms; [apply ramp_vertical_control | intros _].
  eapply completes_then_transforms; [apply ramp_landing_completes | intros _].
  eapply transforms_bind
    with (Mid := fun s => TOF_Time s = t /\ is_bound (toft s) = true);
    [apply (ramp_read_tof_stamps v f rest inp raw t Hm) | auto |].
  intros _. apply stamps_horizontal.
Qed.

Lemma ramp_tick_horizontal v f rest s inp :
  ramp_at v (f :: rest) s -> uninterrupted v inp ->
  KFXY (tick s inp) = KFXY s /\ OF_TIME (tick s inp) = OF_TIME s /\
  KFXY_u (tick s inp) = KFXY_u s.
Proof.
  intros H Hu. destruct (ramp_tick v f rest s inp H Hu) as [[[Ht _] _] _].
  destruct (takeoff_skips_horizontal_step s inp Ht) as [H1 [_ [H3 [_ [_ [H6 _]]]]]].
  auto.
Qed.

Lemma ramp_run_horizontal v : forall inps L s,
  ramp_at v L s -> Forall (uninterrupted v) inps -> (length inps <= length L)%nat ->
  KFXY (run s inps) = KFXY s /\ OF_TIME (run s inps) = OF_TIME s /\
  KFXY_u (run s inps) = KFXY_u s.
Proof.
  induction inps as [| inp inps IH]; intros L s H Hall Hlen.
  - simpl. auto.
  - destruct L as [| f rest]; [simpl in Hlen; lia |].
    inversion Hall as [| ? ? Hu Hall']; subst.
    destruct (ramp_tick v f rest s inp H Hu) as [Hat _].
    destruct (ramp_tick_horizontal v f rest s inp H Hu) as [H1 [H2 H3]].
    destruct (IH rest (tick s inp) Hat Hall') as [H4 [H5 H6]]; [simpl in Hlen; lia |].
    simpl. rewrite H4, H5, H6. auto.
Qed.

(** The tick that finds the profile exhausted, with an IMU sample and a flow
    sample waiting, a range sample stamped earlier and the outbound pipe
    free: it ends the takeoff, runs the hold throttle and the horizontal
    step, completes and publishes its command. *)
Lemma takeoff_end_with_flow s inp i voltage t dx dy tf hover :
  TAKEOFF s = true -> TAKEOFF_LIST s = [] -> LANDING s = false ->
  postition_hold s = false -> truthy (init_altitude s) = true ->
  cancel_gravity_value s = Some hover -> is_bound (toft s) = true ->
  outbox s = [] -> prev_time s - TOF_Time s <> 0 ->
  mode_msg inp = None -> imu_msg inp = Some (i, voltage, t) ->
  tof_msg inp = None -> flow_msg inp = Some (dx, dy, tf) ->
  (forall estimate,
     kf_update (flow_measurement [dx; dy] estimate)
       (horizontal_matrices (prev_time s - OF_TIME s) (prev_time s - t) 0 (KFXY s))
     <> None) ->
  tick_outcome s inp = Normal tt /\
  TAKEOFF (tick s inp) = false /\ LANDING (tick s inp) = false /\
  imu (tick s inp) = i /\
  outbox (tick s inp) = [CMDS (tick s inp)] /\
  KFXY_u (tick s inp)
    = list_set 3 (truncate (9.81 * accY i * cos (att_roll i)))
        (list_set 2 (truncate (9.81 * accX i * cos (att_pitch i))) (KFXY_u s)).
Proof.
  intros H1 H2 H3 H4 H5 H6 H7 H8 Hd Hm Hi Ht Hf Hk.
  assert (Hd' : Reqb (prev_time s - TOF_Time s) 0 = false) by (apply Reqb_false; exact Hd).
  assert (Ha := takeoff_altitude_truthy).
  unfold tick, tick_outcome.
  destruct s as [tk ld prof ? ? ? ? ? ? ? ? ? ? ? ? ? ? ? ? ? ? ? hold ref [? ? ?]
                 ? ? ? tft ? ? hov ? ? box ?].
  destruct inp as [mm im tm fm c1 c2 c3 c4].
  simpl in H1, H2, H3, H4, H5, H6, H7, H8, Hd', Hm, Hi, Ht, Hf, Hk. subst. clear Hd.
  destruct ref as [a |]; [| discriminate H5]. cbv [truthy truthy_num] in H5.
  destruct (Reqb a 0) eqn:E; [discriminate H5 |]. clear H5.
  destruct tft as [stamp |]; [| discriminate H7]. clear H7.
  red_loop.
  repeat (first [ rewrite E | rewrite Hd' | rewrite Ha
                | match goal with
                  | |- context [pid_calc ?a ?b ?c ?d] => destruct (pid_calc a b c d)
                  | |- context [kf_update ?z ?k] =>
                      let Ek := fresh "Ek" in
                      destruct (kf_update z k) eqn:Ek; [| exfalso; exact (Hk _ Ek)]
                  | |- context [match ?x with _ => _ end] => is_var x; destruct x
                  end ]; red_loop).
  repeat split; reflexivity.
Qed.

Lemma takeoff_end_publishes s inp i voltage t dx dy tf hover :
  TAKEOFF s = true -> TAKEOFF_LIST s = [] -> LANDING s = false ->
  postition_hold s = false -> truthy (init_altitude s) = true ->
  cancel_gravity_value s = Some hover -> is_bound (toft s) = true ->
  (length (outbox s) <= 1)%nat -> prev_time s - TOF_Time s <> 0 ->
  mode_msg inp = None -> imu_msg inp = Some (i, voltage, t) ->
  tof_msg inp = None -> flow_msg inp = Some (dx, dy, tf) ->
  (forall estimate,
     kf_update (flow_measurement [dx; dy] estimate)
       (horizontal_matrices (prev_time s - OF_TIME s) (prev_time s - t) 0 (KFXY s))
     <> None) ->
  outbox (consume s) = [] /\
  tick_outcome (consume s) inp = Normal tt /\
  TAKEOFF (tick (consume s) inp) = false /\ LANDING (tick (consume s) inp) = false /\
  imu (tick (consume s) inp) = i /\
  outbox (tick (consume s) inp) = [CMDS (tick (consume s) inp)] /\
  KFXY_u (tick (consume s) inp)
    = list_set 3 (truncate (9.81 * accY i * cos (att_roll i)))
        (list_set 2 (truncate (9.81 * accX i * cos (att_pitch i))) (KFXY_u s)).
Proof.
  intros H1 H2 H3 H4 H5 H6 H7 H8 Hd Hm Hi Ht Hf Hk.
  assert (Hbox : outbox (consume s) = []).
  { clear - H8. destruct s as [? ? ? ? ? ? ? ? ? ? ? ? ? ? ? ? ? ? ? ? ? ? ? ? [? ? ?]
                               ? ? ? ? ? ? ? ? ? box ?].
    simpl in *. destruct box as [| c [| c' box]]; simpl in *; [reflexivity .. | lia]. }
  split; [exact Hbox |].
  apply (takeoff_end_with_flow (consume s) inp i voltage t dx dy tf hover);
    assumption.
Qed.

Lemma run_one s inp : run s [inp] = tick s inp.
Proof. reflexivity. Qed.

End Properties.


(* ------------------------------------------------------------------ *)
(** * The flight from start-up *)

Lemma takeoff_thrust_IZR (v : R) (k : Z) : 1015 - 60 * v = IZR k -> takeoff_thrust v = k.
Proof. intros H. unfold takeoff_thrust. rewrite H. apply py_int_IZR. Qed.

Lemma takeoff_fraction_0 : takeoff_fraction 0 = 0.
Proof. unfold takeoff_fraction. simpl. rewrite exp_0. lra. Qed.

Lemma takeoff_fraction_1_bounds : 1 / 2 < takeoff_fraction 1 < 1.
Proof.
  unfold takeoff_fraction. simpl.
  assert (H : 1 + 1 < exp 1) by (apply exp_ineq1; lra).
  assert (Hinv : 0 < / exp 1 < / 2).
  { split; [apply Rinv_0_lt_compat; lra |].
    apply Rinv_lt_contravar; lra. }
  lra.
Qed.

Ltac unfold_scenario :=
  unfold s_stale, s_ahead, s_ramp2, s_ramp1, s_latched, s_armed, s_start, arm, arm_ahead,
    quiet, TAKEOFF_LIST_LEN.

Lemma s_latched_reachable v : reachable TAKEOFF_LIST_LEN 0 (s_latched v).
Proof. unfold s_latched, s_armed, s_start. repeat constructor. Qed.

(** C1, counterexample.  With the battery at 10 V the thrust constant is
    [int(1015 - 600) = 415]; the second ramp tick of the flight publishes
    the throttle [(1 - 1/e) * 415 > 207], beyond
    [ABS_MAX_VALUE_THROTTLE = 150]. *)
Lemma takeoff_publishes_throttle_beyond_limit :
  reachable TAKEOFF_LIST_LEN 0 (consume (s_ramp1 10)) /\
  publishes (consume (s_ramp1 10)) (quiet 1.02)
    {| throttle := takeoff_fraction 1 * 415; roll := 0; pitch := 0 |} /\
  ABS_MAX_VALUE_THROTTLE < Rabs (takeoff_fraction 1 * 415) /\
  ~ within_limits {| throttle := takeoff_fraction 1 * 415; roll := 0; pitch := 0 |}.
Proof.
  assert (Hbig : ABS_MAX_VALUE_THROTTLE < Rabs (takeoff_fraction 1 * 415)).
  { destruct takeoff_fraction_1_bounds as [Hlo _].
    unfold ABS_MAX_VALUE_THROTTLE. rewrite Rabs_pos_eq; lra. }
  split; [| split; [| split]].
  - unfold s_ramp1. apply reach_consume, reach_tick, s_latched_reachable.
  - unfold publishes. unfold_scenario.
    do 3 eval_inner_tick. red_state. eval_inner_tick. red_state.
    rewrite (takeoff_thrust_IZR 10 415) by lra. reflexivity.
  - exact Hbig.
  - unfold within_limits. simpl. lra.
Qed.

(** C8, witness: the state after the first ramp tick of the flight. *)
Lemma backpressure_at_most_one_pending_witness :
  (length (outbox (s_ramp1 10)) <= 1)%nat /\
  (forall inps, (length (outbox (run (s_ramp1 10) inps)) <= 1)%nat) /\
  (forall inp, poll (outbox (s_ramp1 10)) = true ->
               outbox (tick (s_ramp1 10) inp) = outbox (s_ramp1 10)).
Proof.
  exact (backpressure_at_most_one_pending TAKEOFF_LIST_LEN 0 (s_ramp1 10)
           (reach_tick _ _ _ _ (s_latched_reachable 10))).
Defined.

Lemma s_armed_fields v :
  altitude_sensor (s_armed v) = Some 0.11 /\ postition_hold (s_armed v) = true /\
  TAKEOFF (s_armed v) = true.
Proof. unfold_scenario. eval_inner_tick. red_state. auto. Qed.

(** C3, counterexample.  (1) The hold signal arrives in a hold state that
    holds a range reading and whose horizontal estimate is (0.4, -0.2): after
    the tick the origin [init_x], [init_y] is still (0, 0), not the
    estimate.  (2) At start-up the signal arrives with a reading held, and
    the tick after the re-latch is a takeoff ramp tick, not a hold tick. *)
Lemma hold_reset_keeps_horizontal_origin :
  (hold_flag s_drifted (hold_signal 2) = true /\
   altitude_sensor s_drifted = Some 0.11 /\
   vget 0 (kf_x (KFXY (tick s_drifted (hold_signal 2)))) = 0.4 /\
   vget 1 (kf_x (KFXY (tick s_drifted (hold_signal 2)))) = -0.2 /\
   init_x (tick s_drifted (hold_signal 2)) = 0 /\
   init_y (tick s_drifted (hold_signal 2)) = 0 /\
   init_x (tick s_drifted (hold_signal 2))
     <> vget 0 (kf_x (KFXY (tick s_drifted (hold_signal 2))))) /\
  (hold_flag (s_armed 10) (quiet 1) = true /\
   altitude_sensor (s_armed 10) = Some 0.11 /\
   flight_phase (tick (s_latched 10) (quiet 1.01)) = PhaseTakeoff).
Proof.
  split.
  - split; [cbv [hold_flag hold_signal mode_msg]; reflexivity |].
    unfold s_drifted, hold_signal. unfold_scenario. do 2 eval_inner_tick. red_state.
    eval_inner_tick. red_state. cbv [vget nth kf_x kf_with_x].
    repeat split; try reflexivity. lra.
  - destruct (s_armed_fields 10) as [Ha [Hp _]].
    split; [| split]; [| exact Ha |].
    + cbv [hold_flag quiet mode_msg]. exact Hp.
    + unfold flight_phase. unfold_scenario. do 3 eval_inner_tick. red_state. reflexivity.
Qed.

(** C3, witness: the re-latch of the flight's second iteration. *)
Lemma hold_reset_relatches_vertical_only_witness :
  hold_flag (s_armed 10) (quiet 1) = true /\
  altitude_sensor (s_armed 10) = Some 0.11 /\
  (0.11 : R) <> 0 /\
  tick_outcome (s_armed 10) (quiet 1) = Continued /\
  kf_x (tof_filter (s_latched 10)) = [0.11; 0] /\
  init_altitude (s_latched 10) = Some 0.11 /\
  prev_altitude_sensor (s_latched 10) = Some 0.11 /\
  postition_hold (s_latched 10) = false /\
  init_x (s_latched 10) = init_x (s_armed 10) /\
  init_y (s_latched 10) = init_y (s_armed 10) /\
  KFXY (s_latched 10) = KFXY (s_armed 10) /\
  TAKEOFF (s_latched 10) = TAKEOFF (s_armed 10) /\
  LANDING (s_latched 10) = LANDING (s_armed 10) /\
  outbox (s_latched 10) = outbox (s_armed 10) /\
  prev_time (s_latched 10) = prev_time (s_armed 10).
Proof.
  assert (Hf : hold_flag (s_armed 10) (quiet 1) = true).
  { cbv [hold_flag quiet mode_msg]. apply s_armed_fields. }
  assert (Hs : altitude_sensor (s_armed 10) = Some 0.11) by apply s_armed_fields.
  assert (Hne : (0.11 : R) <> 0) by lra.
  split; [exact Hf |]. split; [exact Hs |]. split; [exact Hne |].
  exact (hold_reset_relatches_vertical_only (s_armed 10) (quiet 1) 0.11 Hf Hs Hne).
Defined.

Lemma s_latched_ramp_at v : ramp_at v (takeoff_list TAKEOFF_LIST_LEN) (s_latched v).
Proof.
  unfold ramp_at, ramp_ready. unfold_scenario. do 2 eval_inner_tick.
  exec. repeat split; reflexivity.
Qed.

Lemma ramp_inputs_uninterrupted v : Forall (uninterrupted v) ramp_inputs.
Proof.
  unfold ramp_inputs. apply Forall_forall. intros inp Hin.
  apply repeat_spec in Hin. subst. unfold uninterrupted, quiet; simpl.
  split; [reflexivity | discriminate].
Qed.

(** C7, witness: the flight's ramp with the battery at 10 V (thrust
    constant 415). *)
Lemma takeoff_ramp_then_hold_witness :
  ramp_at 10 (takeoff_list TAKEOFF_LIST_LEN) (s_latched 10) /\
  Forall (uninterrupted 10) ramp_inputs /\
  length ramp_inputs = TAKEOFF_LIST_LEN /\
  (0 <= takeoff_thrust 10)%Z /\
  commanded (s_latched 10) ramp_inputs
    = map (fun fraction => fraction * IZR (takeoff_thrust 10))
        (takeoff_list TAKEOFF_LIST_LEN) /\
  Sorted Rle (commanded (s_latched 10) ramp_inputs) /\
  (forall k, (k <= TAKEOFF_LIST_LEN)%nat ->
     flight_phase (run (s_latched 10) (firstn k ramp_inputs)) = PhaseTakeoff) /\
  TAKEOFF_LIST (run (s_latched 10) ramp_inputs) = [] /\
  (forall inp more,
     uninterrupted 10 inp ->
     hold_entered (tick (run (s_latched 10) ramp_inputs) inp) /\
     flight_phase (tick (run (s_latched 10) ramp_inputs) inp) = PhaseHold /\
     TAKEOFF (run (tick (run (s_latched 10) ramp_inputs) inp) more) = false).
Proof.
  assert (H1 := s_latched_ramp_at 10).
  assert (H2 := ramp_inputs_uninterrupted 10).
  assert (H3 : length ramp_inputs = TAKEOFF_LIST_LEN) by apply repeat_length.
  assert (H4 : (0 <= takeoff_thrust 10)%Z)
    by (rewrite (takeoff_thrust_IZR 10 415) by lra; lia).
  split; [exact H1 |]. split; [exact H2 |]. split; [exact H3 |]. split; [exact H4 |].
  exact (takeoff_ramp_then_hold 10 TAKEOFF_LIST_LEN (s_latched 10) ramp_inputs H1 H2 H3 H4).
Defined.

(** C7, counterexample.  With the battery constant at 17 V the thrust
    constant is [int(1015 - 1020) = -5]: the twenty ramp ticks command
    [fraction * (-5)], which starts [0, -5 (1 - 1/e), ...] and decreases. *)
Lemma negative_thrust_ramp_decreases :
  ramp_at 17 (takeoff_list TAKEOFF_LIST_LEN) (s_latched 17) /\
  Forall (uninterrupted 17) ramp_inputs /\
  length ramp_inputs = TAKEOFF_LIST_LEN /\
  takeoff_thrust 17 = (-5)%Z /\
  commanded (s_latched 17) ramp_inputs
    = map (fun fraction => fraction * IZR (-5)) (takeoff_list TAKEOFF_LIST_LEN) /\
  nth 1 (commanded (s_latched 17) ramp_inputs) 0
    < nth 0 (commanded (s_latched 17) ramp_inputs) 0 /\
  ~ Sorted Rle (commanded (s_latched 17) ramp_inputs).
Proof.
  assert (H1 := s_latched_ramp_at 17).
  assert (H2 := ramp_inputs_uninterrupted 17).
  assert (H3 : length ramp_inputs = TAKEOFF_LIST_LEN) by apply repeat_length.
  assert (H4 : takeoff_thrust 17 = (-5)%Z) by (apply takeoff_thrust_IZR; lra).
  assert (H5 : commanded (s_latched 17) ramp_inputs
               = map (fun fraction => fraction * IZR (-5)) (takeoff_list TAKEOFF_LIST_LEN)).
  { destruct (commanded_ramp 17 ramp_inputs (takeoff_list TAKEOFF_LIST_LEN)
                (s_latched 17) H1 H2) as [Hc _].
    - rewrite H3, length_takeoff_list. lia.
    - rewrite H3, H4 in Hc. rewrite firstn_all2 in Hc by (rewrite length_takeoff_list; lia).
      exact Hc. }
  assert (H6 : takeoff_fraction 1 * IZR (-5) < takeoff_fraction 0 * IZR (-5)).
  { rewrite takeoff_fraction_0. destruct takeoff_fraction_1_bounds. lra. }
  repeat (split; [assumption |]). rewrite H5.
  unfold takeoff_list, TAKEOFF_LIST_LEN. cbv [map seq nth]. split; [exact H6 |].
  intros Hs. apply Sorted_inv in Hs. destruct Hs as [_ Hhd].
  apply HdRel_inv in Hhd. lra.
Qed.

(** C2.  The stale-timestamp guard [abs(dt<3)] is the comparison [dt < 3]:
    the coupling is applied with value [dt] for every [dt < 3] and zeroed
    for every [dt >= 3]; so it is applied at 2.999 s, zeroed at 3.001 s and
    applied at -3.001 s.  In the vertical predict step at [dt = -3.001] the
    entries [F[0,1]], [B[0]] and [B[1]] are [dt], [0.5*dt^2] and [dt]; at
    [dt = 3.001] the first two are zeroed and [B[1]], which has no guard,
    is still [dt].  The horizontal matrices follow the same guard. *)
Theorem stale_guard_tests_upper_bound_only :
  (forall d, d < 3 -> dt_guard d = d /\ dt_guard_sq d = 0.5 * (d * d)) /\
  (forall d, 3 <= d -> dt_guard d = 0 /\ dt_guard_sq d = 0) /\
  (dt_guard 2.999 = 2.999 /\ dt_guard 3.001 = 0 /\ dt_guard (-3.001) = -3.001) /\
  (dt (tick s_ahead (quiet 1.01)) = Some (1 - 4.001) /\
   mget 0 1 (kf_F (tof_filter (tick s_ahead (quiet 1.01)))) = -3.001 /\
   mget 0 0 (kf_B (tof_filter (tick s_ahead (quiet 1.01)))) = 0.5 * (-3.001 * -3.001) /\
   mget 1 0 (kf_B (tof_filter (tick s_ahead (quiet 1.01)))) = -3.001) /\
  (dt (tick s_stale (quiet 3.51)) = Some (3.501 - 0.5) /\
   mget 0 1 (kf_F (tof_filter (tick s_stale (quiet 3.51)))) = 0 /\
   mget 0 0 (kf_B (tof_filter (tick s_stale (quiet 3.51)))) = 0 /\
   mget 1 0 (kf_B (tof_filter (tick s_stale (quiet 3.51)))) = 3.001) /\
  (mget 0 2 (kf_F (horizontal_matrices (-3.001) (-3.001) 0 KFXY_init)) = -3.001 /\
   mget 1 3 (kf_F (horizontal_matrices (-3.001) (-3.001) 0 KFXY_init)) = -3.001 /\
   mget 2 2 (kf_B (horizontal_matrices (-3.001) (-3.001) 0 KFXY_init)) = -3.001 /\
   mget 3 3 (kf_B (horizontal_matrices (-3.001) (-3.001) 0 KFXY_init)) = -3.001).
Proof.
  assert (Hneg : dt_guard (1 - 4.001) = 1 - 4.001 /\
                 dt_guard_sq (1 - 4.001) = 0.5 * ((1 - 4.001) * (1 - 4.001)))
    by (apply dt_guard_lt; lra).
  assert (Hpos : dt_guard (3.501 - 0.5) = 0 /\ dt_guard_sq (3.501 - 0.5) = 0)
    by (apply dt_guard_ge; lra).
  assert (Hxy : dt_guard (-3.001) = -3.001) by (apply dt_guard_lt; lra).
  split; [exact dt_guard_lt |]. split; [exact dt_guard_ge |].
  split; [| split; [| split]].
  - split; [apply dt_guard_lt; lra |]. split; [apply dt_guard_ge; lra | exact Hxy].
  - unfold_scenario. do 3 eval_inner_tick. red_state. red_matrices.
    destruct Hneg as [-> ->]. repeat split; try reflexivity; lra.
  - unfold_scenario. do 4 eval_inner_tick. red_state. red_matrices.
    destruct Hpos as [-> ->]. repeat split; try reflexivity; lra.
  - red_matrices. rewrite Hxy. repeat split; reflexivity.
Qed.

(* ------------------------------------------------------------------ *)
(** * A flow sample in hold *)

Lemma s_hold_flow_fields v alt :
  TAKEOFF (s_hold_flow v alt) = false /\
  velocity (s_hold_flow v alt) = Some v /\
  altitude (s_hold_flow v alt) = Some alt /\
  KFXY (s_hold_flow v alt) = kf_with_x [0.4; -0.2; 0; 0] KFXY_init.
Proof. repeat split; reflexivity. Qed.

(** C5, counterexample.  The flow sample [(dx, dy) = (1, 0)] arrives in hold
    with the altitude estimate at -2: the update receives
    [[1 * 2; 0 * 2]], the value 2 on channel 0, whose row of [H] reads the
    x velocity and not the y velocity, and 0 on channel 1, the y channel. *)
Lemma flow_dx_feeds_x_channel :
  TAKEOFF (s_hold_flow 0 (-2)) = false /\
  altitude (s_hold_flow 0 (-2)) = Some (-2) /\
  flow_msg (flow_sample 1 0) = Some (1, 0, 1) /\
  (exists k post,
     trace (snd (horizontal_control (flow_sample 1 0) (s_hold_flow 0 (-2))))
       = post ++ XYUpdate k (flow_measurement [1; 0] (-2)) :: trace (s_hold_flow 0 (-2)) /\
     channel_reads (kf_H k) 0 AxisX /\
     ~ channel_reads (kf_H k) 0 AxisY /\
     channel_reads (kf_H k) 1 AxisY) /\
  vget 0 (flow_measurement [1; 0] (-2)) = 2 /\
  vget 1 (flow_measurement [1; 0] (-2)) = 0.
Proof.
  destruct (s_hold_flow_fields 0 (-2)) as [Ht [Hv [Ha Hk]]].
  split; [exact Ht |]. split; [exact Ha |]. split; [reflexivity |]. split.
  - destruct (horizontal_flow_update (s_hold_flow 0 (-2)) (flow_sample 1 0)
                1 0 1 0 (-2) Ht Hv Ha eq_refl) as [post E].
    eexists. exists post. split; [exact E |].
    rewrite horizontal_matrices_H, Hk.
    split; [reflexivity |]. split; [| reflexivity].
    unfold channel_reads. cbv. intros H. injection H as H0 H1. lra.
  - cbv [flow_measurement vget nth vscale map]. split; lra.
Qed.

(** C5, witness: the same sample and state. *)
Lemma flow_update_measurement_witness :
  TAKEOFF (s_hold_flow 0 (-2)) = false /\
  velocity (s_hold_flow 0 (-2)) = Some 0 /\
  altitude (s_hold_flow 0 (-2)) = Some (-2) /\
  flow_msg (flow_sample 1 0) = Some (1, 0, 1) /\
  kf_H (KFXY (s_hold_flow 0 (-2))) = kf_H KFXY_init /\
  exists k post,
    trace (snd (horizontal_control (flow_sample 1 0) (s_hold_flow 0 (-2))))
      = post ++ XYUpdate k [1 * - -2; 0 * - -2] :: trace (s_hold_flow 0 (-2)) /\
    channel_reads (kf_H k) 0 AxisX /\ channel_reads (kf_H k) 1 AxisY.
Proof.
  repeat (split; [reflexivity |]).
  exact (flow_update_measurement (s_hold_flow 0 (-2)) (flow_sample 1 0) 1 0 1 0 (-2)
           eq_refl eq_refl eq_refl eq_refl eq_refl).
Defined.

Lemma s_hold_flow_R v alt :
  kf_R (KFXY (s_hold_flow v alt))
    = [[mget 0 0 (kf_R KFXY_init); mget 0 1 (kf_R KFXY_init)];
       [mget 1 0 (kf_R KFXY_init); mget 1 1 (kf_R KFXY_init)]].
Proof. reflexivity. Qed.

(** C6, counterexample.  A flow sample arrives in hold with the vertical
    velocity at -2: both diagonal entries of the noise matrix seen by the
    update are [0.01 + (-2)/100 = -0.01], below 0.01 and different from
    [0.01 + |-2|/100]; with the velocity at +2 they are 0.03. *)
Lemma negative_velocity_lowers_flow_noise :
  TAKEOFF (s_hold_flow (-2) 1) = false /\
  velocity (s_hold_flow (-2) 1) = Some (-2) /\
  (exists k z post,
     trace (snd (horizontal_control (flow_sample 1 0) (s_hold_flow (-2) 1)))
       = post ++ XYUpdate k z :: trace (s_hold_flow (-2) 1) /\
     mget 0 0 (kf_R k) = -0.01 /\
     mget 1 1 (kf_R k) = -0.01 /\
     mget 0 0 (kf_R k) < 0.01 /\
     mget 0 0 (kf_R k) <> 0.01 + Rabs (-2) / 100) /\
  (exists k z post,
     trace (snd (horizontal_control (flow_sample 1 0) (s_hold_flow 2 1)))
       = post ++ XYUpdate k z :: trace (s_hold_flow 2 1) /\
     mget 0 0 (kf_R k) = 0.03 /\
     mget 1 1 (kf_R k) = 0.03).
Proof.
  assert (Habs : Rabs (-2) = 2) by (rewrite Rabs_left; lra).
  split; [reflexivity |]. split; [reflexivity |]. split.
  - destruct (horizontal_flow_update (s_hold_flow (-2) 1) (flow_sample 1 0)
                1 0 1 (-2) 1 eq_refl eq_refl eq_refl eq_refl) as [post E].
    do 2 eexists. exists post. split; [exact E |].
    rewrite (horizontal_matrices_R _ _ _ _ _ _ _ _ (s_hold_flow_R _ _)).
    cbv [mget vget nth]. rewrite Habs. repeat split; lra.
  - destruct (horizontal_flow_update (s_hold_flow 2 1) (flow_sample 1 0)
                1 0 1 2 1 eq_refl eq_refl eq_refl eq_refl) as [post E].
    do 2 eexists. exists post. split; [exact E |].
    rewrite (horizontal_matrices_R _ _ _ _ _ _ _ _ (s_hold_flow_R _ _)).
    cbv [mget vget nth]. split; lra.
Qed.

(** C6, witness: the sample arriving with the vertical velocity at -2. *)
Lemma flow_measurement_noise_witness :
  TAKEOFF (s_hold_flow (-2) 1) = false /\
  velocity (s_hold_flow (-2) 1) = Some (-2) /\
  altitude (s_hold_flow (-2) 1) = Some 1 /\
  flow_msg (flow_sample 1 0) = Some (1, 0, 1) /\
  kf_R (KFXY (s_hold_flow (-2) 1))
    = [[mget 0 0 (kf_R KFXY_init); mget 0 1 (kf_R KFXY_init)];
       [mget 1 0 (kf_R KFXY_init); mget 1 1 (kf_R KFXY_init)]] /\
  exists k z post,
    trace (snd (horizontal_control (flow_sample 1 0) (s_hold_flow (-2) 1)))
      = post ++ XYUpdate k z :: trace (s_hold_flow (-2) 1) /\
    kf_R k = [[0.01 + -2 / 100; mget 0 1 (kf_R KFXY_init)];
              [mget 1 0 (kf_R KFXY_init); 0.01 + -2 / 100]].
Proof.
  repeat (split; [reflexivity |]).
  exact (flow_measurement_noise (s_hold_flow (-2) 1) (flow_sample 1 0) 1 0 1 (-2) 1
           _ _ _ _ eq_refl eq_refl eq_refl eq_refl eq_refl).
Defined.

(* ------------------------------------------------------------------ *)
(** * [truncate] *)

(** C9, counterexample.  Over binary64, [0.58 * 100] is
    [57.99999999999999], so [truncate(0.58)] is [0.57]; and [0.57 * 100] is
    [56.99999999999999], so [truncate(0.57)] is [0.56]: applying [truncate]
    twice to [0.58] gives [0.56], which is below [truncate(0.58)]. *)
Lemma truncate_twice_binary64 :
  B64.truncate (B64.dec 58 2) = Some (B64.dec 57 2) /\
  B64.truncate (B64.dec 57 2) = Some (B64.dec 56 2) /\
  PrimFloat.ltb (B64.dec 56 2) (B64.dec 57 2) = true /\
  B64.truncate (B64.dec 57 2) <> Some (B64.dec 57 2).
Proof.
  assert (H2 : B64.truncate (B64.dec 57 2) = Some (B64.dec 56 2))
    by (vm_compute; reflexivity).
  assert (H3 : PrimFloat.ltb (B64.dec 56 2) (B64.dec 57 2) = true)
    by (vm_compute; reflexivity).
  split; [vm_compute; reflexivity |]. split; [exact H2 |]. split; [exact H3 |].
  rewrite H2. intros H.
  apply (f_equal (fun r => match r with
                           | Some y => PrimFloat.ltb y (B64.dec 57 2)
                           | None => false
                           end)) in H.
  vm_compute in H. discriminate.
Qed.

Lemma zrange_In lo len n :
  (lo <= n < lo + Z.of_nat len)%Z -> In n (B64.zrange lo len).
Proof.
  intros H. unfold B64.zrange. apply in_map_iff.
  exists (Z.to_nat (n - lo)). split; [lia |]. apply in_seq. lia.
Qed.

Lemma forallb_zrange (f : Z -> bool) lo len :
  forallb f (B64.zrange lo len) = true ->
  forall n, (lo <= n < lo + Z.of_nat len)%Z -> f n = true.
Proof.
  intros H n Hn. rewrite forallb_forall in H. apply H, zrange_In, Hn.
Qed.

(** C9 (amended).  Over binary64, as the code runs, [truncate] maps
    -1.239 to -1.23 and leaves -1.23 unchanged.  On every two-decimal input
    from -10.00 to 10.00 and every three-decimal input from -2.000 to 2.000
    it returns the input's two-decimal truncation toward zero or the
    two-decimal value next to it toward zero: never a rounding away from
    zero, never a floor.  It is not idempotent: of the two-decimal values
    0.00 to 1.99, seven (0.29, 0.57, 0.58, 1.13, 1.14, 1.15, 1.16) are not
    left unchanged.  And it does not truncate every double toward zero: the
    double just below 0.1 is mapped to 0.1, above it. *)
Theorem truncate_binary64_on_decimals :
  B64.truncate (B64.dec (-1239) 3) = Some (B64.dec (-123) 2) /\
  B64.truncate (B64.dec (-123) 2) = Some (B64.dec (-123) 2) /\
  (forall n, (-1000 <= n <= 1000)%Z -> B64.toward_zero_at 2 n = true) /\
  (forall n, (-2000 <= n <= 2000)%Z -> B64.toward_zero_at 3 n = true) /\
  filter (fun n => negb (B64.fixed_at n)) (B64.zrange 0 200)
    = [29; 57; 58; 113; 114; 115; 116]%Z /\
  B64.truncate (PrimFloat.next_down (B64.dec 10 2)) = Some (B64.dec 10 2) /\
  PrimFloat.ltb (PrimFloat.next_down (B64.dec 10 2)) (B64.dec 10 2) = true.
Proof.
  split; [vm_compute; reflexivity |]. split; [vm_compute; reflexivity |].
  split.
  { intros n Hn. apply (forallb_zrange (B64.toward_zero_at 2) (-1000) 2001);
      [vm_compute; reflexivity | lia]. }
  split.
  { intros n Hn. apply (forallb_zrange (B64.toward_zero_at 3) (-2000) 4001);
      [vm_compute; reflexivity | lia]. }
  split; [vm_compute; reflexivity |]. split; vm_compute; reflexivity.
Qed.

(* ------------------------------------------------------------------ *)
(** * Two range samples in hold *)

Lemma quiet_silent t : silent (quiet t) /\ clock_end (quiet t) = t.
Proof. unfold silent, quiet. simpl. auto. Qed.

Lemma quiet_uninterrupted v t : uninterrupted v (quiet t).
Proof. unfold uninterrupted, quiet; simpl. split; [reflexivity | discriminate]. Qed.

Lemma s_ramp_first_settled : settled imu_init 0.5 1.5 (tick (s_latched 10) (quiet 1.5)).
Proof.
  unfold settled. unfold_scenario. do 3 eval_inner_tick. red_state.
  repeat split; reflexivity.
Qed.

Lemma s_hold_reachable : reachable TAKEOFF_LIST_LEN 0 s_hold.
Proof.
  unfold s_hold, s_climbed. apply reach_tick, reachable_run, s_latched_reachable.
Qed.

Lemma s_hold_fields :
  exists h, hovering TAKEOFF_ALTITUDE h s_hold /\
            prev_time s_hold = 1.5 /\ TOF_Time s_hold = 0.5 /\ imu s_hold = imu_init.
Proof.
  assert (Hramp : ramp_at 10 [] s_climbed).
  { destruct (commanded_ramp 10 ramp_inputs (takeoff_list TAKEOFF_LIST_LEN) (s_latched 10)
                (s_latched_ramp_at 10) (ramp_inputs_uninterrupted 10)) as [_ Hr].
    - unfold ramp_inputs. rewrite repeat_length, length_takeoff_list. lia.
    - rewrite skipn_all2 in Hr
        by (unfold ramp_inputs; rewrite repeat_length, length_takeoff_list; lia).
      exact Hr. }
  assert (Hset : settled imu_init 0.5 1.5 s_climbed).
  { unfold s_climbed, ramp_inputs, TAKEOFF_LIST_LEN.
    change (repeat (quiet 1.5) 20) with (quiet 1.5 :: repeat (quiet 1.5) 19).
    rewrite run_cons. apply settled_run; [| apply s_ramp_first_settled].
    apply Forall_forall. intros inp Hin. apply repeat_spec in Hin. subst.
    apply quiet_silent. }
  assert (He : hold_entered s_hold)
    by (apply (ramp_end 10); [exact Hramp | apply quiet_uninterrupted]).
  assert (Hs : settled imu_init 0.5 1.5 s_hold)
    by (apply settled_tick; [apply quiet_silent | reflexivity | exact Hset]).
  destruct (hold_entered_hovering _ _ _ _ He Hs) as [h Hh].
  destruct Hs as [_ [_ [_ [Hi [Ht [Hp _]]]]]].
  exists h. exact (conj Hh (conj Hp (conj Ht Hi))).
Qed.

Lemma s_hold1_fields :
  exists h, hovering TAKEOFF_ALTITUDE h s_hold1 /\
            prev_time s_hold1 = 1.5 /\ TOF_Time s_hold1 = 0.9 /\ imu s_hold1 = imu_init /\
            altitude_corrected s_hold1 = Some (correct_altitude 1 imu_init).
Proof.
  destruct s_hold_fields as [h [Hh [Hp [Ht Hi]]]].
  assert (Hd : prev_time s_hold - TOF_Time s_hold <> 0) by (rewrite Hp, Ht; lra).
  destruct (hovering_tick_without_flow s_hold (range_sample 1 0.9 1.6) 1 0.9
              TAKEOFF_ALTITUDE h Hh takeoff_altitude_nonzero
              eq_refl eq_refl eq_refl eq_refl Hd) as [Hh1 [Hp1 [Ht1 [Hi1 Hc1]]]].
  rewrite Hp in Hp1. rewrite Hi in Hi1, Hc1.
  exists h. exact (conj Hh1 (conj Hp1 (conj Ht1 (conj Hi1 Hc1)))).
Qed.

Lemma s_hold2_fields :
  exists h, hovering TAKEOFF_ALTITUDE h s_hold2 /\
            prev_time s_hold2 = 1.5 /\ TOF_Time s_hold2 = 1 /\ imu s_hold2 = imu_init /\
            altitude_corrected s_hold2 = Some (correct_altitude 1 imu_init).
Proof.
  destruct s_hold1_fields as [h [Hh [Hp [Ht [Hi _]]]]].
  assert (Hd : prev_time s_hold1 - TOF_Time s_hold1 <> 0) by (rewrite Hp, Ht; lra).
  destruct (hovering_tick_without_flow s_hold1 (range_sample 1 1 1.7) 1 1
              TAKEOFF_ALTITUDE h Hh takeoff_altitude_nonzero
              eq_refl eq_refl eq_refl eq_refl Hd) as [Hh1 [Hp1 [Ht1 [Hi1 Hc1]]]].
  rewrite Hp in Hp1. rewrite Hi in Hi1, Hc1.
  exists h. exact (conj Hh1 (conj Hp1 (conj Ht1 (conj Hi1 Hc1)))).
Qed.

Lemma sin_mount_angle : 1 / 2 < sin 0.81 <= 1.
Proof.
  split; [| apply SIN_bound].
  rewrite <- sin_PI6.
  assert (H0 := PI_RGT_0). assert (H4 := PI_4). assert (H1 := PI2_1).
  apply sin_increasing_1; lra.
Qed.

Lemma level_attitude :
  correct_altitude 1 imu_init = 1 /\ 0.02 < mount_offset imu_init <= 0.06.
Proof.
  unfold correct_altitude, mount_offset, rad. cbv [att_roll att_pitch imu_init].
  replace (0 * PI * 1 / 180) with 0 by lra.
  replace (0.81 - 0) with 0.81 by lra.
  rewrite cos_0. destruct sin_mount_angle as [Hlo Hhi]. lra.
Qed.

Lemma truncate_0 : truncate 0 = 0.
Proof.
  rewrite truncate_eq. replace (0 * 100) with (IZR 0) by lra.
  rewrite py_int_IZR. lra.
Qed.

Lemma truncate_negative x : x <= - (1 / 100) -> truncate x < 0.
Proof.
  intros Hx. destruct (truncate_toward_zero x) as [_ [_ Hn]].
  apply Rabs_def2 in Hn. lra.
Qed.



(* ------------------------------------------------------------------ *)
(** * Further properties of the helpers *)

(** ** The two clamps *)

Lemma value_limit_clamp o l : 0 <= l -> value_limit o l = Rmax (- l) (Rmin o l).
Proof.
  intros Hl. unfold value_limit, Rgeb, Rleb, Rltb, Rmax, Rmin.
  destruct (Rle_dec l (Rabs o)) as [Ha | Ha].
  - destruct (Rlt_dec o 0) as [Hn | Hn].
    + rewrite Rabs_left in Ha by exact Hn.
      destruct (Rle_dec o l); [| lra]. destruct (Rle_dec (- l) o); lra.
    + rewrite Rabs_pos_eq in Ha by lra.
      destruct (Rle_dec o l); destruct (Rle_dec (- l) _); lra.
  - assert (Hb : - l < o < l).
    { apply Rnot_le_lt in Ha. apply Rabs_def2 in Ha. lra. }
    destruct (Rle_dec o l); [| lra]. destruct (Rle_dec (- l) o); lra.
Qed.

Lemma value_limit_inside o l : Rabs o <= l -> value_limit o l = o.
Proof.
  intros H. unfold value_limit, Rgeb, Rleb, Rltb.
  destruct (Rle_dec l (Rabs o)) as [Ha | Ha]; [| reflexivity].
  assert (E : Rabs o = l) by lra.
  destruct (Rlt_dec o 0) as [Hn | Hn].
  - rewrite Rabs_left in E by exact Hn. lra.
  - rewrite Rabs_pos_eq in E by lra. lra.
Qed.

(** X1.  [value_limit] saturates: for a non-negative limit the result is the
    output clamped to [[-limit, limit]]; it is the output itself exactly
    when [|output| <= limit], its magnitude never exceeds the limit, and
    clamping twice is clamping once. *)
Theorem value_limit_saturates o l :
  0 <= l ->
  value_limit o l = Rmax (- l) (Rmin o l) /\
  Rabs (value_limit o l) <= l /\
  (value_limit o l = o <-> Rabs o <= l) /\
  value_limit (value_limit o l) l = value_limit o l.
Proof.
  intros Hl.
  assert (Hb := value_limit_bound o l Hl).
  split; [apply value_limit_clamp, Hl |]. split; [exact Hb |]. split.
  - split; [intros E; rewrite <- E; exact Hb | apply value_limit_inside].
  - apply value_limit_inside, Hb.
Qed.

(** X2.  The clamp written inline for roll and pitch and [value_limit] are
    the same function, for every output and every limit (negative limits
    included). *)
Theorem clamp_inline_is_value_limit x l : clamp_inline x l = value_limit x l.
Proof.
  unfold clamp_inline, value_limit, Rgeb, Rleb, Rltb.
  destruct (Rle_dec (Rabs x) l) as [Hi | Hi]; destruct (Rle_dec l (Rabs x)) as [Ho | Ho].
  - assert (E : Rabs x = l) by lra.
    destruct (Rlt_dec x 0) as [Hn | Hn].
    + rewrite Rabs_left in E by exact Hn. lra.
    + rewrite Rabs_pos_eq in E by lra. lra.
  - reflexivity.
  - destruct (Rlt_dec x 0); lra.
  - lra.
Qed.

(** ** [truncate] with any number of digits, over exact arithmetic *)

Lemma scale_pos dp : 0 < IZR (10 ^ Z.of_nat dp).
Proof. apply IZR_lt. apply Z.pow_pos_nonneg; lia. Qed.

Lemma py_int_opp x : py_int (- x) = (- py_int x)%Z.
Proof.
  unfold py_int.
  destruct (Rle_dec 0 x) as [Hx | Hx]; destruct (Rle_dec 0 (- x)) as [Hn | Hn].
  - assert (E : x = 0) by lra. subst. rewrite Ropp_0.
    change 0 with (IZR 0). rewrite Int_part_IZR. reflexivity.
  - rewrite Ropp_involutive. reflexivity.
  - lia.
  - lra.
Qed.

Lemma py_int_monotone x y : x <= y -> (py_int x <= py_int y)%Z.
Proof.
  intros Hxy.
  destruct (Z_le_gt_dec (py_int x) (py_int y)) as [H | H]; [exact H | exfalso].
  assert (Hk : (py_int y + 1 <= py_int x)%Z) by lia.
  apply IZR_le in Hk. rewrite plus_IZR in Hk.
  destruct (Rle_dec 0 x) as [Hx | Hx]; destruct (Rle_dec 0 y) as [Hy | Hy].
  - destruct (py_int_nonneg x Hx). destruct (py_int_nonneg y Hy). lra.
  - lra.
  - assert (H1 := py_int_sign_neg x). assert (H2 := py_int_sign_nonneg y Hy). lra.
  - destruct (py_int_neg x). { lra. } destruct (py_int_neg y). { lra. } lra.
Qed.

(** X3.  [truncate] is odd and monotone, for every number of digits:
    negating the argument negates the result, and a larger argument never
    gives a smaller result. *)
Theorem truncate_odd_monotone dp :
  (forall x, truncate_dp (- x) dp = - truncate_dp x dp) /\
  (forall x y, x <= y -> truncate_dp x dp <= truncate_dp y dp).
Proof.
  assert (Hs := scale_pos dp). unfold truncate_dp. split.
  - intros x. replace (- x * IZR (10 ^ Z.of_nat dp)) with (- (x * IZR (10 ^ Z.of_nat dp)))
      by lra.
    rewrite py_int_opp, opp_IZR. unfold Rdiv. lra.
  - intros x y Hxy.
    assert (Hm : (py_int (x * IZR (10 ^ Z.of_nat dp))
                  <= py_int (y * IZR (10 ^ Z.of_nat dp)))%Z)
      by (apply py_int_monotone; nra).
    apply IZR_le in Hm. unfold Rdiv.
    apply Rmult_le_compat_r; [| exact Hm].
    apply Rlt_le, Rinv_0_lt_compat, Hs.
Qed.

Lemma takeoff_fraction_bounds t : 0 <= takeoff_fraction t < 1.
Proof.
  unfold takeoff_fraction.
  assert (H1 : 1 <= exp (INR t)).
  { destruct (Req_dec (INR t) 0) as [E | E].
    - rewrite E, exp_0. lra.
    - assert (0 < INR t) by (assert (H := pos_INR t); lra).
      assert (H2 := exp_ineq1 (INR t)). lra. }
  assert (H2 : 0 < / exp (INR t) <= 1).
  { split; [apply Rinv_0_lt_compat; lra |].
    rewrite <- Rinv_1. apply Rinv_le_contravar; lra. }
  unfold Rdiv. lra.
Qed.

Lemma takeoff_fraction_increasing t : takeoff_fraction t < takeoff_fraction (S t).
Proof.
  unfold takeoff_fraction.
  assert (H0 := exp_pos (INR t)).
  assert (H1 : exp (INR t) < exp (INR (S t))) by (apply exp_increasing; rewrite S_INR; lra).
  assert (H2 : / exp (INR (S t)) < / exp (INR t)) by (apply Rinv_lt_contravar; nra).
  lra.
Qed.

Lemma takeoff_fraction_lt : forall d t, takeoff_fraction t < takeoff_fraction (S d + t).
Proof.
  induction d as [| d IH]; intros t.
  - apply takeoff_fraction_increasing.
  - eapply Rlt_trans; [apply IH |]. apply (takeoff_fraction_increasing (S d + t)).
Qed.

(** X5.  The takeoff profile [TAKEOFF_LIST] of [n] fractions has [n]
    entries, the [t]-th being [1 - 1/e^t]; it starts at 0, every fraction
    lies in [[0, 1)], and the fractions strictly increase. *)
Theorem takeoff_profile_shape n :
  length (takeoff_list n) = n /\
  (forall t, (t < n)%nat -> nth t (takeoff_list n) 0 = takeoff_fraction t) /\
  (forall t, (t < n)%nat -> 0 <= nth t (takeoff_list n) 0 < 1) /\
  ((0 < n)%nat -> nth 0 (takeoff_list n) 0 = 0) /\
  (forall t u, (t < u)%nat -> (u < n)%nat ->
               nth t (takeoff_list n) 0 < nth u (takeoff_list n) 0).
Proof.
  assert (Hnth : forall t, (t < n)%nat -> nth t (takeoff_list n) 0 = takeoff_fraction t).
  { intros t Ht. unfold takeoff_list.
    rewrite (nth_indep _ 0 (takeoff_fraction 0)) by (rewrite length_map, length_seq; exact Ht).
    rewrite map_nth, seq_nth by exact Ht. reflexivity. }
  split; [apply length_takeoff_list |]. split; [exact Hnth |]. split; [| split].
  - intros t Ht. rewrite Hnth by exact Ht. apply takeoff_fraction_bounds.
  - intros Hn. rewrite Hnth by exact Hn. apply takeoff_fraction_0.
  - intros t u Htu Hu. rewrite !Hnth by lia.
    replace u with (S (u - t - 1) + t)%nat by lia. apply takeoff_fraction_lt.
Qed.

(** X6.  The thrust constant [int(1015 - 60*voltage)] never increases with
    the battery voltage; it is non-negative whenever [60*voltage <= 1015]
    and negative whenever [60*voltage >= 1016]. *)
Theorem takeoff_thrust_voltage :
  (forall v1 v2, v1 <= v2 -> (takeoff_thrust v2 <= takeoff_thrust v1)%Z) /\
  (forall v, 60 * v <= 1015 -> (0 <= takeoff_thrust v)%Z) /\
  (forall v, 1016 <= 60 * v -> (takeoff_thrust v < 0)%Z).
Proof.
  unfold takeoff_thrust. split; [| split].
  - intros v1 v2 H. apply py_int_monotone. lra.
  - intros v H. apply le_IZR. apply py_int_sign_nonneg. lra.
  - intros v H. apply lt_IZR. destruct (py_int_neg (1015 - 60 * v)); lra.
Qed.

(* ------------------------------------------------------------------ *)
(** * The further properties on the flight from start-up *)

(** X1 on the throttle limit, with an output of 200. *)
Lemma value_limit_saturates_witness :
  0 <= 150 /\
  value_limit 200 150 = Rmax (- 150) (Rmin 200 150) /\
  Rabs (value_limit 200 150) <= 150 /\
  (value_limit 200 150 = 200 <-> Rabs 200 <= 150) /\
  value_limit (value_limit 200 150) 150 = value_limit 200 150.
Proof.
  assert (H : 0 <= 150) by lra.
  exact (conj H (value_limit_saturates 200 150 H)).
Defined.

(** X9 on the first ramp tick of the flight, with a flow sample waiting. *)
Lemma takeoff_skips_horizontal_witness :
  TAKEOFF (tick (s_latched 10) (flow_sample 0.1 0.2)) = true /\
  KFXY (tick (s_latched 10) (flow_sample 0.1 0.2)) = KFXY (s_latched 10) /\
  KFXY_z (tick (s_latched 10) (flow_sample 0.1 0.2)) = KFXY_z (s_latched 10) /\
  KFXY_u (tick (s_latched 10) (flow_sample 0.1 0.2)) = KFXY_u (s_latched 10) /\
  roll_pd (tick (s_latched 10) (flow_sample 0.1 0.2)) = roll_pd (s_latched 10) /\
  pitch_pd (tick (s_latched 10) (flow_sample 0.1 0.2)) = pitch_pd (s_latched 10) /\
  OF_TIME (tick (s_latched 10) (flow_sample 0.1 0.2)) = OF_TIME (s_latched 10) /\
  oft (tick (s_latched 10) (flow_sample 0.1 0.2)) = oft (s_latched 10) /\
  roll (CMDS (tick (s_latched 10) (flow_sample 0.1 0.2))) = 0 /\
  pitch (CMDS (tick (s_latched 10) (flow_sample 0.1 0.2))) = 0.
Proof.
  assert (Hu : uninterrupted 10 (flow_sample 0.1 0.2)).
  { unfold uninterrupted, flow_sample; simpl. split; [reflexivity | discriminate]. }
  assert (Hat : ramp_at 10 (takeoff_fraction 0 :: map takeoff_fraction (seq 1 19))
                  (s_latched 10)) by exact (s_latched_ramp_at 10).
  assert (Ht : TAKEOFF (tick (s_latched 10) (flow_sample 0.1 0.2)) = true).
  { destruct (ramp_tick 10 _ _ _ _ Hat Hu) as [[[Ht _] _] _]. exact Ht. }
  exact (conj Ht (takeoff_skips_horizontal (s_latched 10) (flow_sample 0.1 0.2) Ht)).
Defined.

(** X10 on the flight's first hold state. *)
Lemma hold_without_flow_never_publishes_witness :
  TAKEOFF s_hold = false /\ oft s_hold = None /\ flow_msg (quiet 1.51) = None /\
  tick_outcome s_hold (quiet 1.51) <> Normal tt /\
  outbox (tick s_hold (quiet 1.51)) = outbox s_hold /\
  prev_time (tick s_hold (quiet 1.51)) = prev_time s_hold /\
  oft (tick s_hold (quiet 1.51)) = None /\
  TAKEOFF (tick s_hold (quiet 1.51)) = false.
Proof.
  destruct s_hold_fields as [h [[Ht [_ [_ [_ [_ Ho]]]]] _]].
  exact (conj Ht (conj Ho (conj eq_refl
           (hold_without_flow_never_publishes s_hold (quiet 1.51) Ht Ho eq_refl)))).
Defined.

Lemma s_blind_fields :
  TAKEOFF s_blind = true /\
  TAKEOFF_LIST s_blind = takeoff_fraction 0 :: map takeoff_fraction (seq 1 19) /\
  TAKEOFF_THRUST s_blind = None /\
  init_altitude s_blind = Some 0.11 /\
  postition_hold s_blind = false.
Proof.
  unfold s_blind, arm_blind, s_start, quiet, TAKEOFF_LIST_LEN.
  do 2 eval_inner_tick. red_state. repeat split; reflexivity.
Qed.

(** X11 on a flight started without an IMU sample. *)
Lemma ramp_waits_for_imu_witness :
  TAKEOFF s_blind = true /\
  TAKEOFF_LIST s_blind = takeoff_fraction 0 :: map takeoff_fraction (seq 1 19) /\
  TAKEOFF_THRUST s_blind = None /\ imu_msg (quiet 1.01) = None /\
  init_altitude s_blind = Some 0.11 /\ (0.11 : R) <> 0 /\
  mode_msg (quiet 1.01) = None /\ postition_hold s_blind = false /\
  tick_outcome s_blind (quiet 1.01) = Raised NameError /\
  TAKEOFF_LIST (tick s_blind (quiet 1.01))
    = takeoff_fraction 0 :: map takeoff_fraction (seq 1 19) /\
  TAKEOFF_THRUST (tick s_blind (quiet 1.01)) = None /\
  CMDS (tick s_blind (quiet 1.01)) = default_command /\
  outbox (tick s_blind (quiet 1.01)) = outbox s_blind /\
  prev_time (tick s_blind (quiet 1.01)) = prev_time s_blind.
Proof.
  destruct s_blind_fields as [H1 [H2 [H3 [H4 H5]]]].
  assert (Hne : (0.11 : R) <> 0) by lra.
  exact (conj H1 (conj H2 (conj H3 (conj eq_refl (conj H4 (conj Hne (conj eq_refl
           (conj H5
              (ramp_waits_for_imu s_blind (quiet 1.01) _ _ 0.11
                 H1 H2 H3 eq_refl H4 Hne eq_refl H5))))))))).
Defined.

(** X12 on the flight's first hold state. *)
Lemma landing_request_latches_witness :
  mode_msg (land_signal 2) = Some false /\
  LANDING (tick s_hold (land_signal 2)) = true /\
  init_altitude (tick s_hold (land_signal 2)) = None /\
  postition_hold (tick s_hold (land_signal 2)) = false /\
  tof_filter (tick s_hold (land_signal 2)) = tof_filter s_hold /\
  (forall inps, LANDING (run (tick s_hold (land_signal 2)) inps) = true) /\
  (TAKEOFF s_hold = false ->
   forall hover, cancel_gravity_value s_hold = Some hover ->
                 throttle (CMDS (tick s_hold (land_signal 2))) = hover - 50) /\
  (TAKEOFF s_hold = true ->
   TAKEOFF (tick s_hold (land_signal 2)) = true /\
   TAKEOFF_LIST (tick s_hold (land_signal 2)) = TAKEOFF_LIST s_hold /\
   throttle (CMDS (tick s_hold (land_signal 2))) = -30).
Proof.
  exact (conj eq_refl (landing_request_latches s_hold (land_signal 2) eq_refl)).
Defined.

Lemma s_start_fields :
  TAKEOFF s_start = true /\ truthy (init_altitude s_start) = false /\
  truthy (altitude_sensor s_start) = false /\ postition_hold s_start = false.
Proof.
  unfold s_start. cbv [init_state TAKEOFF init_altitude altitude_sensor postition_hold].
  repeat split; try reflexivity. apply truthy_zero.
Qed.

(** X13 on the first iteration of a flight, nothing waiting. *)
Lemma idle_without_reference_witness :
  TAKEOFF s_start = true /\ truthy (init_altitude s_start) = false /\
  hold_flag s_start (quiet 0.5) && truthy (altitude_sensor s_start) = false /\
  tick_outcome s_start (quiet 0.5) = Normal tt /\
  CMDS (tick s_start (quiet 0.5)) = default_command /\
  outbox (tick s_start (quiet 0.5)) = outbox_after s_start default_command /\
  tof_filter (tick s_start (quiet 0.5)) = tof_filter s_start /\
  KFXY (tick s_start (quiet 0.5)) = KFXY s_start /\
  TAKEOFF (tick s_start (quiet 0.5)) = true /\
  TAKEOFF_LIST (tick s_start (quiet 0.5)) = TAKEOFF_LIST s_start /\
  truthy (init_altitude (tick s_start (quiet 0.5))) = false /\
  postition_hold (tick s_start (quiet 0.5)) = hold_flag s_start (quiet 0.5) /\
  altitude_sensor (tick s_start (quiet 0.5)) = reading_after s_start (quiet 0.5) /\
  prev_time (tick s_start (quiet 0.5)) = clock_end (quiet 0.5).
Proof.
  destruct s_start_fields as [H1 [H2 [_ H4]]].
  assert (H3 : hold_flag s_start (quiet 0.5) && truthy (altitude_sensor s_start) = false).
  { cbv [hold_flag quiet mode_msg]. rewrite H4. reflexivity. }
  exact (conj H1 (conj H2 (conj H3
           (idle_without_reference s_start (quiet 0.5) H1 H2 H3)))).
Defined.

(** X14 on the start-up of the flight: the hold signal and the first range
    sample arrive together, the next tick latches. *)
Lemma hold_request_waits_for_reading_witness :
  TAKEOFF s_start = true /\ truthy (init_altitude s_start) = false /\
  hold_flag s_start (arm 10) = true /\ truthy (altitude_sensor s_start) = false /\
  tof_msg (arm 10) = Some (0.11, 0.5) /\ (0.11 : R) <> 0 /\
  mode_msg (quiet 1) <> Some false /\
  tick_outcome s_start (arm 10) = Normal tt /\
  postition_hold (tick s_start (arm 10)) = true /\
  altitude_sensor (tick s_start (arm 10)) = Some 0.11 /\
  truthy (init_altitude (tick s_start (arm 10))) = false /\
  tof_filter (tick s_start (arm 10)) = tof_filter s_start /\
  tick_outcome (tick s_start (arm 10)) (quiet 1) = Continued /\
  init_altitude (tick (tick s_start (arm 10)) (quiet 1)) = Some 0.11 /\
  kf_x (tof_filter (tick (tick s_start (arm 10)) (quiet 1))) = [0.11; 0] /\
  postition_hold (tick (tick s_start (arm 10)) (quiet 1)) = false.
Proof.
  destruct s_start_fields as [H1 [H2 [H3 _]]].
  assert (Hne : (0.11 : R) <> 0) by lra.
  assert (Hm : mode_msg (quiet 1) <> Some false) by discriminate.
  exact (conj H1 (conj H2 (conj eq_refl (conj H3 (conj eq_refl (conj Hne (conj Hm
           (hold_request_waits_for_reading s_start (arm 10) (quiet 1) 0.11 0.5
              H1 H2 eq_refl H3 eq_refl Hne Hm)))))))).
Defined.

(** X15 on the flight's first hold state. *)
Lemma reachable_state_invariants_witness :
  reachable TAKEOFF_LIST_LEN 0 s_hold /\
  init_x s_hold = 0 /\ init_y s_hold = 0 /\
  (exists k, TAKEOFF_LIST s_hold = skipn k (takeoff_list TAKEOFF_LIST_LEN)) /\
  (TAKEOFF s_hold = false ->
   TAKEOFF_LIST s_hold = [] /\ is_bound (altitude s_hold) = true /\
   is_bound (velocity s_hold) = true /\ is_bound (dt s_hold) = true) /\
  ((length (TAKEOFF_LIST s_hold) < TAKEOFF_LIST_LEN)%nat ->
   is_bound (cancel_gravity_value s_hold) = true /\
   is_bound (TAKEOFF_THRUST s_hold) = true) /\
  (TAKEOFF s_hold = false -> (0 < TAKEOFF_LIST_LEN)%nat ->
   is_bound (cancel_gravity_value s_hold) = true).
Proof.
  exact (conj s_hold_reachable
           (reachable_state_invariants TAKEOFF_LIST_LEN 0 s_hold s_hold_reachable)).
Defined.

(** X16 on the flight's ramp with the battery at 10 V. *)
Lemma hover_throttle_is_last_ramp_throttle_witness :
  ramp_at 10 (takeoff_list 20) (s_latched 10) /\
  Forall (uninterrupted 10) ramp_inputs /\
  length ramp_inputs = 20%nat /\
  cancel_gravity_value (run (s_latched 10) ramp_inputs)
    = Some (takeoff_fraction 19 * IZR (takeoff_thrust 10)) /\
  (forall more,
     cancel_gravity_value (run (run (s_latched 10) ramp_inputs) more)
       = Some (takeoff_fraction 19 * IZR (takeoff_thrust 10))).
Proof.
  assert (H1 : ramp_at 10 (takeoff_list 20) (s_latched 10)) by exact (s_latched_ramp_at 10).
  assert (H2 := ramp_inputs_uninterrupted 10).
  assert (H3 : length ramp_inputs = 20%nat) by apply repeat_length.
  exact (conj H1 (conj H2 (conj H3
           (hover_throttle_is_last_ramp_throttle 10 19 (s_latched 10) ramp_inputs
              H1 H2 H3)))).
Defined.

(* ------------------------------------------------------------------ *)
(** * The flight's first hold command *)

Lemma s_latched_horizontal v :
  KFXY (s_latched v) = KFXY_init /\ OF_TIME (s_latched v) = 0 /\
  KFXY_u (s_latched v) = KFXY_u_init /\ (length (outbox (s_latched v)) <= 1)%nat.
Proof.
  unfold_scenario. do 2 eval_inner_tick. red_state.
  repeat split; try reflexivity. simpl. lia.
Qed.

Lemma flow_update_succeeds_at_start dx dy dt_OF dt_IMU estimate :
  kf_update (flow_measurement [dx; dy] estimate)
    (horizontal_matrices dt_OF dt_IMU 0 KFXY_init) <> None.
Proof.
  unfold kf_update.
  cbv beta iota zeta delta [
    horizontal_matrices KFXY_init kf_x kf_F kf_P kf_B kf_H kf_Q kf_R kf_with_x kf_with_F
    kf_with_P kf_with_B kf_with_R mset mget list_set nth inv2 mat_add mat_mul transpose
    column dot vadd vscale map seq length hd combine fold_right fst snd diag eye repeat
    Nat.eqb].
  rewrite Reqb_false by lra. discriminate.
Qed.

Lemma s_ranged_hold_tick i :
  outbox s_ranged = [] /\
  tick_outcome s_ranged (hold_sample i) = Normal tt /\
  TAKEOFF (tick s_ranged (hold_sample i)) = false /\
  LANDING (tick s_ranged (hold_sample i)) = false /\
  imu (tick s_ranged (hold_sample i)) = i /\
  outbox (tick s_ranged (hold_sample i)) = [CMDS (tick s_ranged (hold_sample i))] /\
  KFXY_u (tick s_ranged (hold_sample i))
    = [0; 0; truncate (9.81 * accX i * cos (att_pitch i));
       truncate (9.81 * accY i * cos (att_roll i))].
Proof.
  unfold s_ranged, s_ramp19.
  assert (Hall : Forall (uninterrupted 10) (repeat (quiet 1.5) 19)).
  { apply Forall_forall. intros inp Hin. apply repeat_spec in Hin. subst.
    apply quiet_uninterrupted. }
  assert (Hlen : (length (repeat (quiet 1.5) 19) <= length (takeoff_list 20))%nat)
    by (rewrite repeat_length, length_takeoff_list; lia).
  destruct (s_latched_horizontal 10) as [Hk0 [Ho0 [Hu0 Hb0]]].
  destruct (commanded_ramp 10 _ _ _ (s_latched_ramp_at 10) Hall Hlen) as [_ Hat].
  rewrite repeat_length in Hat.
  destruct (ramp_run_horizontal 10 _ _ _ (s_latched_ramp_at 10) Hall Hlen)
    as [Hk1 [Ho1 Hu1]].
  assert (Hset : settled imu_init 0.5 1.5 (run (s_latched 10) (repeat (quiet 1.5) 19))).
  { change (repeat (quiet 1.5) 19) with (quiet 1.5 :: repeat (quiet 1.5) 18).
    rewrite run_cons. apply settled_run; [| apply s_ramp_first_settled].
    apply Forall_forall. intros inp Hin. apply repeat_spec in Hin. subst.
    apply quiet_silent. }
  set (s19 := run (s_latched 10) (repeat (quiet 1.5) 19)) in *.
  rewrite (takeoff_list_last 19 : skipn 19 (takeoff_list TAKEOFF_LIST_LEN) = _) in Hat.
  assert (Hu : uninterrupted 10 (range_sample 0.5 0.9 1.5)).
  { unfold uninterrupted, range_sample; simpl. split; [reflexivity | discriminate]. }
  destruct (ramp_tick 10 _ _ _ _ Hat Hu) as [[[Ht [Hl [Hi [Hp _]]]] HL] [_ Hc]].
  destruct (ramp_range_sample 10 _ _ _ _ 0.5 0.9 Hat Hu eq_refl) as [Htof Htoft].
  destruct (ramp_tick_horizontal 10 _ _ _ _ Hat Hu) as [Hk2 [Ho2 Hu2]].
  assert (Hprev : prev_time (tick s19 (range_sample 0.5 0.9 1.5)) = 1.5).
  { destruct Hset as [_ [_ [_ [_ [_ [Hp' _]]]]]].
    destruct (tick_prev_time s19 (range_sample 0.5 0.9 1.5)) as [E | E];
      rewrite E; [reflexivity | exact Hp']. }
  assert (Hbox : (length (outbox (tick s19 (range_sample 0.5 0.9 1.5))) <= 1)%nat).
  { apply tick_outbox_length. unfold s19. apply run_outbox_length. exact Hb0. }
  set (s20 := tick s19 (range_sample 0.5 0.9 1.5)) in *.
  assert (Hd : prev_time s20 - TOF_Time s20 <> 0) by (rewrite Hprev, Htof; lra).
  assert (Hkf : forall estimate,
             kf_update (flow_measurement [0.1; 0.2] estimate)
               (horizontal_matrices (prev_time s20 - OF_TIME s20) (prev_time s20 - 1.4) 0
                  (KFXY s20)) <> None).
  { intros estimate. rewrite Hk2, Hk1, Hk0. apply flow_update_succeeds_at_start. }
  destruct (takeoff_end_publishes s20 (hold_sample i) i 10 1.4 0.1 0.2 1.4 _
              Ht HL Hl Hp Hi Hc Htoft Hbox Hd eq_refl eq_refl eq_refl eq_refl Hkf)
    as [G0 [G1 [G2 [G3 [G4 [G5 G6]]]]]].
  rewrite Hu2, Hu1, Hu0 in G6.
  split; [exact G0 |]. split; [exact G1 |]. split; [exact G2 |]. split; [exact G3 |]. split; [exact G4 |].
  split; [exact G5 |]. exact G6.
Qed.

(** C1, witness: the flight's first hold command.  The tick that ends the
    takeoff publishes a command whose throttle is the clamped PID output
    plus the hover feed-forward. *)
Lemma published_command_shape_witness :
  publishes s_ranged (hold_sample imu_still)
    (CMDS (tick s_ranged (hold_sample imu_still))) /\
  flight_phase (tick s_ranged (hold_sample imu_still)) = PhaseHold /\
  (CMDS (tick s_ranged (hold_sample imu_still))
     = CMDS (tick s_ranged (hold_sample imu_still)) /\
   attitude_within_limits (CMDS (tick s_ranged (hold_sample imu_still))) /\
   throttle_shape (TAKEOFF_LIST s_ranged) (throttle_pd s_ranged)
     (tick s_ranged (hold_sample imu_still))).
Proof.
  destruct (s_ranged_hold_tick imu_still) as [Hempty [_ [Ht [Hl [_ [Hbox _]]]]]].
  assert (Hpub : publishes s_ranged (hold_sample imu_still)
                   (CMDS (tick s_ranged (hold_sample imu_still)))).
  { unfold publishes. rewrite Hbox, Hempty. reflexivity. }
  assert (Hphase : flight_phase (tick s_ranged (hold_sample imu_still)) = PhaseHold).
  { unfold flight_phase. rewrite Ht, Hl. reflexivity. }
  exact (conj Hpub (conj Hphase
           (published_command_shape s_ranged (hold_sample imu_still) _ Hpub))).
Defined.

(** X17 on the flight's first hold command, the vehicle at rest and
    shaken: the horizontal step runs, the control-input buffers differ, the
    published commands do not. *)
Lemma inertial_readings_never_matter_witness :
  without_inertial s_ranged = without_inertial s_ranged /\
  map inputs_without_inertial [hold_sample imu_still]
    = map inputs_without_inertial [hold_sample imu_shaken] /\
  flight_phase (run s_ranged [hold_sample imu_still]) = PhaseHold /\
  outbox (run s_ranged [hold_sample imu_still])
    = [CMDS (run s_ranged [hold_sample imu_still])] /\
  KFXY_u (run s_ranged [hold_sample imu_still])
    <> KFXY_u (run s_ranged [hold_sample imu_shaken]) /\
  (outbox (run s_ranged [hold_sample imu_still])
     = outbox (run s_ranged [hold_sample imu_shaken]) /\
   trace (run s_ranged [hold_sample imu_still])
     = trace (run s_ranged [hold_sample imu_shaken]) /\
   CMDS (run s_ranged [hold_sample imu_still])
     = CMDS (run s_ranged [hold_sample imu_shaken]) /\
   without_inertial (run s_ranged [hold_sample imu_still])
     = without_inertial (run s_ranged [hold_sample imu_shaken])).
Proof.
  assert (Hi : map inputs_without_inertial [hold_sample imu_still]
               = map inputs_without_inertial [hold_sample imu_shaken]) by reflexivity.
  destruct (s_ranged_hold_tick imu_still) as [_ [_ [Ht [Hl [_ [Hbox Hu]]]]]].
  destruct (s_ranged_hold_tick imu_shaken) as [_ [_ [_ [_ [_ [_ Hu']]]]]].
  assert (Hphase : flight_phase (run s_ranged [hold_sample imu_still]) = PhaseHold).
  { rewrite run_one. unfold flight_phase. rewrite Ht, Hl. reflexivity. }
  assert (Hpub : outbox (run s_ranged [hold_sample imu_still])
                 = [CMDS (run s_ranged [hold_sample imu_still])]).
  { rewrite run_one. exact Hbox. }
  assert (Hdiff : KFXY_u (run s_ranged [hold_sample imu_still])
                  <> KFXY_u (run s_ranged [hold_sample imu_shaken])).
  { rewrite !run_one, Hu, Hu'. cbv [accX accY att_roll att_pitch imu_still imu_shaken].
    intros E. injection E as E _.
    replace (9.81 * 0 * cos 0) with 0 in E by lra. rewrite truncate_0 in E.
    assert (Hneg : truncate (9.81 * -1 * cos 0) < 0)
      by (apply truncate_negative; rewrite cos_0; lra).
    lra. }
  exact (conj eq_refl (conj Hi (conj Hphase (conj Hpub (conj Hdiff
           (inertial_readings_never_matter s_ranged s_ranged
              [hold_sample imu_still] [hold_sample imu_shaken] eq_refl Hi)))))).
Defined.
